(** * loopy.codegen: the code-generation state and the translation-unit
    assembly pipeline, embedded in Rocq.

    The development follows [loopy/codegen/__init__.py]: the polyhedral
    library (islpy) is modelled as a small syntactic constraint-set facade,
    Python exceptions as an [Outcome], and stateful code (warnings, the
    collector sets, the persistent code-generation cache, collaborators of
    other modules) as a state-and-exception monad over an explicit world.
    Logging ([logger.debug], [ProcessLogger]) leaves no trace in the
    model. *)

From stdpp Require Import base option list gmap strings sorting pretty.
From Stdlib Require Import ZArith Lia OrderedTypeEx.

Local Open Scope string_scope.
Local Open Scope list_scope.
Local Open Scope Z_scope.

(** ** Exceptions and outcomes *)

(** The exception classes that the module raises, catches or can meet. *)
Inductive Exception :=
| UnvectorizableError (msg : string)
| LoopyError (msg : string)
| AssertionError
| KeyError
| IndexError
| AttributeError
| NotImplementedError
| IslError (msg : string)
| OtherException (msg : string).

Inductive Outcome (A : Type) :=
| Returned (a : A)
| Raised (e : Exception).
Arguments Returned {A} a.
Arguments Raised {A} e.

#[global] Instance Outcome_ret : MRet Outcome := fun A a => Returned a.
#[global] Instance Outcome_bind : MBind Outcome := fun A B f m =>
  match m with
  | Returned a => f a
  | Raised e => Raised e
  end.

(** [assert cond] *)
Definition py_assert (cond : bool) : Outcome unit :=
  if cond then Returned tt else Raised AssertionError.

(** A computation over a world [W]: it returns or raises, and leaves a
    world behind in both cases. *)
Definition M (W A : Type) : Type := W -> Outcome A * W.

#[global] Instance M_ret W : MRet (M W) := fun A a w => (Returned a, w).
#[global] Instance M_bind W : MBind (M W) := fun A B f m w =>
  match m w with
  | (Returned a, w') => f a w'
  | (Raised e, w') => (Raised e, w')
  end.

Definition raise {W A} (e : Exception) : M W A := fun w => (Raised e, w).

Definition lift_outcome {W A} (o : Outcome A) : M W A := fun w => (o, w).

Definition modify {W} (f : W -> W) : M W unit := fun w => (Returned tt, f w).

(** [for x in xs: body(x)], the loop state [acc] threaded through. *)
Fixpoint for_each {W A S} (xs : list A) (body : S -> A -> M W S) (acc : S)
  : M W S :=
  match xs with
  | [] => mret acc
  | x :: xs' => acc' ← body acc x; for_each xs' body acc'
  end.

(** [range(n)] on a Python int. *)
Definition py_range (n : Z) : list Z := Z.of_nat <$> seq 0 (Z.to_nat n).

(** The line feed, and the blank line that separates programs. *)
Definition newline : string := String (Ascii.ascii_of_nat 10) EmptyString.
Definition blank_line : string := newline +:+ newline.

(** [sep.join(parts)] *)
Fixpoint join (sep : string) (parts : list string) : string :=
  match parts with
  | [] => EmptyString
  | [p] => p
  | p :: rest => p +:+ sep +:+ join sep rest
  end.

(** ** The constraint-set facade (islpy) *)

Module isl.

Inductive dim_type := param | set.

#[global] Instance dim_type_eq_dec : EqDecision dim_type.
Proof. solve_decision. Defined.

(** A space: its parameters and set dimensions, each with its name if it
    has one (a dimension fresh from [add_dims] has none). *)
Record Space := mkSpace {
  space_params : list (option string);
  space_set : list (option string)
}.

(** [Space.params_alloc(ctx, 0)] *)
Definition params_alloc0 : Space := mkSpace [] [].

Definition space_dim (sp : Space) (dt : dim_type) : nat :=
  match dt with
  | param => length (space_params sp)
  | set => length (space_set sp)
  end.

Fixpoint index_of {A} `{EqDecision A} (x : A) (l : list A) : option nat :=
  match l with
  | [] => None
  | y :: l' => if decide (x = y) then Some 0%nat else S <$> index_of x l'
  end.

(** [space.get_var_dict().get(name)]: parameters are listed before set
    dimensions. *)
Definition var_dict_lookup (sp : Space) (name : string)
  : option (dim_type * nat) :=
  match index_of (Some name) (space_params sp) with
  | Some i => Some (param, i)
  | None =>
      match index_of (Some name) (space_set sp) with
      | Some i => Some (set, i)
      | None => None
      end
  end.

(** An integer affine form over a space: a constant and one coefficient
    per parameter and per input dimension.  A missing trailing
    coefficient is zero. *)
Record Aff := mkAff {
  aff_space : Space;
  aff_const : Z;
  aff_param_coeffs : list Z;
  aff_in_coeffs : list Z
}.

Definition zero_on_domain (sp : Space) : Aff := mkAff sp 0 [] [].

(** [aff + i] *)
Definition aff_add_constant (a : Aff) (i : Z) : Aff :=
  mkAff (aff_space a) (aff_const a + i) (aff_param_coeffs a)
        (aff_in_coeffs a).

Definition coeff (l : list Z) (pos : nat) : Z := default 0 (l !! pos).

Definition get_coefficient (a : Aff) (dt : dim_type) (pos : nat) : Z :=
  match dt with
  | param => coeff (aff_param_coeffs a) pos
  | set => coeff (aff_in_coeffs a) pos
  end.

Definition set_coeff (l : list Z) (pos : nat) (v : Z) : list Z :=
  <[pos := v]> (l ++ replicate (S pos - length l)%nat 0).

Definition add_coefficient_val (a : Aff) (dt : dim_type) (pos : nat)
    (v : Z) : Aff :=
  match dt with
  | param =>
      mkAff (aff_space a) (aff_const a)
            (set_coeff (aff_param_coeffs a) pos
                       (coeff (aff_param_coeffs a) pos + v))
            (aff_in_coeffs a)
  | set =>
      mkAff (aff_space a) (aff_const a) (aff_param_coeffs a)
            (set_coeff (aff_in_coeffs a) pos
                       (coeff (aff_in_coeffs a) pos + v))
  end.

(** The coefficient that [a] gives to the dimension called [name]. *)
Definition coeff_of_name (a : Aff) (name : string) : Z :=
  match var_dict_lookup (aff_space a) name with
  | Some (dt, pos) => get_coefficient a dt pos
  | None => 0
  end.

Definition has_name (sp : Space) (name : string) : bool :=
  bool_decide (is_Some (var_dict_lookup sp name)).

(** [align_spaces(aff, zero_on_domain(space))]: the form is moved to
    [space], dimensions matched by name; a dimension of [aff] that
    [space] does not have is left over, which is an error. *)
Definition align_spaces (a : Aff) (sp : Space) : Outcome Aff :=
  if forallb (from_option (has_name sp) false)
             (space_params (aff_space a) ++ space_set (aff_space a))
  then Returned
         (mkAff sp (aff_const a)
            (from_option (coeff_of_name a) 0 <$> space_params sp)
            (from_option (coeff_of_name a) 0 <$> space_set sp))
  else Raised (IslError "obj has leftover dimensions after alignment").

(** A constraint [aff == 0] or [aff >= 0]. *)
Record Constraint := mkConstraint {
  is_equality : bool;
  constraint_aff : Aff
}.

Definition equality_from_aff (a : Aff) : Constraint := mkConstraint true a.

Record BasicSet := mkBasicSet {
  bset_space : Space;
  bset_constraints : list Constraint
}.

(** A set is a finite union of basic sets over one space. *)
Record Set_ := mkSet {
  get_space : Space;
  disjuncts : list (list Constraint)
}.

(** [BasicSet.from_params]: a parameter domain seen as a set with no
    set dimensions. *)
Definition from_params (b : BasicSet) : BasicSet :=
  mkBasicSet (mkSpace (space_params (bset_space b)) []) (bset_constraints b).

Definition from_basic_set (b : BasicSet) : Set_ :=
  mkSet (bset_space b) [bset_constraints b].

Definition dim (s : Set_) (dt : dim_type) : nat := space_dim (get_space s) dt.

(** [s.add_dims(dim_type.set, n)]: [n] unnamed, unconstrained dimensions
    at the end. *)
Definition add_dims (s : Set_) (dt : dim_type) (n : nat) : Set_ :=
  match dt with
  | set =>
      mkSet (mkSpace (space_params (get_space s))
                     (space_set (get_space s) ++ replicate n None))
            (disjuncts s)
  | param =>
      mkSet (mkSpace (space_params (get_space s)
                        ++ replicate n None)
                     (space_set (get_space s)))
            (disjuncts s)
  end.

Definition set_dim_name (s : Set_) (dt : dim_type) (pos : nat)
    (name : string) : Set_ :=
  match dt with
  | set =>
      mkSet (mkSpace (space_params (get_space s))
                     (<[pos := Some name]> (space_set (get_space s))))
            (disjuncts s)
  | param =>
      mkSet (mkSpace (<[pos := Some name]> (space_params (get_space s)))
                     (space_set (get_space s)))
            (disjuncts s)
  end.

(** [s.add_constraint(c)]: every basic set of the union receives [c]. *)
Definition add_constraint (s : Set_) (c : Constraint) : Set_ :=
  mkSet (get_space s) ((fun cs => cs ++ [c]) <$> disjuncts s).

(** *** Points *)

(** A point gives a value to every parameter and set dimension. *)
Record Point := mkPoint {
  point_params : list Z;
  point_set : list Z
}.

Fixpoint dot (cs vs : list Z) : Z :=
  match cs, vs with
  | c :: cs', v :: vs' => c * v + dot cs' vs'
  | _, _ => 0
  end.

Definition eval_aff (a : Aff) (p : Point) : Z :=
  aff_const a + dot (aff_param_coeffs a) (point_params p)
  + dot (aff_in_coeffs a) (point_set p).

Definition satisfies (p : Point) (c : Constraint) : Prop :=
  if is_equality c then eval_aff (constraint_aff c) p = 0
  else 0 <= eval_aff (constraint_aff c) p.

Definition contains (s : Set_) (p : Point) : Prop :=
  length (point_params p) = space_dim (get_space s) param /\
  length (point_set p) = space_dim (get_space s) set /\
  exists cs, cs ∈ disjuncts s /\ Forall (satisfies p) cs.

End isl.

(** ** Expressions, types, targets *)

(** Modelled from the spec: [pymbolic] expressions and
    [loopy.symbolic.pw_aff_to_expr] are not part of the sources; the spec
    binds an iname to the affine expression it is fixed to, so an
    expression is a constant, a variable, or a sum of scaled variables. *)
Inductive Expression :=
| Constant (value : Z)
| Var (name : string)
| LinearSum (constant : Z) (terms : list (Z * string)).

Definition scaled_terms (coeffs : list Z) (dims : list (option string))
  : list (Z * string) :=
  omap (fun '(i, d) =>
          match d with
          | Some n =>
              if decide (isl.coeff coeffs i = 0) then None
              else Some (isl.coeff coeffs i, n)
          | None => None
          end)
       (imap pair dims).

Definition pw_aff_to_expr (a : isl.Aff) : Expression :=
  match scaled_terms (isl.aff_in_coeffs a) (isl.space_set (isl.aff_space a))
        ++ scaled_terms (isl.aff_param_coeffs a)
                        (isl.space_params (isl.aff_space a)) with
  | [] => Constant (isl.aff_const a)
  | terms => LinearSum (isl.aff_const a) terms
  end.

(** [loopy.types.LoopyType], as far as this module looks into it. *)
Record LoopyType := mkLoopyType {
  dtype_name : string;
  involves_complex : bool
}.

#[global] Instance LoopyType_eq_dec : EqDecision LoopyType.
Proof. solve_decision. Defined.

Module SeenFunction.
Record t := mk {
  name : string;
  c_name : string;
  arg_dtypes : list LoopyType;
  result_dtypes : list LoopyType
}.
End SeenFunction.

#[global] Instance SeenFunction_eq_dec : EqDecision SeenFunction.t.
Proof. solve_decision. Defined.

(** A preamble: [(priority, text)]. *)
Abbreviation Preamble := (Z * string)%type (only parsing).

(** Preamble generators are callables; a kernel or a builder names them,
    the collaborators run them. *)
Abbreviation PreambleGenerator := string (only parsing).

(** [loopy.target.ASTBuilderBase] *)
Record ASTBuilderBase := mkASTBuilder {
  builder_name : string;
  preamble_generators : list PreambleGenerator
}.

#[global] Instance ASTBuilderBase_eq_dec : EqDecision ASTBuilderBase.
Proof. solve_decision. Defined.

(** [loopy.target.TargetBase].  The base class raises
    [NotImplementedError] from both builder getters; a concrete target
    overrides them. *)
Record TargetBase := mkTarget {
  target_name : string;
  host_program_name_prefix : string;
  host_program_name_suffix : string;
  device_program_name_prefix : string;
  device_program_name_suffix : string;
  host_ast_builder : option ASTBuilderBase;
  device_ast_builder : option ASTBuilderBase
}.

Definition get_host_ast_builder (t : TargetBase) : Outcome ASTBuilderBase :=
  match host_ast_builder t with
  | Some b => Returned b
  | None => Raised NotImplementedError
  end.

Definition get_device_ast_builder (t : TargetBase) : Outcome ASTBuilderBase :=
  match device_ast_builder t with
  | Some b => Returned b
  | None => Raised NotImplementedError
  end.

(** ** Kernels and callables *)

(** Modelled from the spec: [loopy.kernel.KernelState] is not part of the
    sources; the spec gives the enumeration as
    initial < preprocessed < linearized. *)
Inductive KernelState := INITIAL | PREPROCESSED | LINEARIZED.

#[global] Instance KernelState_eq_dec : EqDecision KernelState.
Proof. solve_decision. Defined.

Definition KernelState_value (s : KernelState) : Z :=
  match s with INITIAL => 0 | PREPROCESSED => 1 | LINEARIZED => 2 end.

Definition KernelState_ltb (a b : KernelState) : bool :=
  KernelState_value a <? KernelState_value b.

Abbreviation CallableId := string (only parsing).

(** An argument or a temporary: what the driver reads of it. *)
Record KernelVariable := mkKernelVariable {
  var_name : string;
  dtype : option LoopyType
}.

(** [loopy.kernel.LoopKernel], the attributes this module uses.
    [call_sites] are the resolved function ids that the kernel's
    instructions call. *)
Record LoopKernel := mkLoopKernel {
  knl_name : string;
  knl_state : KernelState;
  knl_target : TargetBase;
  args : list KernelVariable;
  temporary_variables : list (string * KernelVariable);
  assumptions : isl.BasicSet;
  linearization : option (list string);
  preambles : list Preamble;
  knl_preamble_generators : list PreambleGenerator;
  all_inames : list string;
  index_dtype : LoopyType;
  all_variable_names : list string;
  call_sites : list CallableId
}.

(** [loopy.typing.not_none] *)
Definition not_none {A} (x : option A) : Outcome A :=
  match x with
  | Some a => Returned a
  | None => Raised AssertionError
  end.

Inductive InKernelCallable :=
| CallableKernel (subkernel : LoopKernel)
| ScalarCallable (scalar_name : string).

Definition is_CallableKernel (c : InKernelCallable) : bool :=
  match c with CallableKernel _ => true | ScalarCallable _ => false end.

(** A [dict] keeps its insertion order: an association list with unique
    keys. *)
Abbreviation dict K V := (list (K * V)) (only parsing).

(** [d.get(k)] *)
Fixpoint dict_get {V} (d : dict string V) (k : string) : option V :=
  match d with
  | [] => None
  | (k', v) :: d' => if decide (k' = k) then Some v else dict_get d' k
  end.

(** [d\[k\] = v] *)
Fixpoint dict_set {V} (d : dict string V) (k : string) (v : V)
  : dict string V :=
  match d with
  | [] => [(k, v)]
  | (k', v') :: d' =>
      if decide (k' = k) then (k, v) :: d' else (k', v') :: dict_set d' k v
  end.

Definition dict_keys {K V} (d : dict K V) : list K := fst <$> d.
Definition dict_values {K V} (d : dict K V) : list V := snd <$> d.

Abbreviation CallablesTable := (dict CallableId InKernelCallable) (only parsing).

(** [pytools.UniqueNameGenerator], and
    [loopy.codegen.tools.CodegenOperationCacheManager.from_kernel]. *)
Record UniqueNameGenerator := mkUniqueNameGenerator {
  existing_names : list string
}.

Definition get_var_name_generator (k : LoopKernel) : UniqueNameGenerator :=
  mkUniqueNameGenerator (all_variable_names k).

Record CodegenOperationCacheManager := from_kernel {
  ccm_kernel : LoopKernel
}.

(** ** Generated code *)

(** A target AST: a function definition carries its declaration ([fdecl]);
    [Collection] is the container of the builder's [ast_module]. *)
#[warnings="-register-all"] Inductive AST :=
| Node (text : string)
| FunctionBody (declaration : string) (body : string)
| Collection (contents : list AST).

(** [ast.fdecl] *)
Definition fdecl (a : AST) : Outcome AST :=
  match a with
  | FunctionBody d _ => Returned (Node d)
  | _ => Raised AttributeError
  end.

(** [loopy.codegen.result.GeneratedProgram] *)
Record GeneratedProgram := mkGeneratedProgram {
  program_name : string;
  is_device_program : bool;
  ast : AST
}.

(** [prg.copy(ast=...)] *)
Definition copy_ast (p : GeneratedProgram) (a : AST) : GeneratedProgram :=
  mkGeneratedProgram (program_name p) (is_device_program p) a.

(** [loopy.codegen.result.CodeGenerationResult], the result for one
    kernel. *)
Record CodeGenerationResult := mkCodeGenerationResult {
  host_program : option GeneratedProgram;
  cgr_device_programs : list GeneratedProgram;
  implemented_domains : dict string (list isl.Set_);
  cgr_host_preambles : list Preamble;
  cgr_device_preambles : list Preamble
}.

(** [cgr.copy(device_preambles=...)] *)
Definition copy_device_preambles (r : CodeGenerationResult)
    (ps : list Preamble) : CodeGenerationResult :=
  mkCodeGenerationResult (host_program r) (cgr_device_programs r)
    (implemented_domains r) (cgr_host_preambles r) ps.

(** ** The code-generation state *)

Module VectorizationInfo.
Record t := mk {
  iname : string;
  length : Z
}.
End VectorizationInfo.

(** The collector sets are mutable objects shared by every copy of a
    state: a state holds their addresses, the world holds the sets. *)
Abbreviation address := nat (only parsing).

Record CodeGenerationState := mkCodeGenerationState {
  kernel : LoopKernel;
  target : TargetBase;
  implemented_domain : isl.Set_;
  implemented_predicates : list Expression;
  seen_dtypes : address;
  seen_functions : address;
  seen_atomic_dtypes : address;
  var_subst_map : gmap string Expression;
  allow_complex : bool;
  callables_table : CallablesTable;
  is_entrypoint : bool;
  var_name_generator : UniqueNameGenerator;
  is_generating_device_code : bool;
  gen_program_name : string;
  schedule_index_end : nat;
  codegen_cache_manager : CodegenOperationCacheManager;
  vectorization_info : option VectorizationInfo.t
}.

(** [self.copy(var_subst_map=...)], [self.copy(implemented_domain=...)],
    [self.copy(vectorization_info=...)]: [dataclasses.replace]. *)
Definition copy_var_subst_map (self : CodeGenerationState)
    (m : gmap string Expression) : CodeGenerationState :=
  mkCodeGenerationState (kernel self) (target self) (implemented_domain self)
    (implemented_predicates self) (seen_dtypes self) (seen_functions self)
    (seen_atomic_dtypes self) m (allow_complex self) (callables_table self)
    (is_entrypoint self) (var_name_generator self)
    (is_generating_device_code self) (gen_program_name self)
    (schedule_index_end self) (codegen_cache_manager self)
    (vectorization_info self).

Definition copy_implemented_domain (self : CodeGenerationState)
    (d : isl.Set_) : CodeGenerationState :=
  mkCodeGenerationState (kernel self) (target self) d
    (implemented_predicates self) (seen_dtypes self) (seen_functions self)
    (seen_atomic_dtypes self) (var_subst_map self) (allow_complex self)
    (callables_table self) (is_entrypoint self) (var_name_generator self)
    (is_generating_device_code self) (gen_program_name self)
    (schedule_index_end self) (codegen_cache_manager self)
    (vectorization_info self).

Definition copy_vectorization_info (self : CodeGenerationState)
    (v : option VectorizationInfo.t) : CodeGenerationState :=
  mkCodeGenerationState (kernel self) (target self) (implemented_domain self)
    (implemented_predicates self) (seen_dtypes self) (seen_functions self)
    (seen_atomic_dtypes self) (var_subst_map self) (allow_complex self)
    (callables_table self) (is_entrypoint self) (var_name_generator self)
    (is_generating_device_code self) (gen_program_name self)
    (schedule_index_end self) (codegen_cache_manager self) v.

(** Make a copy of self with variable [name] fixed to [value]. *)
Definition copy_and_assign (self : CodeGenerationState) (name : string)
    (value : Expression) : CodeGenerationState :=
  copy_var_subst_map self (<[name := value]> (var_subst_map self)).

(** Modelled from the spec: [loopy.isl_helpers.iname_rel_aff] is not part
    of the sources; called with the relation [==] it gives the form whose
    vanishing says [iname == aff], that is [aff - iname] over [space]. *)
Definition iname_rel_aff_eq (space : isl.Space) (iname : string)
    (aff : isl.Aff) : Outcome isl.Aff :=
  match isl.var_dict_lookup space iname with
  | None => Raised KeyError
  | Some (dt, pos) =>
      aligned ← isl.align_spaces aff space;
      Returned (isl.add_coefficient_val aligned dt pos (-1))
  end.

(** [CodeGenerationState.fix] *)
Definition fix_ (self : CodeGenerationState) (iname : string)
    (aff : isl.Aff) : Outcome CodeGenerationState :=
  let new_impl_domain := implemented_domain self in
  let impl_space := isl.get_space (implemented_domain self) in
  let new_impl_domain :=
    if isl.has_name impl_space iname then new_impl_domain
    else isl.set_dim_name (isl.add_dims new_impl_domain isl.set 1)
           isl.set (isl.dim new_impl_domain isl.set) iname in
  let impl_space := isl.get_space new_impl_domain in
  iname_plus_lb_aff ← iname_rel_aff_eq impl_space iname aff;
  let cns := isl.equality_from_aff iname_plus_lb_aff in
  let expr := pw_aff_to_expr aff in
  let new_impl_domain := isl.add_constraint new_impl_domain cns in
  Returned (copy_implemented_domain (copy_and_assign self iname expr)
              new_impl_domain).

(** The affine constant [i]:
    [isl.Aff.zero_on_domain(isl.Space.params_alloc(ctx, 0)) + i]. *)
Definition constant_aff (i : Z) : isl.Aff :=
  isl.aff_add_constant (isl.zero_on_domain isl.params_alloc0) i.

(** [CodeGenerationState.ast_builder] *)
Definition ast_builder (self : CodeGenerationState) : Outcome ASTBuilderBase :=
  if is_generating_device_code self
  then get_device_ast_builder (knl_target (kernel self))
  else get_host_ast_builder (knl_target (kernel self)).

(** ** The world *)

Record Warning := mkWarning {
  warning_kernel : string;
  warning_id : string;
  warning_text : string
}.

(** A collector set on the heap. *)
Inductive PyObject :=
| DtypeSet (members : list LoopyType)
| FunctionSet (functions : list SeenFunction.t).

(** What emission can touch: the warnings given so far, the heap of
    collector sets, and the state [X] of the collaborators. *)
Record Emission (X : Type) := mkEmission {
  warnings : list Warning;
  heap : list PyObject;
  collaborator_state : X
}.
Arguments mkEmission {X} _ _ _.
Arguments warnings {X} _.
Arguments heap {X} _.
Arguments collaborator_state {X} _.

(** Modelled from the spec: [loopy.diagnostic.warn] is not part of the
    sources; the spec has the failure reported as a recoverable warning
    that carries the label and the reason, and that does not abort. *)
Definition warn {X} (k : LoopKernel) (id text : string) : M (Emission X) unit :=
  modify (fun w => mkEmission (warnings w ++ [mkWarning (knl_name k) id text])
                              (heap w) (collaborator_state w)).

(** [set()] *)
Definition new_set {X} (o : PyObject) : M (Emission X) address :=
  fun w => (Returned (List.length (heap w)),
            mkEmission (warnings w) (heap w ++ [o]) (collaborator_state w)).

Definition add_member (d : LoopyType) (o : PyObject) : PyObject :=
  match o with
  | DtypeSet s => DtypeSet (if decide (d ∈ s) then s else s ++ [d])
  | FunctionSet f => FunctionSet f
  end.

(** [s.add(d)] for the set at address [a]. *)
Definition set_add {X} (a : address) (d : LoopyType) : M (Emission X) unit :=
  modify (fun w => mkEmission (warnings w) (alter (add_member d) a (heap w))
                              (collaborator_state w)).

(** What one call of an emission function hands back: nothing, one result,
    or a list of results. *)
Inductive Generated :=
| GenNone
| GenOne (r : CodeGenerationResult)
| GenList (rs : list CodeGenerationResult).

Record PreambleInfo := mkPreambleInfo {
  pi_kernel : LoopKernel;
  pi_seen_dtypes : address;
  pi_seen_functions : address;
  pi_seen_atomic_dtypes : address;
  codegen_state : CodeGenerationState
}.

Record TranslationUnit := mkTranslationUnit {
  tu_target : TargetBase;
  entrypoints : list CallableId;
  tu_callables_table : CallablesTable
}.

(** [t_unit.copy(callables_table=...)] *)
Definition copy_callables_table (t : TranslationUnit) (c : CallablesTable)
  : TranslationUnit :=
  mkTranslationUnit (tu_target t) (entrypoints t) c.

(** [t_unit\[func_id\]]: the callable; the driver reads it as a kernel. *)
Definition t_unit_getitem (t : TranslationUnit) (func_id : CallableId)
  : Outcome LoopKernel :=
  match dict_get (tu_callables_table t) func_id with
  | Some (CallableKernel k) => Returned k
  | Some (ScalarCallable _) => Raised AttributeError
  | None => Raised KeyError
  end.

(** The unit-level result.  A host program is what the driver's result
    carried in [host_program], which may be [None]. *)
Record TranslationUnitCodeGenerationResult := mkTranslationUnitResult {
  host_programs : dict string (option GeneratedProgram);
  device_programs : list GeneratedProgram;
  host_preambles : list Preamble;
  device_preambles : list Preamble
}.

(** The collaborators of other modules: code emission proper, the checks,
    the upstream pipeline stages, the preamble generators, and the key
    builder of the persistent cache.  They run in the emission world. *)
Class Collaborators (X : Type) := {
  merge_codegen_results :
    CodeGenerationState -> list CodeGenerationResult ->
    M (Emission X) CodeGenerationResult;
  generate_host_or_device_program :
    CodeGenerationState -> nat -> M (Emission X) CodeGenerationResult;
  device_code_of : CodeGenerationResult -> M (Emission X) string;
  check_implemented_domains :
    LoopKernel -> dict string (list isl.Set_) -> string ->
    M (Emission X) bool;
  run_preamble_generator :
    PreambleGenerator -> PreambleInfo -> M (Emission X) (list Preamble);
  t_unit_state : TranslationUnit -> KernelState;
  preprocess_program : TranslationUnit -> M (Emission X) TranslationUnit;
  infer_unknown_types :
    TranslationUnit -> bool -> M (Emission X) TranslationUnit;
  linearize : TranslationUnit -> M (Emission X) TranslationUnit;
  pre_codegen_checks : TranslationUnit -> M (Emission X) unit;
  generate_preambles :
    InKernelCallable -> TargetBase -> M (Emission X) (list Preamble);
  key_builder : TranslationUnit -> string
}.

(** Rendering: [loopy.codegen.result.process_preambles] and the [str] of
    the target's AST library. *)
Class Rendering := {
  process_preambles : list Preamble -> list string;
  str_ast : AST -> string
}.

(** ** The vectorization engine *)

(** An emission function: what [try_vectorized] and [unvectorize] call. *)
Definition EmissionFunction (X : Type) : Type :=
  CodeGenerationState -> M (Emission X) Generated.

Section vectorization.
Context {X : Type} `{Collaborators X}.

(** [CodeGenerationState.unvectorize] *)
Definition unvectorize (self : CodeGenerationState) (func : EmissionFunction X)
  : M (Emission X) CodeGenerationResult :=
  vinf ← lift_outcome (not_none (vectorization_info self));
  let novec_self := copy_vectorization_info self None in
  result ← for_each (py_range (VectorizationInfo.length vinf))
    (fun result i =>
       let idx_aff := constant_aff i in
       new_codegen_state ←
         lift_outcome (fix_ novec_self (VectorizationInfo.iname vinf) idx_aff);
       generated ← func new_codegen_state;
       mret (match generated with
             | GenList rs => result ++ rs
             | GenNone => result
             | GenOne r => result ++ [r]
             end))
    [];
  merge_codegen_results self result.

(** [CodeGenerationState.try_vectorized] *)
Definition try_vectorized (self : CodeGenerationState) (what : string)
    (func : EmissionFunction X) : M (Emission X) Generated :=
  match vectorization_info self with
  | None => func self
  | Some _ => fun w =>
      match func self w with
      | (Raised (UnvectorizableError e), w') =>
          (warn (kernel self) "vectorize_failed"
             ("Vectorization of '" +:+ what +:+ "' failed because '"
              +:+ e +:+ "'");;
           r ← unvectorize self func;
           mret (GenOne r)) w'
      | other => other
      end
  end.

End vectorization.

(** ** The single-kernel driver *)

Definition scheduling_precondition_error : Exception :=
  LoopyError "cannot generate code for a kernel that has not been scheduled".

(** The precondition check that opens the driver. *)
Definition check_linearized (kernel : LoopKernel) : Outcome unit :=
  if bool_decide (knl_state kernel ≠ LINEARIZED)
  then Raised scheduling_precondition_error
  else Returned tt.

Section driver.
Context {X : Type} `{Collaborators X}.

(** The driver past its precondition check. *)
Definition generate_code_for_a_linearized_kernel (kernel : LoopKernel)
    (callables_table : CallablesTable) (target : TargetBase)
    (is_entrypoint : bool) : M (Emission X) CodeGenerationResult :=
  (* examine arg list *)
  dtypes ← lift_outcome
    (mapM (fun var => not_none (dtype var))
          (args kernel ++ dict_values (temporary_variables kernel)));
  let allow_complex := existsb involves_complex dtypes in
  seen_dtypes ← new_set (DtypeSet []);
  seen_functions ← new_set (FunctionSet []);
  seen_atomic_dtypes ← new_set (DtypeSet []);
  let initial_implemented_domain := isl.from_params (assumptions kernel) in
  schedule ← lift_outcome (not_none (linearization kernel));
  let codegen_state :=
    mkCodeGenerationState kernel target
      (isl.from_basic_set initial_implemented_domain) []
      seen_dtypes seen_functions seen_atomic_dtypes ∅ allow_complex
      callables_table is_entrypoint (get_var_name_generator kernel) false
      (host_program_name_prefix target +:+ knl_name kernel
       +:+ host_program_name_suffix (knl_target kernel))
      (List.length schedule) (from_kernel kernel) None in
  codegen_result ← generate_host_or_device_program codegen_state 0;
  device_code_str ← device_code_of codegen_result;
  ok ← check_implemented_domains kernel (implemented_domains codegen_result)
         device_code_str;
  lift_outcome (py_assert ok);;
  (* handle preambles *)
  for_each (omap dtype (args kernel))
    (fun _ d => set_add seen_dtypes d) tt;;
  for_each (omap dtype (dict_values (temporary_variables kernel)))
    (fun _ d => set_add seen_dtypes d) tt;;
  (if bool_decide (all_inames kernel ≠ [])
   then set_add seen_dtypes (index_dtype kernel) else mret tt);;
  let preambles := preambles kernel ++ cgr_device_preambles codegen_result in
  let preamble_info :=
    mkPreambleInfo kernel seen_dtypes seen_functions seen_atomic_dtypes
      codegen_state in
  builder ← lift_outcome (get_device_ast_builder target);
  preambles ← for_each
    (knl_preamble_generators kernel ++ preamble_generators builder)
    (fun preambles prea_gen =>
       more ← run_preamble_generator prea_gen preamble_info;
       mret (preambles ++ more))
    preambles;
  (* the lazily unpickling view of [implemented_domains] holds the same
     mapping *)
  mret (copy_device_preambles codegen_result preambles).

(** [generate_code_for_a_single_kernel] *)
Definition generate_code_for_a_single_kernel (kernel : LoopKernel)
    (callables_table : CallablesTable) (target : TargetBase)
    (is_entrypoint : bool) : M (Emission X) CodeGenerationResult :=
  lift_outcome (check_linearized kernel);;
  generate_code_for_a_linearized_kernel kernel callables_table target
    is_entrypoint.

End driver.

(** ** Entrypoint/callee divergence *)

(** Modelled from the spec: [get_reachable_resolved_callable_ids],
    [make_callable_name_generator] and
    [rename_resolved_functions_in_a_single_kernel] of
    [loopy.translation_unit] are not part of the sources.  The spec has
    the first compute the resolved callable ids reachable from the
    entrypoints (as callees), the second make fresh unique names, and the
    third rewrite the call-site references of a kernel body by the rename
    table.  A chain of calls needs to pass through a callable of the table
    at most once, so one round per callable and one more reach every id. *)
Definition callees_of (table : CallablesTable) (id : CallableId)
  : list CallableId :=
  match dict_get table id with
  | Some (CallableKernel k) => call_sites k
  | _ => []
  end.

Fixpoint reach (fuel : nat) (table : CallablesTable) (seen : list CallableId)
  : list CallableId :=
  match fuel with
  | O => seen
  | S fuel' =>
      reach fuel' table
        (list_union seen (remove_dups (mjoin (callees_of table <$> seen))))
  end.

Definition get_reachable_resolved_callable_ids (table : CallablesTable)
    (entrypoints : list CallableId) : list CallableId :=
  reach (S (List.length table)) table
    (remove_dups (mjoin (callees_of table <$> entrypoints))).

Definition make_callable_name_generator (table : CallablesTable)
  : UniqueNameGenerator :=
  mkUniqueNameGenerator (dict_keys table).

(** [vng(based_on=...)]: the first of [based_on], [based_on_0],
    [based_on_1], ... that is not taken; the generator remembers it. *)
Definition vng (g : UniqueNameGenerator) (based_on : string)
  : string * UniqueNameGenerator :=
  let candidates :=
    based_on ::
    ((fun i : nat => based_on +:+ "_" +:+ pretty i)
       <$> seq 0 (List.length (existing_names g))) in
  let fresh :=
    default based_on
      (head (filter (fun c => c ∉ existing_names g) candidates)) in
  (fresh, mkUniqueNameGenerator (fresh :: existing_names g)).

Definition renamed (todo_renames : dict CallableId string) (id : CallableId)
  : CallableId :=
  default id (dict_get todo_renames id).

Definition rename_resolved_functions_in_a_single_kernel (knl : LoopKernel)
    (todo_renames : dict CallableId string) : LoopKernel :=
  mkLoopKernel (knl_name knl) (knl_state knl) (knl_target knl) (args knl)
    (temporary_variables knl) (assumptions knl) (linearization knl)
    (preambles knl) (knl_preamble_generators knl) (all_inames knl)
    (index_dtype knl) (all_variable_names knl)
    (renamed todo_renames <$> call_sites knl).

(** [knl.copy(name=...)] *)
Definition copy_name (knl : LoopKernel) (name : string) : LoopKernel :=
  mkLoopKernel name (knl_state knl) (knl_target knl) (args knl)
    (temporary_variables knl) (assumptions knl) (linearization knl)
    (preambles knl) (knl_preamble_generators knl) (all_inames knl)
    (index_dtype knl) (all_variable_names knl) (call_sites knl).

(** The first loop of [diverge_callee_entrypoints]: one fresh name for
    every id that is reachable and an entrypoint. *)
Definition collect_renames (table : CallablesTable)
    (ids : list CallableId) : dict CallableId string :=
  fst (foldl (fun '(todo_renames, g) clbl_id =>
               let '(fresh, g') := vng g clbl_id in
               (dict_set todo_renames clbl_id fresh, g'))
             ([], make_callable_name_generator table) ids).

(** One round of the second loop: the callable moves to its (possibly
    new) name, and a kernel body has its call sites rewritten. *)
Definition rename_one (todo_renames : dict CallableId string)
    (new_callables : CallablesTable) (item : CallableId * InKernelCallable)
  : CallablesTable :=
  let '(name, clbl) := item in
  let name := renamed todo_renames name in
  let clbl :=
    match clbl with
    | CallableKernel subkernel =>
        let knl := rename_resolved_functions_in_a_single_kernel
                     subkernel todo_renames in
        CallableKernel (copy_name knl name)
    | other => other
    end in
  dict_set new_callables name clbl.

Definition rename_callables (table : CallablesTable)
    (todo_renames : dict CallableId string) : CallablesTable :=
  foldl (rename_one todo_renames) [] table.

(** [diverge_callee_entrypoints] *)
Definition diverge_callee_entrypoints (t_unit : TranslationUnit)
  : TranslationUnit :=
  let callable_ids :=
    get_reachable_resolved_callable_ids (tu_callables_table t_unit)
      (entrypoints t_unit) in
  let todo_renames :=
    collect_renames (tu_callables_table t_unit)
      (filter (fun id => id ∈ entrypoints t_unit) callable_ids) in
  copy_callables_table t_unit
    (rename_callables (tu_callables_table t_unit) todo_renames).

(** ** The unit-level result and its rendering *)

Section rendering.
Context `{Rendering}.

(** [str(dp.ast) for dp in ...] *)
Definition program_texts (ps : list GeneratedProgram) : list string :=
  (fun p => str_ast (ast p)) <$> ps.

(** [str(hp.ast) for hp in self.host_programs.values()]: a host program
    that is [None] has no [ast]. *)
Definition host_program_texts (r : TranslationUnitCodeGenerationResult)
  : Outcome (list string) :=
  mapM (fun hp : option GeneratedProgram =>
          match hp with
          | Some p => Returned (str_ast (ast p))
          | None => Raised AttributeError
          end)
       (dict_values (host_programs r)).

(** The preamble codes, joined without a separator. *)
Definition preamble_text (ps : list Preamble) : string :=
  join EmptyString (process_preambles ps).

Definition host_code (self : TranslationUnitCodeGenerationResult)
  : Outcome string :=
  let preamble_codes := preamble_text (host_preambles self) in
  hosts ← host_program_texts self;
  Returned (preamble_codes +:+ newline +:+ join blank_line hosts).

Definition device_code (self : TranslationUnitCodeGenerationResult)
  : Outcome string :=
  let preamble_codes := preamble_text (device_preambles self) in
  Returned (preamble_codes +:+ newline
            +:+ join blank_line (program_texts (device_programs self))).

Definition all_code (self : TranslationUnitCodeGenerationResult)
  : Outcome string :=
  let preamble_codes :=
    preamble_text (host_preambles self ++ device_preambles self) in
  let devices := join blank_line (program_texts (device_programs self)) in
  hosts ← host_program_texts self;
  Returned (preamble_codes +:+ newline +:+ devices +:+ blank_line
            +:+ join blank_line hosts).

End rendering.

(** ** The translation-unit orchestrator *)

(** Python compares [str] by code point. *)
Definition string_le (a b : string) : Prop := String.leb a b = true.

#[global] Instance string_le_dec (a b : string) : Decision (string_le a b).
Proof. unfold string_le. apply _. Defined.

(** [sorted(key for key, val in table.items()
            if isinstance(val, CallableKernel))] *)
Definition sorted_kernel_ids (table : CallablesTable) : list CallableId :=
  merge_sort string_le
    (dict_keys (filter (fun kv => is_CallableKernel kv.2 = true) table)).

(** The world of the orchestrator: the two switches of the [loopy]
    package, the persistent cache of this module, and the emission world. *)
Record World (X : Type) := mkWorld {
  CACHING_ENABLED : bool;
  ABORT_ON_CACHE_MISS : bool;
  code_gen_cache : gmap string TranslationUnitCodeGenerationResult;
  emission : Emission X
}.
Arguments mkWorld {X} _ _ _ _.
Arguments CACHING_ENABLED {X} _.
Arguments ABORT_ON_CACHE_MISS {X} _.
Arguments code_gen_cache {X} _.
Arguments emission {X} _.

(** A computation of the emission world, run inside the orchestrator's. *)
Definition in_emission {X A} (m : M (Emission X) A) : M (World X) A :=
  fun w =>
    let '(o, e) := m (emission w) in
    (o, mkWorld (CACHING_ENABLED w) (ABORT_ON_CACHE_MISS w)
                (code_gen_cache w) e).

(** [WriteOncePersistentDict.store_if_not_present] *)
Definition store_if_not_present {X} (key : string)
    (value : TranslationUnitCodeGenerationResult) : M (World X) unit :=
  modify (fun w =>
    mkWorld (CACHING_ENABLED w) (ABORT_ON_CACHE_MISS w)
      (match code_gen_cache w !! key with
       | Some _ => code_gen_cache w
       | None => <[key := value]> (code_gen_cache w)
       end)
      (emission w)).

(** The accumulators of the collection loop. *)
Record Collected := mkCollected {
  col_host_programs : dict string (option GeneratedProgram);
  col_device_programs : list GeneratedProgram;
  col_device_preambles : list Preamble;
  callee_fdecls : list AST
}.

Section orchestrator.
Context {X : Type} `{Collaborators X}.

(** The cache retrieval that opens [generate_code_v2]: the cached result
    on a hit; on a miss nothing, or [KeyError] where a miss is to abort. *)
Definition cache_retrieval (t_unit : TranslationUnit)
  : M (World X) (option TranslationUnitCodeGenerationResult) :=
  fun w =>
    if CACHING_ENABLED w then
      match code_gen_cache w !! key_builder t_unit with
      | Some result => (Returned (Some result), w)
      | None =>
          if ABORT_ON_CACHE_MISS w then (Raised KeyError, w)
          else (Returned None, w)
      end
    else (Returned None, w).

(** The stages before code generation: preprocessing, type inference,
    linearization, divergence, the pre-codegen checks. *)
Definition prepare (t_unit : TranslationUnit)
  : M (Emission X) TranslationUnit :=
  t_unit ← (if KernelState_ltb (t_unit_state t_unit) PREPROCESSED
            then preprocess_program t_unit else mret t_unit);
  t_unit ← infer_unknown_types t_unit true;
  t_unit ← (if KernelState_ltb (t_unit_state t_unit) LINEARIZED
            then linearize t_unit else mret t_unit);
  let t_unit := diverge_callee_entrypoints t_unit in
  pre_codegen_checks t_unit;;
  mret t_unit.

(** One round of the loop that collects host and device programs. *)
Definition collect_one (t_unit : TranslationUnit) (acc : Collected)
    (func_id : CallableId) : M (Emission X) Collected :=
  knl ← lift_outcome (t_unit_getitem t_unit func_id);
  cgr ← generate_code_for_a_single_kernel knl (tu_callables_table t_unit)
          (tu_target t_unit) (bool_decide (func_id ∈ entrypoints t_unit));
  '(host_programs, callee_fdecls) ←
    (if bool_decide (func_id ∈ entrypoints t_unit)
     then mret (dict_set (col_host_programs acc) func_id (host_program cgr),
                callee_fdecls acc)
     else
       lift_outcome
         (py_assert (bool_decide (List.length (cgr_device_programs cgr) = 1%nat)));;
       decl ← lift_outcome
         (match cgr_device_programs cgr with
          | dp :: _ => fdecl (ast dp)
          | [] => Raised IndexError
          end);
       mret (col_host_programs acc, callee_fdecls acc ++ [decl]));
  mret (mkCollected host_programs
          (col_device_programs acc ++ cgr_device_programs cgr)
          (col_device_preambles acc ++ cgr_device_preambles cgr)
          callee_fdecls).

Definition collect_programs (t_unit : TranslationUnit)
  : M (Emission X) Collected :=
  for_each (sorted_kernel_ids (tu_callables_table t_unit))
    (collect_one t_unit) (mkCollected [] [] [] []).

(** The loop that collects the callables' own preambles. *)
Definition collect_callable_preambles (t_unit : TranslationUnit)
    (device_preambles : list Preamble) : M (Emission X) (list Preamble) :=
  for_each (dict_values (tu_callables_table t_unit))
    (fun device_preambles clbl =>
       more ← generate_preambles clbl (tu_target t_unit);
       mret (device_preambles ++ more))
    device_preambles.

(** Code generation for a prepared unit, up to the assembled result. *)
Definition assemble (t_unit : TranslationUnit)
  : M (Emission X) TranslationUnitCodeGenerationResult :=
  collected ← collect_programs t_unit;
  device_preambles ←
    collect_callable_preambles t_unit (col_device_preambles collected);
  (* adding the callee fdecls to the device_programs *)
  device_programs ←
    match col_device_programs collected with
    | [] => raise IndexError
    | first :: rest =>
        lift_outcome (get_device_ast_builder (tu_target t_unit));;
        mret (copy_ast first (Collection (callee_fdecls collected ++ [ast first]))
              :: rest)
    end;
  mret (mkTranslationUnitResult (col_host_programs collected)
          device_programs [] device_preambles).

(** [generate_code_v2].  The two switches are read once, when the call
    begins.  A bare kernel as input, which the function still wraps into a
    unit, is outside the declared parameter type and left out. *)
Definition generate_code_v2 (t_unit : TranslationUnit)
  : M (World X) TranslationUnitCodeGenerationResult :=
  fun w =>
    let caching_enabled := CACHING_ENABLED w in
    let input_t_unit := t_unit in
    (hit ← cache_retrieval input_t_unit;
     match hit with
     | Some result => mret result
     | None =>
         cgr ← in_emission (t_unit ← prepare t_unit; assemble t_unit);
         (if caching_enabled
          then store_if_not_present (key_builder input_t_unit) cgr
          else mret tt);;
         mret cgr
     end) w.

End orchestrator.

(** ** Definitions used to state the properties *)

(** The constraint that [fix] adds for a constant: over a space with [m]
    parameters whose dimension number [n] is the pinned one, the form
    [c - x_n]. *)
Definition pin_constraint (sp : isl.Space) (n : nat) (c : Z) : isl.Constraint :=
  isl.mkConstraint true
    (isl.mkAff sp c (replicate (List.length (isl.space_params sp)) 0)
               (replicate n 0 ++ [-1])).


(** A loop that runs to its end: every round returns, each one started in
    the world and with the accumulator that the round before left. *)
Inductive for_each_run {W A S} (body : S -> A -> M W S)
  : list A -> S -> W -> S -> W -> Prop :=
| for_each_run_nil acc w : for_each_run body [] acc w acc w
| for_each_run_cons x xs acc w acc1 w1 acc' w' :
    body acc x w = (Returned acc1, w1) ->
    for_each_run body xs acc1 w1 acc' w' ->
    for_each_run body (x :: xs) acc w acc' w'.

(** [calls func sts w gs w']: starting in [w], [func] is called once on
    each state of [sts], in order, each call in the world the call before
    left; the calls return [gs] and leave [w']. *)
Inductive calls {X} (func : EmissionFunction X)
  : list CodeGenerationState -> Emission X -> list Generated -> Emission X
    -> Prop :=
| calls_nil w : calls func [] w [] w
| calls_cons st sts w g w1 gs w' :
    func st w = (Returned g, w1) ->
    calls func sts w1 gs w' ->
    calls func (st :: sts) w (g :: gs) w'.

(** The results that one call contributes to the unrolled code. *)
Definition fragments (g : Generated) : list CodeGenerationResult :=
  match g with
  | GenNone => []
  | GenOne r => [r]
  | GenList rs => rs
  end.

(** The state that lane [i] of the unrolled loop is generated in. *)
Definition lane_state (self : CodeGenerationState)
    (vinf : VectorizationInfo.t) (i : Z) : Outcome CodeGenerationState :=
  fix_ (copy_vectorization_info self None) (VectorizationInfo.iname vinf)
       (constant_aff i).

(** The warning that [try_vectorized] gives on a failed attempt. *)
Definition vectorize_failed (self : CodeGenerationState) (what e : string)
  : Warning :=
  mkWarning (knl_name (kernel self)) "vectorize_failed"
    ("Vectorization of '" +:+ what +:+ "' failed because '" +:+ e +:+ "'").

(** *** A small backend for the examples

    Its collaborators count their calls; code emission gives every kernel
    one device program, and a host program to an entrypoint. *)
Definition tick {A} (a : A) : M (Emission nat) A :=
  fun w => (Returned a,
            mkEmission (warnings w) (heap w) (S (collaborator_state w))).

Definition example_program (device : bool) (name : string) : GeneratedProgram :=
  mkGeneratedProgram name device
    (FunctionBody ("void " +:+ name +:+ "()") "{ }").

Definition example_collaborators : Collaborators nat := {|
  merge_codegen_results := fun _ rs =>
    tick (mkCodeGenerationResult None (mjoin (cgr_device_programs <$> rs)) []
            [] (mjoin (cgr_device_preambles <$> rs)));
  generate_host_or_device_program := fun st _ =>
    tick (mkCodeGenerationResult
            (if is_entrypoint st
             then Some (example_program false (gen_program_name st))
             else None)
            [example_program true (knl_name (kernel st))] [] [] []);
  device_code_of := fun _ => tick EmptyString;
  check_implemented_domains := fun _ _ _ => tick true;
  run_preamble_generator := fun g _ => tick [(0, g)];
  t_unit_state := fun _ => INITIAL;
  preprocess_program := fun t => tick t;
  infer_unknown_types := fun t _ => tick t;
  linearize := fun t => tick t;
  pre_codegen_checks := fun _ => tick tt;
  generate_preambles := fun _ _ => tick [];
  key_builder := fun t => join "," (dict_keys (tu_callables_table t))
|}.

Definition example_target : TargetBase :=
  mkTarget "example" EmptyString "_outer" EmptyString EmptyString
    (Some (mkASTBuilder "host" [])) (Some (mkASTBuilder "device" [])).

Definition example_kernel (name : string) (calls : list CallableId)
  : LoopKernel :=
  mkLoopKernel name LINEARIZED example_target [] []
    (isl.mkBasicSet (isl.mkSpace [Some "n"] []) []) (Some []) [] [] ["i"]
    (mkLoopyType "int32" false) [] calls.

Definition example_state (vinf : option VectorizationInfo.t)
  : CodeGenerationState :=
  mkCodeGenerationState (example_kernel "knl" []) example_target
    (isl.mkSet (isl.mkSpace [Some "n"] [Some "i"]) [[]]) []
    0%nat 1%nat 2%nat ∅ false [] true (mkUniqueNameGenerator []) true
    "knl" 0%nat (from_kernel (example_kernel "knl" [])) vinf.

Definition empty_emission : Emission nat := mkEmission [] [] 0%nat.

(** An emission function that no target can vectorize or unroll. *)
Definition never_vectorizable : EmissionFunction nat :=
  fun _ => raise (UnvectorizableError "no vector form").

(** An emission function that fails in a vectorizing state only. *)
Definition scalar_only : EmissionFunction nat :=
  fun st =>
    match vectorization_info st with
    | Some _ => raise (UnvectorizableError "no vector form")
    | None =>
        tick (GenOne (mkCodeGenerationResult None
                        [example_program true (gen_program_name st)] [] [] []))
    end.

(** The world after [try_vectorized] has given its warning. *)
Definition warned {X} (self : CodeGenerationState) (what e : string)
    (w : Emission X) : Emission X :=
  mkEmission (warnings w ++ [vectorize_failed self what e]) (heap w)
             (collaborator_state w).

Definition two_lanes : VectorizationInfo.t := VectorizationInfo.mk "i" 2.
Definition four_lanes : VectorizationInfo.t := VectorizationInfo.mk "i" 4.

(** [m] never raises [e]. *)
Definition never_raises {W A} (e : Exception) (m : M W A) : Prop :=
  forall w o w', m w = (o, w') -> o <> Raised e.

(** The collaborators that the driver calls never raise [e]. *)
Definition driver_collaborators_never_raise {X} `{Collaborators X}
    (e : Exception) : Prop :=
  (forall st n, never_raises e (generate_host_or_device_program st n)) /\
  (forall r, never_raises e (device_code_of r)) /\
  (forall k d s, never_raises e (check_implemented_domains k d s)) /\
  (forall g i, never_raises e (run_preamble_generator g i)).

(** A state whose kernel was built for one target and that is itself set
    to another. *)
Definition opencl_target : TargetBase :=
  mkTarget "opencl" EmptyString "_outer" EmptyString EmptyString
    (Some (mkASTBuilder "python host" []))
    (Some (mkASTBuilder "opencl device" [])).

Definition two_target_state : CodeGenerationState :=
  mkCodeGenerationState (example_kernel "knl" []) opencl_target
    (isl.mkSet (isl.mkSpace [Some "n"] []) [[]]) []
    0%nat 1%nat 2%nat ∅ false [] true (mkUniqueNameGenerator []) true
    "knl" 0%nat (from_kernel (example_kernel "knl" [])) None.

(** [self.copy(target=...)] *)
Definition copy_target (self : CodeGenerationState) (t : TargetBase)
  : CodeGenerationState :=
  mkCodeGenerationState (kernel self) t (implemented_domain self)
    (implemented_predicates self) (seen_dtypes self) (seen_functions self)
    (seen_atomic_dtypes self) (var_subst_map self) (allow_complex self)
    (callables_table self) (is_entrypoint self) (var_name_generator self)
    (is_generating_device_code self) (gen_program_name self)
    (schedule_index_end self) (codegen_cache_manager self)
    (vectorization_info self).

(** Two entrypoints, the second of which calls the first. *)
Definition entrypoint_called_unit : TranslationUnit :=
  mkTranslationUnit example_target ["f"; "g"]
    [("f", CallableKernel (example_kernel "f" []));
     ("g", CallableKernel (example_kernel "g" ["f"]))].

(** A kernel that was preprocessed and not yet scheduled. *)
Definition unscheduled_kernel : LoopKernel :=
  mkLoopKernel "knl" PREPROCESSED example_target [] []
    (isl.mkBasicSet (isl.mkSpace [Some "n"] []) []) None [] [] ["i"]
    (mkLoopyType "int32" false) [] [].

(** A rendering for the examples: a preamble is rendered as its text, a
    function as its declaration and body, a collection line by line. *)
Fixpoint example_str_ast (a : AST) : string :=
  match a with
  | Node text => text
  | FunctionBody declaration body => declaration +:+ " " +:+ body
  | Collection contents => join newline (example_str_ast <$> contents)
  end.

Definition example_rendering : Rendering := {|
  process_preambles := fun ps => (fun p : Preamble => p.2 +:+ newline) <$> ps;
  str_ast := example_str_ast
|}.

Definition example_result : TranslationUnitCodeGenerationResult :=
  mkTranslationUnitResult
    [("knl", Some (example_program false "knl_outer"))]
    [example_program true "knl"; example_program true "knl_0"]
    [(0, "#include <host.h>")] [(0, "#define lid(N) 0")].

(** The world with an empty cache and caching switched on. *)
Definition fresh_world : World nat := mkWorld true false ∅ empty_emission.

(** One entrypoint kernel, and a unit without any kernel. *)
Definition single_kernel_unit : TranslationUnit :=
  mkTranslationUnit example_target ["knl"]
    [("knl", CallableKernel (example_kernel "knl" []))].

Definition kernelless_unit : TranslationUnit :=
  mkTranslationUnit example_target [] [("sin", ScalarCallable "sin")].

(** Three callee kernels, inserted in the order [b], [a], [c], and one
    entrypoint that calls them. *)
Definition callee_entries : list (CallableId * InKernelCallable) :=
  [("b", CallableKernel (example_kernel "b" []));
   ("a", CallableKernel (example_kernel "a" []));
   ("c", CallableKernel (example_kernel "c" []))].

Definition three_callee_unit (table : CallablesTable) : TranslationUnit :=
  mkTranslationUnit example_target ["main"] table.

(** A set whose constraints speak of its own set dimensions only. *)
Definition constraints_in_space (s : isl.Set_) : Prop :=
  Forall (Forall (fun c =>
            (List.length (isl.aff_in_coeffs (isl.constraint_aff c))
             <= isl.dim s isl.set)%nat))
         (isl.disjuncts s).

(** The point [p] with one more coordinate [v]. *)
Definition extend_point (p : isl.Point) (v : Z) : isl.Point :=
  isl.mkPoint (isl.point_params p) (isl.point_set p ++ [v]).

(** ** The rest of the module *)

(** [CodeGenerationState.copy_and_assign_many]: the substitution map is
    updated with the assignments, a later one for a name replacing an
    earlier one. *)
Definition copy_and_assign_many (self : CodeGenerationState)
    (assignments : dict string Expression) : CodeGenerationState :=
  copy_var_subst_map self
    (foldl (fun m '(name, value) => <[name := value]> m)
           (var_subst_map self) assignments).

(** A warning of Python's [warnings] module. *)
Record PyWarning := mkPyWarning {
  category : string;
  message : string
}.

(** The world of the deprecated entry points: the orchestrator's world
    and the Python warnings given so far. *)
Definition in_world {X A} (m : M (World X) A) : M (World X * list PyWarning) A :=
  fun s =>
    let '(o, w) := m s.1 in (o, (w, s.2)).

Definition warnings_warn {X} (message category : string)
  : M (World X * list PyWarning) unit :=
  modify (fun s => (s.1, s.2 ++ [mkPyWarning category message])).

(** [str(dev_prg.body_ast)]: the body of a program, rendered. *)
Class BodyRendering := {
  str_body_ast : GeneratedProgram -> string
}.

Section deprecated_entry_points.
Context {X : Type} `{Collaborators X} `{Rendering} `{BodyRendering}.

(** [generate_code]; the second component of its result is [None]. *)
Definition generate_code (kernel : TranslationUnit) (device : option string)
  : M (World X * list PyWarning) (string * option string) :=
  (if bool_decide (device ≠ None)
   then warnings_warn "passing 'device' to generate_code() is deprecated"
          "DeprecationWarning"
   else mret tt);;
  (if bool_decide (device ≠ None)
   then warnings_warn
          ("generate_code is deprecated and will stop working in 2023. "
           +:+ "Call generate_code_v2 instead.")
          "DeprecationWarning"
   else mret tt);;
  codegen_result ← in_world (generate_code_v2 kernel);
  if bool_decide (1 < List.length (device_programs codegen_result))%nat
  then raise (LoopyError
                ("kernel passed to generate_code yielded multiple "
                 +:+ "device programs. Use generate_code_v2."))
  else if bool_decide (1 < List.length (host_programs codegen_result))%nat
  then raise (LoopyError
                ("kernel passed to generate_code yielded multiple "
                 +:+ "host programs. Use generate_code_v2."))
  else
    code ← lift_outcome (device_code codegen_result);
    mret (code, None).

(** [generate_body] *)
Definition generate_body (kernel : TranslationUnit) : M (World X) string :=
  codegen_result ← generate_code_v2 kernel;
  match device_programs codegen_result with
  | [dev_prg] => mret (str_body_ast dev_prg)
  | _ =>
      raise (LoopyError
               ("generate_body cannot be used on programs "
                +:+ "that yield more than one device program"))
  end.

End deprecated_entry_points.

(** *** Definitions used to state further properties *)

(** The callable of one table entry after divergence: a kernel has its
    call sites rewritten and takes the name it is stored under. *)
Definition renamed_entry (todo_renames : dict CallableId string)
    (item : CallableId * InKernelCallable) : CallableId * InKernelCallable :=
  (renamed todo_renames item.1,
   match item.2 with
   | CallableKernel subkernel =>
       CallableKernel
         (copy_name (rename_resolved_functions_in_a_single_kernel
                       subkernel todo_renames)
                    (renamed todo_renames item.1))
   | other => other
   end).

(** [h'] has every collector set of [h], each with at least the members
    it had. *)
Definition heap_grows (h h' : list PyObject) : Prop :=
  forall a s, h !! a = Some (DtypeSet s) ->
              exists s', h' !! a = Some (DtypeSet s') /\ s ⊆ s'.

(** A collaborator call that only ever adds to the collector sets. *)
Definition only_collects {X A} (m : M (Emission X) A) : Prop :=
  forall w o w', m w = (o, w') -> heap_grows (heap w) (heap w').

Definition collaborators_only_collect {X} `{Collaborators X} : Prop :=
  (forall st n, only_collects (generate_host_or_device_program st n)) /\
  (forall r, only_collects (device_code_of r)) /\
  (forall k d s, only_collects (check_implemented_domains k d s)) /\
  (forall g i, only_collects (run_preamble_generator g i)).

(** The data types that a kernel declares. *)
Definition declared_dtypes (kernel : LoopKernel) : list LoopyType :=
  omap dtype (args kernel)
  ++ omap dtype (dict_values (temporary_variables kernel))
  ++ (if bool_decide (all_inames kernel ≠ []) then [index_dtype kernel]
      else []).

(** Examples. *)
Definition complex_kernel : LoopKernel :=
  mkLoopKernel "knl" LINEARIZED example_target
    [mkKernelVariable "x" (Some (mkLoopyType "complex128" true))]
    [("tmp", mkKernelVariable "tmp" (Some (mkLoopyType "float64" false)))]
    (isl.mkBasicSet (isl.mkSpace [Some "n"] []) []) (Some []) [(0, "// knl")]
    ["gen"] ["i"] (mkLoopyType "int32" false) [] [].

Definition untyped_kernel : LoopKernel :=
  mkLoopKernel "knl" LINEARIZED example_target
    [mkKernelVariable "x" None] []
    (isl.mkBasicSet (isl.mkSpace [Some "n"] []) []) (Some []) [] [] ["i"]
    (mkLoopyType "int32" false) [] [].

Definition example_body_rendering : BodyRendering := {|
  str_body_ast := fun p =>
    match ast p with
    | FunctionBody _ body => body
    | other => example_str_ast other
    end
|}.

Definition two_kernel_unit : TranslationUnit :=
  mkTranslationUnit example_target ["main"]
    [("main", CallableKernel (example_kernel "main" ["helper"]));
     ("helper", CallableKernel (example_kernel "helper" []))].

(** The coordinate of a point that a dimension of a space names. *)
Definition coordinate (p : isl.Point) (dt : isl.dim_type) (pos : nat)
  : option Z :=
  match dt with
  | isl.param => isl.point_params p !! pos
  | isl.set => isl.point_set p !! pos
  end.

(** An emission function that cannot generate lane 2. *)
Definition fails_on_lane_two : EmissionFunction nat :=
  fun st =>
    match var_subst_map st !! "i" with
    | Some (Constant 2) => raise (OtherException "lane 2")
    | _ => scalar_only st
    end.

(** A table entry whose kernel, if it is one, carries the name it is
    stored under. *)
Definition named_by_key (item : CallableId * InKernelCallable) : Prop :=
  match item.2 with
  | CallableKernel subkernel => knl_name subkernel = item.1
  | _ => True
  end.

(** The entry with its kernel named after its key. *)
Definition name_by_key (item : CallableId * InKernelCallable)
  : CallableId * InKernelCallable :=
  (item.1,
   match item.2 with
   | CallableKernel subkernel => CallableKernel (copy_name subkernel item.1)
   | other => other
   end).

(** The rename table that [diverge_callee_entrypoints] works with. *)
Definition todo_renames_of (t_unit : TranslationUnit)
  : dict CallableId string :=
  collect_renames (tu_callables_table t_unit)
    (filter (fun id => id ∈ entrypoints t_unit)
       (get_reachable_resolved_callable_ids (tu_callables_table t_unit)
          (entrypoints t_unit))).

(** What the collection loop knows of the result [cgr] that it took for
    the callable [func_id]: the driver returned it for that callable, told
    whether the callable is an entrypoint. *)
Definition result_of {X} `{Collaborators X} (t_unit : TranslationUnit)
    (func_id : CallableId) (cgr : CodeGenerationResult) : Prop :=
  exists knl w1 w2,
    t_unit_getitem t_unit func_id = Returned knl /\
    generate_code_for_a_single_kernel knl (tu_callables_table t_unit)
      (tu_target t_unit) (bool_decide (func_id ∈ entrypoints t_unit)) w1
    = (Returned cgr, w2).

(** The host programs of the entrypoints among [ids], each with the
    result it comes from. *)
Definition host_programs_of (t_unit : TranslationUnit)
    (ids : list CallableId) (results : list CodeGenerationResult)
  : dict string (option GeneratedProgram) :=
  omap (fun '(id, cgr) =>
          if bool_decide (id ∈ entrypoints t_unit)
          then Some (id, host_program cgr) else None)
       (zip ids results).

(** The variables whose types the driver looks at. *)
Definition kernel_variables (kernel : LoopKernel) : list KernelVariable :=
  args kernel ++ dict_values (temporary_variables kernel).

(** The warnings that [generate_code] gives: both only when a [device]
    is passed. *)
Definition deprecation_warnings (device : option string) : list PyWarning :=
  match device with
  | Some _ =>
      [mkPyWarning "DeprecationWarning"
         "passing 'device' to generate_code() is deprecated";
       mkPyWarning "DeprecationWarning"
         ("generate_code is deprecated and will stop working in 2023. "
          +:+ "Call generate_code_v2 instead.")]
  | None => []
  end.

Definition multiple_device_programs : Exception :=
  LoopyError ("kernel passed to generate_code yielded multiple "
              +:+ "device programs. Use generate_code_v2.").

Definition multiple_host_programs : Exception :=
  LoopyError ("kernel passed to generate_code yielded multiple "
              +:+ "host programs. Use generate_code_v2.").

Definition not_one_device_program : Exception :=
  LoopyError ("generate_body cannot be used on programs "
              +:+ "that yield more than one device program").

(** A world whose cache holds a result with two device programs for the
    single-kernel unit. *)
Definition two_device_result : TranslationUnitCodeGenerationResult :=
  mkTranslationUnitResult
    [("knl", Some (example_program false "knl_outer"))]
    [example_program true "knl"; example_program true "knl_0"] [] [].

Definition primed_world : World nat :=
  mkWorld true false
    (<[@key_builder nat example_collaborators single_kernel_unit
       := two_device_result]> ∅)
    empty_emission.

(** ** Preamble processing *)

Module result.

(** Modelled from the spec: [loopy.codegen.result.process_preambles] is
    not part of the sources.  The spec has preambles as
    [(priority, text)] pairs, and the rendering deduplicate them by text,
    by literal equality of the texts, and order them by priority, then
    discovery order.  [first_by_text] keeps, of the pairs with one text,
    the one discovered first; [by_priority] orders by priority and leaves
    pairs of equal priority in the order they come in.  How the text of
    one preamble is laid out is not said: [layout]. *)
Fixpoint first_by_text (seen : list string) (ps : list Preamble)
  : list Preamble :=
  match ps with
  | [] => []
  | p :: ps' =>
      if decide (p.2 ∈ seen) then first_by_text seen ps'
      else p :: first_by_text (p.2 :: seen) ps'
  end.

Fixpoint insert_by_priority (p : Preamble) (ordered : list Preamble)
  : list Preamble :=
  match ordered with
  | [] => [p]
  | q :: ordered' =>
      if decide (p.1 <= q.1) then p :: q :: ordered'
      else q :: insert_by_priority p ordered'
  end.

Definition by_priority (ps : list Preamble) : list Preamble :=
  foldr insert_by_priority [] ps.

(** The preambles that are rendered, in the order of the rendering. *)
Definition selected (ps : list Preamble) : list Preamble :=
  by_priority (first_by_text [] ps).

Definition process_preambles (layout : string -> string)
    (ps : list Preamble) : list string :=
  (fun p : Preamble => layout p.2) <$> selected ps.

End result.

(** The rendering with the preamble processing of the spec. *)
Definition rendering_of (layout : string -> string) (str : AST -> string)
  : Rendering := {|
  process_preambles := result.process_preambles layout;
  str_ast := str
|}.

(** A preamble ends its line. *)
Definition one_line (text : string) : string := text +:+ newline.

(** A result whose preambles repeat and come out of order. *)
Definition preambled_result : TranslationUnitCodeGenerationResult :=
  mkTranslationUnitResult
    [("knl", Some (mkGeneratedProgram "knl_outer" false
                     (Node "void knl_outer() { }")))]
    [mkGeneratedProgram "knl" true (Node "void knl() { }");
     mkGeneratedProgram "knl_0" true (Node "void knl_0() { }")]
    [(5, "#include <host.h>"); (0, "#define lid(N) 0")]
    [(0, "#define lid(N) 0"); (5, "#include <host.h>");
     (3, "typedef int idx_t;")].

(** ** Calls in turn *)

(** [called_in_turn f xs w ys w']: starting in [w], [f] is called once on
    each element of [xs], in order, each call in the world that the call
    before left; the calls return [ys] and leave [w']. *)
Inductive called_in_turn {W A B} (f : A -> M W B)
  : list A -> W -> list B -> W -> Prop :=
| called_in_turn_nil w : called_in_turn f [] w [] w
| called_in_turn_cons x xs w y w1 ys w' :
    f x w = (Returned y, w1) ->
    called_in_turn f xs w1 ys w' ->
    called_in_turn f (x :: xs) w (y :: ys) w'.

(** [driver_calls t_unit ids w cgrs w']: starting in [w], the
    single-kernel driver is called once for each id of [ids], in order, on
    the kernel [t_unit\[func_id\]], the callables table and the target of
    the unit, told whether the id is an entrypoint, each call in the world
    that the call before left; the calls return [cgrs] and leave [w']. *)
Inductive driver_calls {X} `{Collaborators X} (t_unit : TranslationUnit)
  : list CallableId -> Emission X -> list CodeGenerationResult -> Emission X
    -> Prop :=
| driver_calls_nil w : driver_calls t_unit [] w [] w
| driver_calls_cons func_id ids w knl cgr w1 cgrs w' :
    t_unit_getitem t_unit func_id = Returned knl ->
    generate_code_for_a_single_kernel knl (tu_callables_table t_unit)
      (tu_target t_unit) (bool_decide (func_id ∈ entrypoints t_unit)) w
    = (Returned cgr, w1) ->
    driver_calls t_unit ids w1 cgrs w' ->
    driver_calls t_unit (func_id :: ids) w (cgr :: cgrs) w'.

(** The results for the ids that are not entrypoints. *)
Definition callee_results (t_unit : TranslationUnit)
    (ids : list CallableId) (cgrs : list CodeGenerationResult)
  : list CodeGenerationResult :=
  snd <$> filter (fun p : CallableId * CodeGenerationResult =>
                    p.1 ∉ entrypoints t_unit) (zip ids cgrs).

(** The result has exactly one device program, whose forward declaration
    [decl] is. *)
Definition one_fdecl (cgr : CodeGenerationResult) (decl : AST) : Prop :=
  exists dp, cgr_device_programs cgr = [dp] /\ fdecl (ast dp) = Returned decl.

(** The collector set at [a] after the types [ds] were added to it. *)
Definition add_members (a : address) (ds : list LoopyType)
    (h : list PyObject) : list PyObject :=
  foldl (fun h d => alter (add_member d) a h) h ds.

(** The three callees [b], [a], [c] with the entrypoint that calls them. *)
Definition main_and_callees (callees : CallablesTable) : TranslationUnit :=
  mkTranslationUnit example_target ["main"]
    (("main", CallableKernel (example_kernel "main" ["b"; "a"; "c"]))
     :: callees).

(** The call is neither answered from the cache nor aborted on a miss, so
    that it goes through the stages of code generation. *)
Definition runs_the_stages {X} `{Collaborators X} (t_unit : TranslationUnit)
    (w : World X) : Prop :=
  CACHING_ENABLED w = false \/
  (code_gen_cache w !! key_builder t_unit = None /\
   ABORT_ON_CACHE_MISS w = false).

(** * Properties *)

(** ** The constraint-set facade *)

Lemma index_of_None {A} `{EqDecision A} (x : A) (l : list A) :
  isl.index_of x l = None <-> x ∉ l.
Proof.
  induction l as [|y l IH]; simpl.
  - split; [intros _; apply not_elem_of_nil | done].
  - rewrite not_elem_of_cons. destruct (decide (x = y)) as [->|Hne].
    + split; [done | intros [? _]; done].
    + rewrite fmap_None, IH. tauto.
Qed.

Lemma index_of_snoc {A} `{EqDecision A} (x : A) (l : list A) :
  x ∉ l -> isl.index_of x (l ++ [x]) = Some (List.length l).
Proof.
  induction l as [|y l IH]; simpl; intros Hx.
  - by rewrite decide_True.
  - apply not_elem_of_cons in Hx as [Hne Hx].
    rewrite decide_False by done. by rewrite IH.
Qed.

Lemma var_dict_lookup_None (sp : isl.Space) (k : string) :
  isl.var_dict_lookup sp k = None <->
  (Some k ∉ isl.space_params sp) /\ (Some k ∉ isl.space_set sp).
Proof.
  unfold isl.var_dict_lookup. rewrite <- !index_of_None.
  destruct (isl.index_of (Some k) (isl.space_params sp)),
           (isl.index_of (Some k) (isl.space_set sp)); intuition congruence.
Qed.

Lemma has_name_false (sp : isl.Space) (k : string) :
  isl.var_dict_lookup sp k = None -> isl.has_name sp k = false.
Proof.
  intros H. unfold isl.has_name. rewrite H.
  apply bool_decide_eq_false. by intros [? ?].
Qed.

(** Naming the dimension that [add_dims] appended. *)
Lemma set_dim_name_add_dims (s : isl.Set_) (k : string) :
  isl.set_dim_name (isl.add_dims s isl.set 1) isl.set (isl.dim s isl.set) k
  = isl.mkSet (isl.mkSpace (isl.space_params (isl.get_space s))
                           (isl.space_set (isl.get_space s) ++ [Some k]))
              (isl.disjuncts s).
Proof.
  unfold isl.set_dim_name, isl.add_dims, isl.dim; simpl. do 2 f_equal.
  replace (List.length (isl.space_set (isl.get_space s)))
    with (List.length (isl.space_set (isl.get_space s)) + 0)%nat by lia.
  by rewrite insert_app_r.
Qed.

Lemma align_spaces_constant (c : Z) (sp : isl.Space) :
  isl.align_spaces (constant_aff c) sp
  = Returned (isl.mkAff sp c
                (replicate (List.length (isl.space_params sp)) 0)
                (replicate (List.length (isl.space_set sp)) 0)).
Proof.
  unfold isl.align_spaces; simpl. f_equal. f_equal.
  - induction (isl.space_params sp) as [|[n|] l IH]; simpl; by f_equal.
  - induction (isl.space_set sp) as [|[n|] l IH]; simpl; by f_equal.
Qed.

Lemma insert_last_zeros (n : nat) (v : Z) :
  <[n := v]> (replicate (S n) 0) = replicate n 0 ++ [v].
Proof. induction n as [|n IH]; [done|]. simpl in *. by rewrite IH. Qed.

Lemma set_coeff_zeros_snoc (n : nat) (v : Z) :
  isl.set_coeff (replicate (S n) 0) n v = replicate n 0 ++ [v].
Proof.
  unfold isl.set_coeff. rewrite length_replicate, Nat.sub_diag.
  change (replicate 0 0) with (@nil Z). rewrite app_nil_r.
  apply insert_last_zeros.
Qed.

Lemma coeff_zeros (m n : nat) : isl.coeff (replicate m 0) n = 0.
Proof.
  unfold isl.coeff. destruct (replicate m 0 !! n) eqn:E; [|done].
  by apply lookup_replicate in E as [-> _].
Qed.

Lemma dot_zeros (m : nat) (vs : list Z) : isl.dot (replicate m 0) vs = 0.
Proof.
  revert vs. induction m as [|m IH]; intros [|v vs]; simpl; try done.
  rewrite IH. lia.
Qed.

Lemma dot_zeros_snoc (vs : list Z) (a v : Z) :
  isl.dot (replicate (List.length vs) 0 ++ [a]) (vs ++ [v]) = a * v.
Proof.
  induction vs as [|x vs IH]; simpl; [lia|]. rewrite IH. lia.
Qed.

Lemma pin_constraint_satisfied (sp : isl.Space) (n : nat) (c : Z)
    (p : isl.Point) :
  List.length (isl.point_set p) = S n ->
  isl.satisfies p (pin_constraint sp n c) <-> isl.point_set p !! n = Some c.
Proof.
  intros Hlen. unfold isl.satisfies, pin_constraint, isl.eval_aff; simpl.
  rewrite dot_zeros.
  destruct (isl.point_set p) as [|x l] eqn:E using rev_ind; [done|].
  clear IHl. rewrite length_app in Hlen; simpl in Hlen.
  assert (List.length l = n) as <- by lia.
  rewrite dot_zeros_snoc. rewrite lookup_app_r by lia.
  replace (List.length l - List.length l)%nat with 0%nat by lia. simpl.
  split; [intros; f_equal; lia | intros [= ->]; lia].
Qed.

Lemma iname_rel_aff_eq_pin (sp : isl.Space) (k : string) (c : Z) :
  isl.var_dict_lookup sp k = None ->
  iname_rel_aff_eq
    (isl.mkSpace (isl.space_params sp) (isl.space_set sp ++ [Some k]))
    k (constant_aff c)
  = Returned (isl.constraint_aff
      (pin_constraint
         (isl.mkSpace (isl.space_params sp) (isl.space_set sp ++ [Some k]))
         (List.length (isl.space_set sp)) c)).
Proof.
  intros [Hp Hs]%var_dict_lookup_None.
  unfold iname_rel_aff_eq, isl.var_dict_lookup.
  cbn [isl.space_params isl.space_set].
  apply index_of_None in Hp as ->. rewrite index_of_snoc by done.
  rewrite align_spaces_constant.
  cbn [mbind Outcome_bind isl.space_params isl.space_set].
  unfold isl.add_coefficient_val, pin_constraint.
  cbn [isl.aff_space isl.aff_const isl.aff_param_coeffs isl.aff_in_coeffs
       isl.constraint_aff isl.space_params]. do 2 f_equal.
  rewrite length_app; simpl.
  replace (List.length (isl.space_set sp) + 1)%nat
    with (S (List.length (isl.space_set sp))) by lia.
  rewrite coeff_zeros. apply set_coeff_zeros_snoc.
Qed.

(** ** The code-generation state *)

(** [fix] of a fresh name to a constant, in full. *)
Lemma fix_fresh_name (self : CodeGenerationState) (k : string) (c : Z) :
  isl.var_dict_lookup (isl.get_space (implemented_domain self)) k = None ->
  let sp := isl.get_space (implemented_domain self) in
  let sp' := isl.mkSpace (isl.space_params sp) (isl.space_set sp ++ [Some k]) in
  fix_ self k (constant_aff c)
  = Returned
      (copy_implemented_domain
         (copy_and_assign self k (Constant c))
         (isl.add_constraint
            (isl.mkSet sp' (isl.disjuncts (implemented_domain self)))
            (pin_constraint sp' (List.length (isl.space_set sp)) c))).
Proof.
  intros Hk sp sp'. unfold fix_. fold sp. rewrite (has_name_false sp k Hk).
  rewrite set_dim_name_add_dims. fold sp. cbn [isl.get_space]. fold sp'.
  unfold sp'. rewrite (iname_rel_aff_eq_pin sp k c Hk). reflexivity.
Qed.

(** C4: on a state whose implemented domain has no dimension called [k],
    [fix(k, c)] for an affine constant [c] (the claim's [k], [5]) returns a
    state whose domain has the old parameters, the old set dimensions
    followed by exactly one new one named [k], every old basic set with its
    constraints in place followed by the one equality, which holds exactly
    of the points whose [k] coordinate is [c]; the substitution map gains
    [k -> c]; putting the old domain and map back gives the old state, so
    no other field has changed. *)
Theorem fix_extends_domain (self : CodeGenerationState) (k : string) (c : Z) :
  isl.var_dict_lookup (isl.get_space (implemented_domain self)) k = None ->
  exists st' cns,
    fix_ self k (constant_aff c) = Returned st' /\
    isl.space_params (isl.get_space (implemented_domain st'))
      = isl.space_params (isl.get_space (implemented_domain self)) /\
    isl.space_set (isl.get_space (implemented_domain st'))
      = isl.space_set (isl.get_space (implemented_domain self)) ++ [Some k] /\
    isl.var_dict_lookup (isl.get_space (implemented_domain st')) k
      = Some (isl.set, isl.dim (implemented_domain self) isl.set) /\
    isl.disjuncts (implemented_domain st')
      = (fun cs => cs ++ [cns]) <$> isl.disjuncts (implemented_domain self) /\
    isl.is_equality cns = true /\
    (forall p : isl.Point,
        List.length (isl.point_set p)
          = isl.dim (implemented_domain st') isl.set ->
        isl.satisfies p cns <->
        isl.point_set p !! isl.dim (implemented_domain self) isl.set
          = Some c) /\
    var_subst_map st' = <[k := Constant c]> (var_subst_map self) /\
    copy_implemented_domain (copy_var_subst_map st' (var_subst_map self))
      (implemented_domain self) = self.
Proof.
  intros Hk. pose proof (fix_fresh_name self k c Hk) as Hfix.
  set (sp := isl.get_space (implemented_domain self)) in *.
  set (sp' := isl.mkSpace (isl.space_params sp) (isl.space_set sp ++ [Some k]))
    in *.
  set (n := List.length (isl.space_set sp)) in *.
  cbv zeta in Hfix.
  eexists _, (pin_constraint sp' n c).
  split; [exact Hfix|].
  split; [reflexivity|]. split; [reflexivity|]. split.
  { cbn. apply var_dict_lookup_None in Hk as [Hp Hs].
    unfold isl.var_dict_lookup; cbn. fold sp in Hp, Hs.
    apply index_of_None in Hp as ->. by rewrite index_of_snoc. }
  split; [reflexivity|]. split; [reflexivity|]. split.
  { intros p Hp. apply pin_constraint_satisfied.
    rewrite Hp. unfold isl.dim; cbn. rewrite length_app; cbn.
    unfold n, sp. lia. }
  split; [reflexivity|]. destruct self; reflexivity.
Qed.

Lemma dot_ignores_new_coordinate (cs vs : list Z) (v : Z) :
  (List.length cs <= List.length vs)%nat ->
  isl.dot cs (vs ++ [v]) = isl.dot cs vs.
Proof.
  revert vs. induction cs as [|c cs IH]; intros [|x vs] Hlen; simpl in *;
    try done; try lia.
  rewrite IH by lia. done.
Qed.

Lemma satisfies_extend_point (p : isl.Point) (v : Z) (c : isl.Constraint) :
  (List.length (isl.aff_in_coeffs (isl.constraint_aff c))
   <= List.length (isl.point_set p))%nat ->
  isl.satisfies (extend_point p v) c <-> isl.satisfies p c.
Proof.
  intros Hlen. unfold isl.satisfies, isl.eval_aff, extend_point; simpl.
  by rewrite dot_ignores_new_coordinate.
Qed.

(** The points of the domain after [fix(k, c)] of a fresh name are the
    points of the domain before, each with the coordinate [c] for [k]. *)
Lemma fix_keeps_the_points (self st' : CodeGenerationState) (k : string)
    (c : Z) (p' : isl.Point) :
  isl.var_dict_lookup (isl.get_space (implemented_domain self)) k = None ->
  constraints_in_space (implemented_domain self) ->
  fix_ self k (constant_aff c) = Returned st' ->
  isl.contains (implemented_domain st') p'
  <-> exists p, isl.contains (implemented_domain self) p
                /\ p' = extend_point p c.
Proof.
  intros Hk Hwf. rewrite (fix_fresh_name self k c Hk). intros [= <-].
  unfold isl.contains. cbn. rewrite length_app. cbn.
  set (n := List.length (isl.space_set (isl.get_space (implemented_domain self)))).
  split.
  - intros (Hpar & Hset & cs' & Hin & Hsat).
    apply list_elem_of_fmap in Hin as (cs & -> & Hin).
    rewrite Forall_app, Forall_singleton in Hsat.
    destruct Hsat as [Hold Hpin].
    apply pin_constraint_satisfied in Hpin; [|lia].
    destruct p' as [params coords].
    cbn [isl.point_set isl.point_params] in *.
    destruct coords as [|x coords _] using rev_ind;
      [cbn in Hset; lia|].
    rewrite length_app in Hset. cbn in Hset.
    rewrite lookup_app_r in Hpin by lia.
    replace (n - List.length coords)%nat with 0%nat in Hpin by lia.
    injection Hpin as ->.
    exists (isl.mkPoint params coords). split; [|reflexivity].
    split; [done|]. split; [cbn; lia|]. exists cs. split; [done|].
    rewrite Forall_forall in Hold |- *. intros c0 Hc0.
    apply (satisfies_extend_point (isl.mkPoint params coords) c c0).
    + unfold constraints_in_space in Hwf. rewrite Forall_forall in Hwf.
      specialize (Hwf cs Hin). rewrite Forall_forall in Hwf.
      specialize (Hwf c0 Hc0). unfold isl.dim, isl.space_dim in Hwf.
      cbn. fold n in Hwf. lia.
    + by apply Hold.
  - intros (p & (Hpar & Hset & cs & Hin & Hsat) & ->). cbn.
    split; [done|]. split; [rewrite length_app; cbn; unfold isl.dim in Hset;
                            cbn in Hset; lia|].
    exists (cs ++ [pin_constraint
                     (isl.mkSpace
                        (isl.space_params
                           (isl.get_space (implemented_domain self)))
                        (isl.space_set
                           (isl.get_space (implemented_domain self))
                         ++ [Some k])) n c]).
    split; [apply list_elem_of_fmap; eauto|].
    apply Forall_app. split.
    + rewrite Forall_forall in Hsat |- *. intros c0 Hc0.
      apply satisfies_extend_point; [|by apply Hsat].
      unfold constraints_in_space in Hwf. rewrite Forall_forall in Hwf.
      specialize (Hwf cs Hin). rewrite Forall_forall in Hwf.
      specialize (Hwf c0 Hc0). unfold isl.dim in *. cbn in *. lia.
    + apply Forall_singleton. apply pin_constraint_satisfied.
      * cbn. rewrite length_app. cbn. unfold isl.dim in Hset.
        cbn in Hset. unfold n. lia.
      * cbn. unfold isl.dim in Hset. cbn in Hset.
        rewrite lookup_app_r by (unfold n; lia).
        replace (n - List.length (isl.point_set p))%nat with 0%nat
          by (unfold n; lia).
        reflexivity.
Qed.

Lemma fix_extends_domain_witness :
  isl.var_dict_lookup
    (isl.get_space (implemented_domain (example_state None))) "k" = None /\
  exists st',
    fix_ (example_state None) "k" (constant_aff 5) = Returned st' /\
    isl.space_set (isl.get_space (implemented_domain st'))
      = [Some "i"; Some "k"] /\
    var_subst_map st' = <["k" := Constant 5]> ∅.
Proof.
  split; [reflexivity|].
  destruct (fix_extends_domain (example_state None) "k" 5 eq_refl)
    as (st' & cns & Hfix & _ & Hset & _ & _ & _ & _ & Hmap & _).
  exists st'. split; [exact Hfix|]. split; [exact Hset | exact Hmap].
Defined.

(** ** Loops *)

Lemma bind_run {W A B} (m : M W A) (f : A -> M W B) (w : W) :
  (m ≫= f) w = match m w with
               | (Returned a, w') => f a w'
               | (Raised e, w') => (Raised e, w')
               end.
Proof. reflexivity. Qed.

Lemma ret_run {W A} (a : A) (w : W) : (mret a : M W A) w = (Returned a, w).
Proof. reflexivity. Qed.

Lemma lift_outcome_run {W A} (o : Outcome A) (w : W) :
  lift_outcome o w = (o, w).
Proof. reflexivity. Qed.

Lemma for_each_returns {W A S} (body : S -> A -> M W S) xs acc w acc' w' :
  for_each xs body acc w = (Returned acc', w')
  <-> for_each_run body xs acc w acc' w'.
Proof.
  revert acc w. induction xs as [|x xs IH]; intros acc w; simpl.
  - split.
    + intros [= <- <-]. constructor.
    + inversion 1; subst. reflexivity.
  - rewrite bind_run. split.
    + destruct (body acc x w) as [[acc1|e] w1] eqn:E; [|discriminate].
      intros Hrest. econstructor; [exact E|]. by apply IH.
    + intros Hrun. inversion Hrun as [|? ? ? ? ? ? ? ? Hb Hr]; subst.
      rewrite Hb. by apply IH.
Qed.

Lemma calls_length {X} (func : EmissionFunction X)
    sts w gs w' :
  calls func sts w gs w' -> List.length gs = List.length sts.
Proof. induction 1; simpl; congruence. Qed.

Lemma py_range_length (n : Z) : List.length (py_range n) = Z.to_nat n.
Proof. unfold py_range. by rewrite length_fmap, length_seq. Qed.

Lemma py_range_lookup (n : Z) (i : nat) :
  (i < Z.to_nat n)%nat -> py_range n !! i = Some (Z.of_nat i).
Proof.
  intros Hi. unfold py_range. rewrite list_lookup_fmap.
  rewrite lookup_seq_lt by done. reflexivity.
Qed.

(** ** The vectorization engine *)

(** Fixing an iname to a constant cannot fail. *)
Lemma fix_constant_returns (self : CodeGenerationState) (k : string) (c : Z) :
  exists st, fix_ self k (constant_aff c) = Returned st.
Proof.
  destruct (isl.var_dict_lookup (isl.get_space (implemented_domain self)) k)
    as [[dt pos]|] eqn:E.
  - unfold fix_, isl.has_name. rewrite E.
    rewrite bool_decide_eq_true_2 by eauto.
    unfold iname_rel_aff_eq. rewrite E, align_spaces_constant.
    eexists; reflexivity.
  - rewrite (fix_fresh_name self k c E). eauto.
Qed.

(** What [fix] leaves alone, and what it binds. *)
Lemma fix_result_fields (self st : CodeGenerationState) (k : string)
    (a : isl.Aff) :
  fix_ self k a = Returned st ->
  vectorization_info st = vectorization_info self /\
  var_subst_map st = <[k := pw_aff_to_expr a]> (var_subst_map self).
Proof.
  unfold fix_. destruct (iname_rel_aff_eq _ _ _); [|discriminate].
  by intros [= <-].
Qed.

Lemma lane_states_exist (self : CodeGenerationState)
    (vinf : VectorizationInfo.t) (indices : list Z) :
  exists lanes,
    Forall2 (fun i st => lane_state self vinf i = Returned st) indices lanes.
Proof.
  induction indices as [|i indices [lanes IH]].
  - exists []. constructor.
  - destruct (fix_constant_returns (copy_vectorization_info self None)
                (VectorizationInfo.iname vinf) i) as [st Hst].
    exists (st :: lanes). by constructor.
Qed.

Section vectorization_facts.
Context {X : Type} `{Collaborators X}.

(** The loop of [unvectorize] over given lane states. *)
Lemma unvectorize_loop (self : CodeGenerationState)
    (vinf : VectorizationInfo.t) (func : EmissionFunction X) indices lanes :
  Forall2 (fun i st => lane_state self vinf i = Returned st) indices lanes ->
  forall acc w res w',
    for_each indices
      (fun result i =>
         new_codegen_state ←
           lift_outcome (fix_ (copy_vectorization_info self None)
                              (VectorizationInfo.iname vinf) (constant_aff i));
         generated ← func new_codegen_state;
         mret (match generated with
               | GenList rs => result ++ rs
               | GenNone => result
               | GenOne r => result ++ [r]
               end))
      acc w = (Returned res, w')
    <-> exists gs, calls func lanes w gs w'
                   /\ res = acc ++ mjoin (fragments <$> gs).
Proof.
  induction 1 as [|i st indices lanes Hst _ IH]; intros acc w res w'.
  - simpl. rewrite ret_run. split.
    + intros [= <- <-]. exists []. split; [constructor|].
      simpl. by rewrite app_nil_r.
    + intros (gs & Hc & ->). inversion Hc; subst. simpl.
      by rewrite app_nil_r.
  - cbn [for_each]. unfold lane_state in Hst.
    rewrite bind_run, bind_run, lift_outcome_run, Hst, bind_run. split.
    + destruct (func st w) as [[g|e] w1] eqn:E; [|discriminate].
      rewrite ret_run. intros Hrest.
      apply IH in Hrest as (gs & Hc & ->).
      exists (g :: gs). split; [by econstructor|].
      destruct g; simpl; by rewrite <- ?app_assoc.
    + intros (gs & Hc & ->).
      inversion Hc as [|? ? ? g ? gs' ? Hf Hr]; subst.
      rewrite Hf, ret_run. apply IH.
      eexists; split; [eassumption|].
      destruct g; simpl; by rewrite <- ?app_assoc.
Qed.

(** C2: in a state whose [vectorization_info] is [{iname, length}],
    [unvectorize(func)] has one lane state per index of [range(length)],
    each the state with [vectorization_info = None] and
    [fix(iname, constant(i))] applied, so that it is not vectorizing and
    binds [iname] to [i]; it returns exactly when [func],
    called once on every lane state in increasing lane order, returns
    every time and the merge returns, and then the merged fragments are
    those of the calls in lane order: none for [None], all elements of a
    list, the result itself otherwise. *)
Theorem unvectorize_runs_every_lane (self : CodeGenerationState)
    (vinf : VectorizationInfo.t) (func : EmissionFunction X) :
  vectorization_info self = Some vinf ->
  exists lanes,
    Forall2 (fun i st => lane_state self vinf i = Returned st)
            (py_range (VectorizationInfo.length vinf)) lanes /\
    Forall2 (fun i st =>
               vectorization_info st = None /\
               var_subst_map st
               = <[VectorizationInfo.iname vinf := Constant i]>
                   (var_subst_map self))
            (py_range (VectorizationInfo.length vinf)) lanes /\
    List.length lanes = Z.to_nat (VectorizationInfo.length vinf) /\
    (forall i, (i < List.length lanes)%nat ->
               py_range (VectorizationInfo.length vinf) !! i
               = Some (Z.of_nat i)) /\
    forall w r w',
      unvectorize self func w = (Returned r, w')
      <-> exists gs w1,
            calls func lanes w gs w1 /\
            List.length gs = List.length lanes /\
            merge_codegen_results self (mjoin (fragments <$> gs)) w1
            = (Returned r, w').
Proof.
  intros Hv.
  destruct (lane_states_exist self vinf
              (py_range (VectorizationInfo.length vinf))) as [lanes Hl].
  assert (List.length lanes = Z.to_nat (VectorizationInfo.length vinf)) as Hn.
  { rewrite <- (Forall2_length _ _ _ Hl). apply py_range_length. }
  exists lanes. split; [exact Hl|]. split.
  { eapply Forall2_impl; [exact Hl|]. intros i st Hst.
    by apply fix_result_fields in Hst. }
  split; [exact Hn|]. split.
  { intros i Hi. apply py_range_lookup. lia. }
  intros w r w'. unfold unvectorize. rewrite Hv. cbn [not_none].
  rewrite bind_run, lift_outcome_run, bind_run.
  split.
  - destruct (for_each _ _ _ w) as [[res|e] w1] eqn:E; [|discriminate].
    intros Hm.
    apply (unvectorize_loop self vinf func _ _ Hl [] w) in E as (gs & Hc & ->).
    exists gs, w1. split; [exact Hc|]. split; [by eapply calls_length|].
    exact Hm.
  - intros (gs & w1 & Hc & _ & Hm).
    pose proof (proj2 (unvectorize_loop self vinf func _ _ Hl [] w
                         (mjoin (fragments <$> gs)) w1)
                      (ex_intro _ gs (conj Hc eq_refl))) as Hloop.
    unfold lane_state in Hloop. rewrite Hloop. exact Hm.
Qed.

(** C1, as the code has it: with [vectorization_info] unset
    [try_vectorized] is the call [func(self)] itself, whatever it does;
    with [vectorization_info] set, an [UnvectorizableError] that the first
    call [func(self)] raises is caught, the warning [vectorize_failed] is
    given, and the outcome is that of [unvectorize(func)] in the world with
    the warning, an error of a per-lane call included; any other outcome
    of the first call is passed on. *)
Theorem try_vectorized_catches_first_attempt (self : CodeGenerationState)
    (what : string) (func : EmissionFunction X) (w : Emission X) :
  (vectorization_info self = None ->
   try_vectorized self what func w = func self w) /\
  (forall vinf, vectorization_info self = Some vinf ->
     (forall e w1,
        func self w = (Raised (UnvectorizableError e), w1) ->
        try_vectorized self what func w
        = match unvectorize self func (warned self what e w1) with
          | (Returned r, w2) => (Returned (GenOne r), w2)
          | (Raised e2, w2) => (Raised e2, w2)
          end) /\
     (forall o w1,
        func self w = (o, w1) ->
        (forall e, o <> Raised (UnvectorizableError e)) ->
        try_vectorized self what func w = (o, w1))).
Proof.
  split.
  - intros Hv. unfold try_vectorized. by rewrite Hv.
  - intros vinf Hv. unfold try_vectorized. rewrite Hv. split.
    + intros e w1 Hf. rewrite Hf. reflexivity.
    + intros o w1 Hf Ho. rewrite Hf.
      destruct o as [g|[]]; try reflexivity. by destruct (Ho msg).
Qed.

End vectorization_facts.

Lemma unvectorize_runs_every_lane_witness :
  exists lanes,
    Forall2 (fun i st => lane_state (example_state (Some two_lanes))
                           two_lanes i = Returned st)
            [0; 1] lanes /\
    List.length lanes = 2%nat.
Proof.
  destruct (unvectorize_runs_every_lane (H := example_collaborators)
              (example_state (Some two_lanes)) two_lanes scalar_only eq_refl)
    as (lanes & Hl & _ & Hn & _).
  exists lanes. split; [exact Hl | exact Hn].
Defined.

(** The fallback at work: the vectorized attempt fails, the two lanes are
    generated one after the other and merged. *)
Example try_vectorized_unrolls :
  try_vectorized (H := example_collaborators) (example_state (Some two_lanes))
    "assignment" scalar_only empty_emission
  = (Returned (GenOne (mkCodeGenerationResult None
        [example_program true "knl"; example_program true "knl"] [] [] [])),
     mkEmission
       [vectorize_failed (example_state (Some two_lanes)) "assignment"
          "no vector form"]
       [] 3%nat).
Proof. vm_compute. reflexivity. Qed.

Lemma try_vectorized_catches_first_attempt_witness :
  try_vectorized (H := example_collaborators) (example_state (Some two_lanes))
    "assignment" scalar_only empty_emission
  = match unvectorize (H := example_collaborators)
            (example_state (Some two_lanes)) scalar_only
            (warned (example_state (Some two_lanes)) "assignment"
                    "no vector form" empty_emission) with
    | (Returned r, w2) => (Returned (GenOne r), w2)
    | (Raised e2, w2) => (Raised e2, w2)
    end.
Proof.
  apply (proj1 (proj2 (try_vectorized_catches_first_attempt
                         (H := example_collaborators)
                         (example_state (Some two_lanes)) "assignment"
                         scalar_only empty_emission)
                      two_lanes eq_refl)).
  reflexivity.
Defined.

(** C1 fails as stated: an [UnvectorizableError] leaves [try_vectorized]
    when the state is not vectorizing, and also when it is raised by a
    per-lane call of the fallback (here by lane 0, after the warning). *)
Lemma try_vectorized_lets_unvectorizable_escape :
  try_vectorized (H := example_collaborators) (example_state None)
    "assignment" never_vectorizable empty_emission
  = (Raised (UnvectorizableError "no vector form"), empty_emission) /\
  try_vectorized (H := example_collaborators) (example_state (Some four_lanes))
    "assignment" never_vectorizable empty_emission
  = (Raised (UnvectorizableError "no vector form"),
     mkEmission
       [vectorize_failed (example_state (Some four_lanes)) "assignment"
          "no vector form"]
       [] 0%nat).
Proof. split; vm_compute; reflexivity. Qed.


(** ** The single-kernel driver *)

Lemma never_raises_bind {W A B} e (m : M W A) (f : A -> M W B) :
  never_raises e m -> (forall a, never_raises e (f a)) ->
  never_raises e (m ≫= f).
Proof.
  intros Hm Hf w o w'. rewrite bind_run.
  destruct (m w) as [[a|e1] w1] eqn:E.
  - apply Hf.
  - intros [= <- <-] [= ->]. by apply (Hm w _ _ E).
Qed.

Lemma never_raises_ret {W A} e (a : A) : never_raises e (mret a : M W A).
Proof. by intros w o w' [= <- <-]. Qed.

Lemma never_raises_lift {W A} e (o : Outcome A) :
  o <> Raised e -> never_raises e (lift_outcome o : M W A).
Proof. by intros Ho w o' w' [= <- <-]. Qed.

Lemma never_raises_for_each {W A S} e (body : S -> A -> M W S) xs acc :
  (forall acc x, never_raises e (body acc x)) ->
  never_raises e (for_each xs body acc).
Proof.
  intros Hb. revert acc. induction xs as [|x xs IH]; intros acc; simpl.
  - apply never_raises_ret.
  - apply never_raises_bind; [apply Hb | apply IH].
Qed.

Lemma never_raises_set_add {X} e a d : never_raises e (@set_add X a d).
Proof. by intros w o w' [= <- <-]. Qed.

Lemma never_raises_new_set {X} e o : never_raises e (@new_set X o).
Proof. by intros w o' w' [= <- <-]. Qed.

Lemma mapM_not_none_raises {A B} (f : A -> option B) (l : list A) e :
  mapM (fun x => not_none (f x)) l = Raised e -> e = AssertionError.
Proof.
  induction l as [|x l IH]; simpl; [done|].
  unfold mbind at 1, Outcome_bind.
  destruct (f x); simpl; [|by intros [= <-]].
  unfold mbind, Outcome_bind.
  destruct (mapM _ l); [done|]. intros [= <-]. by apply IH.
Qed.

Section driver_facts.
Context {X : Type} `{Collaborators X}.

Lemma linearized_driver_never_raises (e : Exception) kernel table target
    is_entry :
  e <> AssertionError -> e <> NotImplementedError ->
  driver_collaborators_never_raise e ->
  never_raises e
    (generate_code_for_a_linearized_kernel kernel table target is_entry).
Proof.
  intros Ha Hn (Hgen & Hdev & Hchk & Hpre).
  unfold generate_code_for_a_linearized_kernel.
  apply never_raises_bind.
  { apply never_raises_lift. intros Hr.
    apply mapM_not_none_raises in Hr. congruence. }
  intros dtypes.
  do 3 (apply never_raises_bind; [apply never_raises_new_set|]; intros ?).
  apply never_raises_bind.
  { apply never_raises_lift. destruct (linearization kernel); simpl; congruence. }
  intros schedule.
  apply never_raises_bind; [apply Hgen|]. intros cgr.
  apply never_raises_bind; [apply Hdev|]. intros code.
  apply never_raises_bind; [apply Hchk|]. intros ok.
  apply never_raises_bind.
  { apply never_raises_lift. destruct ok; simpl; congruence. }
  intros _.
  do 2 (apply never_raises_bind;
        [apply never_raises_for_each; intros; apply never_raises_set_add|];
        intros _).
  apply never_raises_bind.
  { case_bool_decide;
      [apply never_raises_set_add | apply never_raises_ret]. }
  intros _.
  apply never_raises_bind.
  { apply never_raises_lift. unfold get_device_ast_builder.
    destruct (device_ast_builder target); congruence. }
  intros builder.
  apply never_raises_bind.
  { apply never_raises_for_each. intros acc g.
    apply never_raises_bind; [apply Hpre|].
    intros. apply never_raises_ret. }
  intros. apply never_raises_ret.
Qed.

(** C5: the precondition check of [generate_code_for_a_single_kernel]
    fails, with the scheduling-precondition [LoopyError], exactly when the
    kernel's state is not [LINEARIZED]; the driver then raises that error
    and does nothing else.  On a linearized kernel the check passes and
    the driver is the emission proper.  With collaborators that do not
    raise this error themselves, the driver raises it only for a kernel
    that is not linearized. *)
Theorem driver_requires_linearized (kernel : LoopKernel)
    (table : CallablesTable) (target : TargetBase) (is_entry : bool)
    (w : Emission X) :
  (check_linearized kernel = Raised scheduling_precondition_error
   <-> knl_state kernel <> LINEARIZED) /\
  (knl_state kernel <> LINEARIZED ->
   generate_code_for_a_single_kernel kernel table target is_entry w
   = (Raised scheduling_precondition_error, w)) /\
  (knl_state kernel = LINEARIZED ->
   check_linearized kernel = Returned tt /\
   generate_code_for_a_single_kernel kernel table target is_entry w
   = generate_code_for_a_linearized_kernel kernel table target is_entry w) /\
  (driver_collaborators_never_raise scheduling_precondition_error ->
   forall w',
     generate_code_for_a_single_kernel kernel table target is_entry w
     = (Raised scheduling_precondition_error, w') ->
     knl_state kernel <> LINEARIZED).
Proof.
  unfold generate_code_for_a_single_kernel, check_linearized.
  rewrite bind_run, lift_outcome_run.
  case_bool_decide as Hs; (split; [|split; [|split]]).
  - tauto.
  - reflexivity.
  - intros Heq. by apply Hs in Heq.
  - done.
  - split; [discriminate|]. intros Hne. by destruct Hne.
  - intros Hne. by destruct Hne.
  - intros _. split; reflexivity.
  - intros Hq w' Hr. exfalso.
    eapply (linearized_driver_never_raises scheduling_precondition_error);
      [discriminate | discriminate | exact Hq | exact Hr | reflexivity].
Qed.

End driver_facts.

Lemma example_collaborators_never_raise (e : Exception) :
  driver_collaborators_never_raise (H := example_collaborators) e.
Proof. repeat split; intros; by intros w o w' [= <- <-]. Qed.

Lemma driver_requires_linearized_witness :
  generate_code_for_a_single_kernel (H := example_collaborators)
    unscheduled_kernel [] example_target true empty_emission
  = (Raised scheduling_precondition_error, empty_emission)
  /\ generate_code_for_a_single_kernel (H := example_collaborators)
       (example_kernel "knl" []) [] example_target true empty_emission
     = generate_code_for_a_linearized_kernel (H := example_collaborators)
         (example_kernel "knl" []) [] example_target true empty_emission
  /\ knl_state unscheduled_kernel <> LINEARIZED.
Proof.
  split; [|split].
  - apply (proj1 (proj2 (driver_requires_linearized
                           (H := example_collaborators) _ [] example_target
                           true empty_emission))).
    discriminate.
  - apply (proj1 (proj2 (proj2 (driver_requires_linearized
                           (H := example_collaborators) _ [] example_target
                           true empty_emission)))).
    reflexivity.
  - apply (proj2 (proj2 (proj2 (driver_requires_linearized
                           (H := example_collaborators) unscheduled_kernel
                           [] example_target true empty_emission)))
                 (example_collaborators_never_raise _) empty_emission).
    reflexivity.
Defined.

(** A linearized kernel goes through the driver. *)
Example driver_emits_linearized_kernel :
  generate_code_for_a_single_kernel (H := example_collaborators)
    (example_kernel "knl" []) [] example_target true empty_emission
  = (Returned (mkCodeGenerationResult
                 (Some (example_program false "knl_outer"))
                 [example_program true "knl"] [] [] []),
     mkEmission [] [DtypeSet [mkLoopyType "int32" false]; FunctionSet [];
                    DtypeSet []] 3%nat).
Proof. vm_compute. reflexivity. Qed.

(** ** The AST builder of a state *)

(** The builder is looked up in the target of the kernel: the [target]
    field of the state plays no part. *)
Lemma ast_builder_ignores_target_field (self : CodeGenerationState)
    (t : TargetBase) :
  ast_builder (copy_target self t) = ast_builder self.
Proof. reflexivity. Qed.

(** C9, a state set to the OpenCL target whose kernel carries the example
    target: [ast_builder] is the device builder of the kernel's target,
    not the one of the state's [target] field. *)
Theorem ast_builder_reads_kernel_target :
  target two_target_state = opencl_target /\
  knl_target (kernel two_target_state) = example_target /\
  is_generating_device_code two_target_state = true /\
  get_device_ast_builder (target two_target_state)
    = Returned (mkASTBuilder "opencl device" []) /\
  ast_builder two_target_state = Returned (mkASTBuilder "device" []) /\
  ast_builder two_target_state
    <> get_device_ast_builder (target two_target_state).
Proof. repeat split; discriminate. Qed.

(** ** Entrypoint/callee divergence *)

Lemma dict_set_length {V} (d : dict string V) k v :
  (List.length (dict_set d k v) <= S (List.length d))%nat.
Proof.
  induction d as [|[k' v'] d IH]; simpl; [lia|].
  case_decide; simpl; lia.
Qed.

Lemma rename_one_length (todo_renames : dict CallableId string)
    (acc : CallablesTable) (item : CallableId * InKernelCallable) :
  (List.length (rename_one todo_renames acc item) <= S (List.length acc))%nat.
Proof. destruct item. apply dict_set_length. Qed.

Lemma foldl_rename_length (todo_renames : dict CallableId string)
    (table acc : CallablesTable) :
  (List.length (foldl (rename_one todo_renames) acc table)
   <= List.length acc + List.length table)%nat.
Proof.
  revert acc. induction table as [|item table IH]; intros acc; simpl.
  - lia.
  - specialize (IH (rename_one todo_renames acc item)).
    pose proof (rename_one_length todo_renames acc item). lia.
Qed.

(** Divergence moves callables, it never adds one: the table does not
    grow, so no callable can end up with two bodies. *)
Lemma diverge_never_adds_a_callable (t_unit : TranslationUnit) :
  (List.length (tu_callables_table (diverge_callee_entrypoints t_unit))
   <= List.length (tu_callables_table t_unit))%nat.
Proof.
  unfold diverge_callee_entrypoints, rename_callables; simpl.
  etrans; [apply foldl_rename_length|]. simpl. lia.
Qed.

(** C3, on the unit with entrypoints [f] and [g] where [g] calls [f]:
    [f] is reachable and an entrypoint; after divergence the call in [g]
    goes to [f_0], and the body of [f] exists under the name [f_0] only:
    the table has no callable [f] any more, though [f] still is an
    entrypoint. *)
Theorem diverge_renames_the_only_body :
  diverge_callee_entrypoints entrypoint_called_unit
  = mkTranslationUnit example_target ["f"; "g"]
      [("f_0", CallableKernel (example_kernel "f_0" []));
       ("g", CallableKernel (example_kernel "g" ["f_0"]))] /\
  dict_get (tu_callables_table
              (diverge_callee_entrypoints entrypoint_called_unit)) "f"
  = None /\
  "f" ∈ entrypoints (diverge_callee_entrypoints entrypoint_called_unit) /\
  List.length (tu_callables_table
                 (diverge_callee_entrypoints entrypoint_called_unit))
  = 2%nat.
Proof.
  assert (diverge_callee_entrypoints entrypoint_called_unit
          = mkTranslationUnit example_target ["f"; "g"]
              [("f_0", CallableKernel (example_kernel "f_0" []));
               ("g", CallableKernel (example_kernel "g" ["f_0"]))]) as ->
    by (vm_compute; reflexivity).
  split; [reflexivity|]. split; [reflexivity|]. split; [|reflexivity].
  simpl. set_solver.
Qed.

(** ** Rendering *)

Section rendering_facts.
Context `{Rendering}.

Lemma host_program_texts_present (r : TranslationUnitCodeGenerationResult)
    (hosts : list GeneratedProgram) :
  dict_values (host_programs r) = Some <$> hosts ->
  host_program_texts r = Returned (program_texts hosts).
Proof.
  unfold host_program_texts. intros ->.
  induction hosts as [|p hosts IH]; [reflexivity|].
  rewrite fmap_cons.
  change (mapM ?f (?x :: ?l)) with (y ← f x; k ← mapM f l; mret (y :: k)).
  rewrite IH. reflexivity.
Qed.

End rendering_facts.

(** *** The preamble processing of the spec *)

Lemma first_by_text_fresh (seen : list string) (ps : list Preamble)
    (p : Preamble) :
  p ∈ result.first_by_text seen ps -> p.2 ∉ seen /\ p ∈ ps.
Proof.
  revert seen. induction ps as [|q ps IH]; intros seen; cbn.
  - by intros ?%elem_of_nil.
  - destruct (decide (q.2 ∈ seen)) as [Hq|Hq].
    + intros [Hs Hin]%IH. split; [done | by right].
    + intros [->|[Hs Hin]%IH]%elem_of_cons; [split; [done | by left]|].
      split; [set_solver | by right].
Qed.

Lemma first_by_text_texts (seen : list string) (ps : list Preamble)
    (text : string) :
  text ∈ (snd <$> result.first_by_text seen ps)
  <-> text ∈ (snd <$> ps) /\ text ∉ seen.
Proof.
  revert seen. induction ps as [|q ps IH]; intros seen; cbn.
  - set_solver.
  - destruct (decide (q.2 ∈ seen)) as [Hq|Hq]; cbn.
    + rewrite IH. set_solver.
    + rewrite !elem_of_cons, IH. split.
      * intros [->|[Hin Hs]]; [by auto|]. set_solver.
      * intros [[->|Hin] Hs]; [by left|].
        destruct (decide (text = q.2)) as [->|Hne]; [by left|].
        right. set_solver.
Qed.

Lemma first_by_text_NoDup (seen : list string) (ps : list Preamble) :
  NoDup (snd <$> result.first_by_text seen ps).
Proof.
  revert seen. induction ps as [|q ps IH]; intros seen; cbn.
  - constructor.
  - destruct (decide (q.2 ∈ seen)); [apply IH|]. cbn.
    constructor; [|apply IH].
    rewrite first_by_text_texts. set_solver.
Qed.

Lemma first_by_text_sublist (seen : list string) (ps : list Preamble) :
  result.first_by_text seen ps `sublist_of` ps.
Proof.
  revert seen. induction ps as [|q ps IH]; intros seen; cbn; [done|].
  destruct (decide (q.2 ∈ seen)).
  - by apply sublist_cons.
  - by apply sublist_skip.
Qed.

Lemma first_by_text_first (seen : list string) (ps : list Preamble)
    (p : Preamble) :
  p ∈ result.first_by_text seen ps ->
  head (filter (fun q : Preamble => q.2 = p.2) ps) = Some p.
Proof.
  revert seen. induction ps as [|q ps IH]; intros seen;
    cbn [result.first_by_text].
  - by intros ?%elem_of_nil.
  - destruct (decide (q.2 ∈ seen)) as [Hq|Hq].
    + intros Hin. destruct (first_by_text_fresh _ _ _ Hin) as [Hp _].
      rewrite filter_cons_False by (intros Heq; cbn in Heq; congruence).
      by eapply IH.
    + intros [->|Hin]%elem_of_cons.
      * by rewrite filter_cons_True.
      * destruct (first_by_text_fresh _ _ _ Hin) as [Hp _].
        rewrite filter_cons_False by (intros Heq; cbn in Heq; set_solver).
        by eapply IH.
Qed.

Lemma insert_by_priority_Permutation (p : Preamble) (ps : list Preamble) :
  result.insert_by_priority p ps ≡ₚ p :: ps.
Proof.
  induction ps as [|q ps IH]; cbn; [done|].
  destruct (decide (p.1 <= q.1)); [done|].
  rewrite IH. apply Permutation_swap.
Qed.

Lemma by_priority_Permutation (ps : list Preamble) :
  result.by_priority ps ≡ₚ ps.
Proof.
  induction ps as [|p ps IH]; cbn; [done|].
  by rewrite insert_by_priority_Permutation, IH.
Qed.

Lemma insert_by_priority_sorted (p : Preamble) (ps : list Preamble) :
  StronglySorted (fun a b : Preamble => a.1 <= b.1) ps ->
  StronglySorted (fun a b : Preamble => a.1 <= b.1)
                 (result.insert_by_priority p ps).
Proof.
  induction 1 as [|q ps Hs IH Hq]; cbn.
  - repeat constructor.
  - destruct (decide (p.1 <= q.1)) as [Hle|Hgt].
    + constructor; [by constructor|].
      constructor; [done|].
      eapply Forall_impl; [exact Hq|]. intros b Hb. cbn in *. lia.
    + constructor; [exact IH|].
      rewrite insert_by_priority_Permutation.
      constructor; [lia | exact Hq].
Qed.

Lemma by_priority_sorted (ps : list Preamble) :
  StronglySorted (fun a b : Preamble => a.1 <= b.1) (result.by_priority ps).
Proof.
  induction ps as [|p ps IH]; cbn; [constructor|].
  by apply insert_by_priority_sorted.
Qed.

(** Ordering by priority leaves the pairs of one priority in their order. *)
Lemma insert_by_priority_stable (k : Z) (p : Preamble) (ps : list Preamble) :
  filter (fun q : Preamble => q.1 = k) (result.insert_by_priority p ps)
  = filter (fun q : Preamble => q.1 = k) (p :: ps).
Proof.
  induction ps as [|q ps IH]; cbn [result.insert_by_priority]; [done|].
  destruct (decide (p.1 <= q.1)) as [Hle|Hgt]; [done|].
  rewrite (filter_cons _ q), IH, !filter_cons.
  destruct (decide (q.1 = k)) as [Hq|Hq]; [|done].
  destruct (decide (p.1 = k)) as [Hp|Hp]; [lia | done].
Qed.

Lemma by_priority_stable (k : Z) (ps : list Preamble) :
  filter (fun q : Preamble => q.1 = k) (result.by_priority ps)
  = filter (fun q : Preamble => q.1 = k) ps.
Proof.
  induction ps as [|p ps IH]; [done|].
  change (result.by_priority (p :: ps))
    with (result.insert_by_priority p (result.by_priority ps)).
  by rewrite insert_by_priority_stable, !filter_cons, IH.
Qed.

(** C8: with the preamble processing that the spec describes,
    [all_code()] is the text of the selected preambles, then a line feed,
    then the device program bodies in list order joined by blank lines,
    then a blank line, then the host program bodies joined by blank
    lines, so that the device programs come before the host programs.
    The selected preambles are taken from the host preambles followed by
    the device preambles: every text of these is selected once and no
    other, with the pair it is first listed in; they are in the order of
    their priorities, and those of one priority in the order they are
    listed in. *)
Theorem all_code_layout (layout : string -> string) (str : AST -> string)
    (r : TranslationUnitCodeGenerationResult)
    (hosts : list GeneratedProgram) :
  dict_values (host_programs r) = Some <$> hosts ->
  let listed := host_preambles r ++ device_preambles r in
  let chosen := result.selected listed in
  all_code (H := rendering_of layout str) r
  = Returned
      (join EmptyString ((fun p : Preamble => layout p.2) <$> chosen)
       +:+ newline
       +:+ join blank_line ((fun p => str (ast p)) <$> device_programs r)
       +:+ blank_line
       +:+ join blank_line ((fun p => str (ast p)) <$> hosts)) /\
  NoDup (snd <$> chosen) /\
  (forall text, text ∈ (snd <$> chosen) <-> text ∈ (snd <$> listed)) /\
  (forall p, p ∈ chosen ->
     head (filter (fun q : Preamble => q.2 = p.2) listed) = Some p) /\
  StronglySorted (fun p q : Preamble => p.1 <= q.1) chosen /\
  (forall k, filter (fun p : Preamble => p.1 = k) chosen
             `sublist_of` listed).
Proof.
  intros Hh listed chosen. split.
  { unfold all_code.
    by rewrite (host_program_texts_present (H := rendering_of layout str)
                  r hosts Hh). }
  unfold chosen, result.selected. split.
  { rewrite by_priority_Permutation. apply first_by_text_NoDup. }
  split.
  { intros text. rewrite by_priority_Permutation, first_by_text_texts.
    set_solver. }
  split.
  { intros p. rewrite by_priority_Permutation. apply first_by_text_first. }
  split; [apply by_priority_sorted|].
  intros k. rewrite by_priority_stable.
  etrans; [apply sublist_filter | apply first_by_text_sublist].
Qed.

Lemma all_code_layout_witness :
  all_code (H := rendering_of one_line example_str_ast) preambled_result
  = Returned
      ("#define lid(N) 0" +:+ newline
       +:+ "typedef int idx_t;" +:+ newline
       +:+ "#include <host.h>" +:+ newline
       +:+ newline
       +:+ "void knl() { }" +:+ blank_line +:+ "void knl_0() { }"
       +:+ blank_line
       +:+ "void knl_outer() { }").
Proof.
  rewrite (proj1 (all_code_layout one_line example_str_ast preambled_result
                    [mkGeneratedProgram "knl_outer" false
                       (Node "void knl_outer() { }")] eq_refl)).
  vm_compute. reflexivity.
Defined.

(** ** Sorting callable ids *)

Lemma string_le_spec (a b : string) :
  string_le a b <-> a = b \/ String_as_OT.lt a b.
Proof.
  unfold string_le, String.leb.
  destruct (String.compare a b) eqn:E.
  - apply String_as_OT.cmp_eq in E. tauto.
  - apply String_as_OT.cmp_lt in E. tauto.
  - split; [discriminate|]. intros [->|Hlt].
    + assert (String.compare b b = Eq) as Hbb by by apply String_as_OT.cmp_eq.
      congruence.
    + apply String_as_OT.cmp_lt in Hlt. unfold String_as_OT.cmp in Hlt.
      congruence.
Qed.

#[global] Instance string_le_total : Total string_le.
Proof. intros a b. apply String.leb_total. Qed.

#[global] Instance string_le_antisym : AntiSymm (=) string_le.
Proof. intros a b. apply String.leb_antisym. Qed.

#[global] Instance string_le_trans : Transitive string_le.
Proof.
  intros a b c. rewrite !string_le_spec.
  intros [->|Hab] [->|Hbc]; auto.
  right. by eapply String_as_OT.lt_trans.
Qed.

Lemma sorted_kernel_ids_sorted (table : CallablesTable) :
  StronglySorted string_le (sorted_kernel_ids table).
Proof. apply StronglySorted_merge_sort; apply _. Qed.

(** The order in which the table lists its callables does not matter. *)
Lemma sorted_kernel_ids_order_free (table table' : CallablesTable) :
  table' ≡ₚ table -> sorted_kernel_ids table' = sorted_kernel_ids table.
Proof.
  intros Hp. apply (StronglySorted_unique string_le);
    [apply sorted_kernel_ids_sorted | apply sorted_kernel_ids_sorted |].
  unfold sorted_kernel_ids, dict_keys. rewrite !merge_sort_Permutation.
  by rewrite Hp.
Qed.

(** ** The translation-unit orchestrator *)

Section orchestrator_facts.
Context {X : Type} `{Collaborators X}.

(** [generate_code_v2], one case at a time. *)
Lemma generate_code_v2_hit (t_unit : TranslationUnit) (w : World X) r :
  CACHING_ENABLED w = true ->
  code_gen_cache w !! key_builder t_unit = Some r ->
  generate_code_v2 t_unit w = (Returned r, w).
Proof.
  intros Hc Hr. unfold generate_code_v2. cbv zeta. rewrite bind_run.
  unfold cache_retrieval. rewrite Hc, Hr. reflexivity.
Qed.

Lemma generate_code_v2_abort (t_unit : TranslationUnit) (w : World X) :
  CACHING_ENABLED w = true ->
  code_gen_cache w !! key_builder t_unit = None ->
  ABORT_ON_CACHE_MISS w = true ->
  generate_code_v2 t_unit w = (Raised KeyError, w).
Proof.
  intros Hc Hr Ha. unfold generate_code_v2. cbv zeta. rewrite bind_run.
  unfold cache_retrieval. rewrite Hc, Hr, Ha. reflexivity.
Qed.

Lemma generate_code_v2_miss (t_unit : TranslationUnit) (w : World X) :
  CACHING_ENABLED w = true ->
  code_gen_cache w !! key_builder t_unit = None ->
  ABORT_ON_CACHE_MISS w = false ->
  generate_code_v2 t_unit w
  = match (t_unit ← prepare t_unit; assemble t_unit) (emission w) with
    | (Returned cgr, e) =>
        (Returned cgr,
         mkWorld true false (<[key_builder t_unit := cgr]> (code_gen_cache w))
                 e)
    | (Raised ex, e) => (Raised ex, mkWorld true false (code_gen_cache w) e)
    end.
Proof.
  destruct w as [caching abort cache em]. cbn. intros -> Hr ->.
  unfold generate_code_v2. cbn. rewrite bind_run.
  unfold cache_retrieval. cbn. rewrite Hr.
  rewrite bind_run. unfold in_emission. cbn.
  destruct ((t_unit ← prepare t_unit; assemble t_unit) em)
    as [[cgr|ex] e]; [|reflexivity].
  rewrite bind_run.
  unfold store_if_not_present, modify. cbn. rewrite Hr. reflexivity.
Qed.

Lemma generate_code_v2_uncached (t_unit : TranslationUnit) (w : World X) :
  CACHING_ENABLED w = false ->
  generate_code_v2 t_unit w
  = match (t_unit ← prepare t_unit; assemble t_unit) (emission w) with
    | (o, e) =>
        (o, mkWorld false (ABORT_ON_CACHE_MISS w) (code_gen_cache w) e)
    end.
Proof.
  destruct w as [caching abort cache em]. cbn. intros ->.
  unfold generate_code_v2. cbn. rewrite bind_run.
  unfold cache_retrieval. cbn.
  rewrite bind_run. unfold in_emission. cbn.
  destruct ((t_unit ← prepare t_unit; assemble t_unit) em)
    as [[cgr|ex] e]; [|reflexivity].
  rewrite bind_run, ret_run, ret_run. reflexivity.
Qed.

(** C6: with caching enabled, a cached result is returned at once, the
    world untouched; a call of [generate_code_v2] that returned is
    followed, on the same unit, by a call that returns the same result
    from the cache and leaves the world, with whatever the collaborators
    record in it, as it was, so that no stage ran again; and no call,
    cached or not, changes the entry of a key that the cache already
    has. *)
Theorem generate_code_v2_cached (t_unit : TranslationUnit) (w : World X) :
  (CACHING_ENABLED w = true ->
   forall r, code_gen_cache w !! key_builder t_unit = Some r ->
             generate_code_v2 t_unit w = (Returned r, w)) /\
  (CACHING_ENABLED w = true ->
   forall r w1,
     generate_code_v2 t_unit w = (Returned r, w1) ->
     code_gen_cache w1 !! key_builder t_unit = Some r /\
     generate_code_v2 t_unit w1 = (Returned r, w1)) /\
  (forall k v,
     code_gen_cache w !! k = Some v ->
     code_gen_cache (generate_code_v2 t_unit w).2 !! k = Some v).
Proof.
  split; [|split].
  - intros Hc r Hr. by apply generate_code_v2_hit.
  - intros Hc r w1 Hrun.
    destruct (code_gen_cache w !! key_builder t_unit) as [r0|] eqn:Hr.
    + rewrite (generate_code_v2_hit _ _ _ Hc Hr) in Hrun.
      injection Hrun as <- <-. split; [done|]. by apply generate_code_v2_hit.
    + destruct (ABORT_ON_CACHE_MISS w) eqn:Ha.
      { by rewrite (generate_code_v2_abort _ _ Hc Hr Ha) in Hrun. }
      rewrite (generate_code_v2_miss _ _ Hc Hr Ha) in Hrun.
      destruct ((t_unit ← prepare t_unit; assemble t_unit) (emission w))
        as [[cgr|ex] e]; [|discriminate].
      injection Hrun as <- <-.
      assert (code_gen_cache
                (mkWorld true false
                   (<[key_builder t_unit := cgr]> (code_gen_cache w)) e)
              !! key_builder t_unit = Some cgr) as Hin
        by apply lookup_insert_eq.
      split; [exact Hin|]. by apply generate_code_v2_hit.
  - intros k v Hk.
    destruct (CACHING_ENABLED w) eqn:Hc.
    + destruct (code_gen_cache w !! key_builder t_unit) as [r0|] eqn:Hr.
      { by rewrite (generate_code_v2_hit _ _ _ Hc Hr). }
      destruct (ABORT_ON_CACHE_MISS w) eqn:Ha.
      { by rewrite (generate_code_v2_abort _ _ Hc Hr Ha). }
      rewrite (generate_code_v2_miss _ _ Hc Hr Ha).
      destruct ((t_unit ← prepare t_unit; assemble t_unit) (emission w))
        as [[cgr|ex] e]; [|done].
      cbn. rewrite lookup_insert_ne; [done|]. congruence.
    + rewrite (generate_code_v2_uncached _ _ Hc).
      by destruct ((t_unit ← prepare t_unit; assemble t_unit) (emission w)).
Qed.

(** A unit without kernels gives the collection loop nothing to do. *)
Lemma sorted_kernel_ids_no_kernel (table : CallablesTable) :
  Forall (fun kv => is_CallableKernel kv.2 = false) table ->
  sorted_kernel_ids table = [].
Proof.
  intros Hno. unfold sorted_kernel_ids.
  replace (filter (fun kv => is_CallableKernel kv.2 = true) table)
    with (@nil (CallableId * InKernelCallable)); [reflexivity|].
  symmetry. induction Hno as [|kv table Hkv _ IH]; [reflexivity|].
  rewrite filter_cons_False by congruence. exact IH.
Qed.

Lemma collect_programs_no_kernel (t_unit : TranslationUnit) (e : Emission X) :
  Forall (fun kv => is_CallableKernel kv.2 = false)
         (tu_callables_table t_unit) ->
  collect_programs t_unit e = (Returned (mkCollected [] [] [] []), e).
Proof.
  intros Hno. unfold collect_programs.
  by rewrite (sorted_kernel_ids_no_kernel _ Hno).
Qed.

Lemma assemble_without_device_program (t_unit : TranslationUnit)
    (e e1 : Emission X) (c : Collected) :
  collect_programs t_unit e = (Returned c, e1) ->
  col_device_programs c = [] ->
  exists ex e2,
    assemble t_unit e = (Raised ex, e2) /\
    (forall ps e3,
       collect_callable_preambles t_unit (col_device_preambles c) e1
       = (Returned ps, e3) ->
       ex = IndexError /\ e2 = e3).
Proof.
  intros Hc Hd. unfold assemble. rewrite bind_run, Hc, bind_run.
  destruct (collect_callable_preambles t_unit (col_device_preambles c) e1)
    as [[ps|ex] e2] eqn:Hp.
  - rewrite bind_run, Hd. exists IndexError, e2. split; [reflexivity|].
    by intros ? ? [= <- <-].
  - exists ex, e2. split; [reflexivity|]. discriminate.
Qed.

(** C10: past the cache lookup, [generate_code_v2] needs a device
    program.  When the collection loop ends with no device program, the
    assembly raises; it is the [IndexError] of [device_programs\[0\]]
    whenever the preamble loop before it returns.  A prepared unit without
    a [CallableKernel] is such a case: the loop has nothing to run, and
    [generate_code_v2] on a cache miss (or with caching off) raises and
    leaves the cache as it was: no empty result is produced or stored. *)
Theorem generate_code_v2_needs_a_device_program (t_unit : TranslationUnit)
    (w : World X) :
  (forall e c e1,
     collect_programs t_unit e = (Returned c, e1) ->
     col_device_programs c = [] ->
     exists ex e2,
       assemble t_unit e = (Raised ex, e2) /\
       (forall ps e3,
          collect_callable_preambles t_unit (col_device_preambles c) e1
          = (Returned ps, e3) ->
          ex = IndexError /\ e2 = e3)) /\
  (cache_retrieval t_unit w = (Returned None, w) ->
   forall prepared e1,
     prepare t_unit (emission w) = (Returned prepared, e1) ->
     Forall (fun kv => is_CallableKernel kv.2 = false)
            (tu_callables_table prepared) ->
     exists ex w',
       generate_code_v2 t_unit w = (Raised ex, w') /\
       code_gen_cache w' = code_gen_cache w /\
       (forall ps e2,
          collect_callable_preambles prepared [] e1 = (Returned ps, e2) ->
          ex = IndexError /\ emission w' = e2)).
Proof.
  split.
  - intros e c e1. apply assemble_without_device_program.
  - intros Hmiss prepared e1 Hprep Hno.
    destruct (assemble_without_device_program prepared e1 e1
                (mkCollected [] [] [] [])
                (collect_programs_no_kernel prepared e1 Hno) eq_refl)
      as (ex & e2 & Hasm & Hix).
    assert ((t_unit ← prepare t_unit; assemble t_unit) (emission w)
            = (Raised ex, e2)) as Hrun
      by (rewrite bind_run, Hprep; exact Hasm).
    unfold cache_retrieval in Hmiss.
    destruct (CACHING_ENABLED w) eqn:Hc.
    + destruct (code_gen_cache w !! key_builder t_unit) eqn:Hr;
        [discriminate|].
      destruct (ABORT_ON_CACHE_MISS w) eqn:Ha; [discriminate|].
      rewrite (generate_code_v2_miss _ _ Hc Hr Ha), Hrun.
      eexists _, _. split; [reflexivity|]. split; [reflexivity|].
      intros ps e3 Hps. destruct (Hix ps e3 Hps) as [-> ->]. done.
    + rewrite (generate_code_v2_uncached _ _ Hc), Hrun.
      eexists _, _. split; [reflexivity|]. split; [reflexivity|].
      intros ps e3 Hps. destruct (Hix ps e3 Hps) as [-> ->]. done.
Qed.

(** One returning round of the collection loop. *)
Lemma collect_one_returns (t_unit : TranslationUnit) (acc acc1 : Collected)
    (func_id : CallableId) (w w1 : Emission X) :
  collect_one t_unit acc func_id w = (Returned acc1, w1) ->
  exists knl cgr,
    t_unit_getitem t_unit func_id = Returned knl /\
    generate_code_for_a_single_kernel knl (tu_callables_table t_unit)
      (tu_target t_unit) (bool_decide (func_id ∈ entrypoints t_unit)) w
    = (Returned cgr, w1) /\
    col_device_programs acc1
    = col_device_programs acc ++ cgr_device_programs cgr /\
    (func_id ∈ entrypoints t_unit -> callee_fdecls acc1 = callee_fdecls acc) /\
    (func_id ∉ entrypoints t_unit ->
     exists dp decl,
       cgr_device_programs cgr = [dp] /\
       fdecl (ast dp) = Returned decl /\
       callee_fdecls acc1 = callee_fdecls acc ++ [decl]).
Proof.
  unfold collect_one. rewrite bind_run, lift_outcome_run.
  destruct (t_unit_getitem t_unit func_id) as [knl|] eqn:Hget;
    [|discriminate].
  rewrite bind_run.
  destruct (generate_code_for_a_single_kernel _ _ _ _ w) as [[cgr|] w2]
    eqn:Hrun; [|discriminate].
  rewrite bind_run. case_bool_decide as Hentry.
  - rewrite ret_run, ret_run. intros [= <- <-].
    exists knl, cgr. do 4 (split; [done|]). intros Hout. by destruct Hout.
  - rewrite bind_run, lift_outcome_run.
    destruct (cgr_device_programs cgr) as [|dp [|dp' rest]] eqn:Hdp;
      cbn [List.length py_assert]; try discriminate.
    rewrite bool_decide_eq_true_2 by done. cbn [py_assert].
    rewrite bind_run, lift_outcome_run.
    destruct (fdecl (ast dp)) as [decl|] eqn:Hdecl; [|discriminate].
    rewrite ret_run, ret_run. intros [= <- <-].
    exists knl, cgr. rewrite Hdp. do 4 (split; [done|]).
    intros _. by exists dp, decl.
Qed.

End orchestrator_facts.

(** The unit whose only callable is the scalar [sin]. *)
Example kernelless_unit_fails :
  generate_code_v2 (H := example_collaborators) kernelless_unit fresh_world
  = (Raised IndexError,
     mkWorld true false ∅ (mkEmission [] [] 5%nat)).
Proof. vm_compute. reflexivity. Qed.

Lemma generate_code_v2_needs_a_device_program_witness :
  exists ex w',
    generate_code_v2 (H := example_collaborators) kernelless_unit fresh_world
    = (Raised ex, w') /\
    code_gen_cache w' = ∅.
Proof.
  destruct (proj2 (generate_code_v2_needs_a_device_program
                     (H := example_collaborators) kernelless_unit fresh_world)
                  eq_refl kernelless_unit (mkEmission [] [] 4%nat) eq_refl)
    as (ex & w' & Hrun & Hcache & _).
  { repeat constructor. }
  exists ex, w'. split; [exact Hrun | exact Hcache].
Defined.

(** Two calls in a row on a fresh cache: the first runs the pipeline (the
    collaborators are called eight times), the second only reads the
    cache. *)
Example second_call_reads_the_cache :
  exists r w1,
    generate_code_v2 (H := example_collaborators) single_kernel_unit
      fresh_world = (Returned r, w1) /\
    collaborator_state (emission w1) = 8%nat /\
    generate_code_v2 (H := example_collaborators) single_kernel_unit w1
    = (Returned r, w1).
Proof.
  destruct (generate_code_v2 (H := example_collaborators) single_kernel_unit
              fresh_world) as [o w1] eqn:E.
  vm_compute in E. injection E as <- <-.
  eexists _, _. split; [reflexivity|]. split; [reflexivity|].
  vm_compute. reflexivity.
Qed.

Lemma generate_code_v2_cached_witness :
  exists r w1,
    generate_code_v2 (H := example_collaborators) single_kernel_unit
      fresh_world = (Returned r, w1) /\
    code_gen_cache w1
      !! @key_builder nat example_collaborators single_kernel_unit = Some r /\
    generate_code_v2 (H := example_collaborators) single_kernel_unit w1
    = (Returned r, w1).
Proof.
  eassert (generate_code_v2 (H := example_collaborators) single_kernel_unit
             fresh_world = (Returned _, _)) as Hrun
    by (vm_compute; reflexivity).
  eexists _, _. split; [exact Hrun|].
  exact (proj1 (proj2 (generate_code_v2_cached (H := example_collaborators)
                         single_kernel_unit fresh_world)) eq_refl _ _ Hrun).
Defined.


(** * Further properties *)

(** ** Fixing a dimension that the domain already has *)

Lemma index_of_Some_lt {A} `{EqDecision A} (x : A) (l : list A) (i : nat) :
  isl.index_of x l = Some i -> (i < List.length l)%nat.
Proof.
  revert i. induction l as [|y l IH]; intros i; simpl; [done|].
  case_decide.
  - intros [= <-]. lia.
  - destruct (isl.index_of x l) as [j|]; simpl; [|done].
    intros [= <-]. specialize (IH j eq_refl). lia.
Qed.

Lemma var_dict_lookup_in_range (sp : isl.Space) (k : string) dt pos :
  isl.var_dict_lookup sp k = Some (dt, pos) ->
  (pos < isl.space_dim sp dt)%nat.
Proof.
  unfold isl.var_dict_lookup.
  destruct (isl.index_of (Some k) (isl.space_params sp)) as [i|] eqn:Ep.
  - intros [= <- <-]. by apply index_of_Some_lt in Ep.
  - destruct (isl.index_of (Some k) (isl.space_set sp)) as [i|] eqn:Es;
      [|done].
    intros [= <- <-]. by apply index_of_Some_lt in Es.
Qed.

Lemma set_coeff_zeros_inside (n pos : nat) (v : Z) :
  (pos < n)%nat ->
  isl.set_coeff (replicate n 0) pos v = <[pos := v]> (replicate n 0).
Proof.
  intros Hlt. unfold isl.set_coeff. rewrite length_replicate.
  replace (S pos - n)%nat with 0%nat by lia. simpl. by rewrite app_nil_r.
Qed.

Lemma dot_unit (n pos : nat) (v x : Z) (vs : list Z) :
  vs !! pos = Some x ->
  isl.dot (<[pos := v]> (replicate n 0)) vs
  = if decide (pos < n)%nat then v * x else 0.
Proof.
  revert pos vs. induction n as [|n IH]; intros pos vs Hx; simpl.
  - by destruct vs.
  - destruct pos as [|pos], vs as [|y vs]; simpl in *; try done.
    + injection Hx as ->. rewrite dot_zeros. lia.
    + rewrite (IH pos vs Hx). repeat case_decide; lia.
Qed.

(** [fix(k, c)] on a state whose domain has a dimension or parameter
    called [k] adds no dimension: the space stays as it is, every basic
    set receives the one equality, which holds exactly of the points whose
    coordinate for [k] is [c], the substitution map binds [k] to [c], and
    no other field changes. *)
Theorem fix_existing_dimension (self : CodeGenerationState) (k : string)
    (c : Z) (dt : isl.dim_type) (pos : nat) :
  isl.var_dict_lookup (isl.get_space (implemented_domain self)) k
    = Some (dt, pos) ->
  exists st' cns,
    fix_ self k (constant_aff c) = Returned st' /\
    isl.get_space (implemented_domain st')
      = isl.get_space (implemented_domain self) /\
    isl.disjuncts (implemented_domain st')
      = (fun cs => cs ++ [cns]) <$> isl.disjuncts (implemented_domain self) /\
    isl.is_equality cns = true /\
    (forall p x, coordinate p dt pos = Some x ->
                 isl.satisfies p cns <-> x = c) /\
    var_subst_map st' = <[k := Constant c]> (var_subst_map self) /\
    copy_implemented_domain (copy_var_subst_map st' (var_subst_map self))
      (implemented_domain self) = self.
Proof.
  intros Hk. pose proof (var_dict_lookup_in_range _ _ _ _ Hk) as Hpos.
  unfold fix_, isl.has_name. rewrite Hk.
  rewrite bool_decide_eq_true_2 by eauto.
  unfold iname_rel_aff_eq. rewrite Hk, align_spaces_constant.
  cbn [mbind Outcome_bind].
  eexists _, _. split; [reflexivity|].
  split; [reflexivity|]. split; [reflexivity|]. split; [reflexivity|].
  split; [|split; [reflexivity | by destruct self]].
  intros p x Hx. unfold isl.satisfies, isl.equality_from_aff; cbn.
  unfold isl.eval_aff, isl.add_coefficient_val.
  destruct dt; cbn in *; rewrite coeff_zeros, set_coeff_zeros_inside by done.
  - rewrite (dot_unit _ _ _ x _ Hx), dot_zeros.
    rewrite decide_True by done. lia.
  - rewrite (dot_unit _ _ _ x _ Hx), dot_zeros.
    rewrite decide_True by done. lia.
Qed.

Lemma fix_existing_dimension_witness :
  exists st',
    fix_ (example_state None) "i" (constant_aff 3) = Returned st' /\
    isl.get_space (implemented_domain st')
      = isl.mkSpace [Some "n"] [Some "i"] /\
    var_subst_map st' = <["i" := Constant 3]> ∅.
Proof.
  destruct (fix_existing_dimension (example_state None) "i" 3 isl.set 0
              eq_refl)
    as (st' & cns & Hfix & Hsp & _ & _ & _ & Hmap & _).
  exists st'. split; [exact Hfix|]. split; [exact Hsp | exact Hmap].
Defined.

(** ** Assigning many variables *)

Lemma foldl_insert_lookup_other (assignments : dict string Expression)
    (m : gmap string Expression) (name : string) :
  name ∉ dict_keys assignments ->
  foldl (fun m '(n, v) => <[n := v]> m) m assignments !! name = m !! name.
Proof.
  revert m. induction assignments as [|[n v] l IH]; intros m Hn; [done|].
  cbn in *. apply not_elem_of_cons in Hn as [Hne Hn].
  rewrite IH by done. by rewrite lookup_insert_ne.
Qed.

(** [copy_and_assign_many] is [copy_and_assign], once per assignment in
    order: assigning two batches is assigning the first and then the
    second, so the last assignment to a name is the one that holds, and a
    name that is not assigned keeps its binding. *)
Theorem copy_and_assign_many_in_order (self : CodeGenerationState)
    (first second : dict string Expression) (name : string)
    (value : Expression) :
  copy_and_assign_many self (first ++ second)
    = copy_and_assign_many (copy_and_assign_many self first) second /\
  copy_and_assign_many self (first ++ [(name, value)])
    = copy_and_assign (copy_and_assign_many self first) name value /\
  var_subst_map (copy_and_assign_many self (first ++ [(name, value)])) !! name
    = Some value /\
  (name ∉ dict_keys first ->
   var_subst_map (copy_and_assign_many self first) !! name
   = var_subst_map self !! name).
Proof.
  split; [|split; [|split]].
  - unfold copy_and_assign_many. cbn. by rewrite foldl_app.
  - unfold copy_and_assign_many, copy_and_assign. cbn.
    by rewrite foldl_app.
  - unfold copy_and_assign_many. cbn. rewrite foldl_app. cbn.
    apply lookup_insert_eq.
  - intros Hn. unfold copy_and_assign_many. cbn.
    by apply foldl_insert_lookup_other.
Qed.

Lemma copy_and_assign_many_in_order_witness :
  var_subst_map
    (copy_and_assign_many (example_state None)
       [("i", Constant 0); ("j", Constant 1); ("i", Constant 2)]) !! "i"
  = Some (Constant 2) /\
  var_subst_map
    (copy_and_assign_many (example_state None) [("i", Constant 0)]) !! "j"
  = None.
Proof.
  split.
  - exact (proj1 (proj2 (proj2 (copy_and_assign_many_in_order
             (example_state None) [("i", Constant 0); ("j", Constant 1)] []
             "i" (Constant 2))))).
  - apply (proj2 (proj2 (proj2 (copy_and_assign_many_in_order
             (example_state None) [("i", Constant 0)] [] "j" (Constant 0))))).
    cbn. apply not_elem_of_cons. split; [discriminate | apply not_elem_of_nil].
Defined.

(** ** The edges of unrolling *)

Lemma for_each_app {W A S} (body : S -> A -> M W S) (xs ys : list A)
    (acc : S) (w : W) :
  for_each (xs ++ ys) body acc w
  = match for_each xs body acc w with
    | (Returned acc1, w1) => for_each ys body acc1 w1
    | (Raised e, w1) => (Raised e, w1)
    end.
Proof.
  revert acc w. induction xs as [|x xs IH]; intros acc w; [reflexivity|].
  cbn [app for_each]. rewrite !bind_run.
  destruct (body acc x w) as [[acc1|e] w1]; [apply IH | reflexivity].
Qed.

Lemma py_range_split (n : Z) (j : nat) :
  (j < Z.to_nat n)%nat ->
  py_range n
  = py_range (Z.of_nat j) ++ Z.of_nat j
      :: (Z.of_nat <$> seq (S j) (Z.to_nat n - S j)).
Proof.
  intros Hj. unfold py_range. rewrite Nat2Z.id.
  replace (Z.to_nat n) with (j + S (Z.to_nat n - S j))%nat at 1 by lia.
  rewrite seq_app, fmap_app. reflexivity.
Qed.

Section unrolling_edges.
Context {X : Type} `{Collaborators X}.

(** [unvectorize] outside a vectorizing state is an [AssertionError]
    before anything is called; with a [length] of zero or less there is no
    lane, [func] is not called, and the result is the merge of no
    fragment at all. *)
Theorem unvectorize_without_lanes (self : CodeGenerationState)
    (func : EmissionFunction X) (w : Emission X) :
  (vectorization_info self = None ->
   unvectorize self func w = (Raised AssertionError, w)) /\
  (forall vinf,
     vectorization_info self = Some vinf ->
     VectorizationInfo.length vinf <= 0 ->
     unvectorize self func w = merge_codegen_results self [] w).
Proof.
  split.
  - intros Hv. unfold unvectorize. by rewrite Hv.
  - intros vinf Hv Hlen. unfold unvectorize. rewrite Hv. cbn [not_none].
    rewrite bind_run, lift_outcome_run, bind_run. unfold py_range.
    replace (Z.to_nat (VectorizationInfo.length vinf)) with 0%nat by lia.
    reflexivity.
Qed.

(** A lane that fails ends the unrolling: when the calls for the lanes
    before lane [j] return and the call for lane [j] raises, whatever the
    exception, [unvectorize] raises it in the world that call left: no
    later lane is generated and nothing is merged. *)
Theorem unvectorize_stops_at_failing_lane (self : CodeGenerationState)
    (vinf : VectorizationInfo.t) (func : EmissionFunction X) (j : nat)
    (before : list CodeGenerationState) (st : CodeGenerationState)
    (gs : list Generated) (w w1 w2 : Emission X) (e : Exception) :
  vectorization_info self = Some vinf ->
  (j < Z.to_nat (VectorizationInfo.length vinf))%nat ->
  Forall2 (fun i st => lane_state self vinf i = Returned st)
          (py_range (Z.of_nat j)) before ->
  lane_state self vinf (Z.of_nat j) = Returned st ->
  calls func before w gs w1 ->
  func st w1 = (Raised e, w2) ->
  unvectorize self func w = (Raised e, w2).
Proof.
  intros Hv Hj Hbefore Hst Hcalls Hfail.
  unfold unvectorize. rewrite Hv. cbn [not_none].
  rewrite bind_run, lift_outcome_run, bind_run.
  rewrite (py_range_split _ j Hj), for_each_app.
  pose proof (proj2 (unvectorize_loop self vinf func _ _ Hbefore [] w
                       (mjoin (fragments <$> gs)) w1)
                    (ex_intro _ gs (conj Hcalls eq_refl))) as Hloop.
  unfold lane_state in Hloop, Hst. rewrite Hloop.
  cbn [for_each]. rewrite bind_run, bind_run, lift_outcome_run, Hst.
  rewrite bind_run, Hfail. reflexivity.
Qed.

End unrolling_edges.

Lemma unvectorize_without_lanes_witness :
  unvectorize (H := example_collaborators) (example_state None) scalar_only
    empty_emission = (Raised AssertionError, empty_emission) /\
  unvectorize (H := example_collaborators)
    (example_state (Some (VectorizationInfo.mk "i" (-3)))) scalar_only
    empty_emission
  = (Returned (mkCodeGenerationResult None [] [] [] []),
     mkEmission [] [] 1%nat).
Proof.
  split.
  - exact (proj1 (unvectorize_without_lanes (H := example_collaborators)
                    (example_state None) scalar_only empty_emission) eq_refl).
  - rewrite (proj2 (unvectorize_without_lanes (H := example_collaborators)
                      (example_state (Some (VectorizationInfo.mk "i" (-3))))
                      scalar_only empty_emission)
                   (VectorizationInfo.mk "i" (-3)) eq_refl);
      [reflexivity | cbn; lia].
Defined.

Lemma unvectorize_stops_at_failing_lane_witness :
  exists w2,
    unvectorize (H := example_collaborators) (example_state (Some four_lanes))
      fails_on_lane_two empty_emission
    = (Raised (OtherException "lane 2"), w2) /\
    collaborator_state w2 = 2%nat.
Proof.
  eassert (lane_state (example_state (Some four_lanes)) four_lanes 0
           = Returned _) as H0 by (vm_compute; reflexivity).
  eassert (lane_state (example_state (Some four_lanes)) four_lanes 1
           = Returned _) as H1 by (vm_compute; reflexivity).
  eassert (lane_state (example_state (Some four_lanes)) four_lanes
             (Z.of_nat 2) = Returned _) as Hst by (vm_compute; reflexivity).
  eassert (Forall2 (fun i st => lane_state (example_state (Some four_lanes))
                                  four_lanes i = Returned st)
                   (py_range (Z.of_nat 2)) [_; _]) as Hbefore
    by (constructor; [exact H0 | constructor; [exact H1 | constructor]]).
  match type of Hbefore with
  | Forall2 _ _ ?lanes =>
      eassert (calls fails_on_lane_two lanes empty_emission _ _) as Hcalls
  end.
  { eapply calls_cons; [vm_compute; reflexivity|].
    eapply calls_cons; [vm_compute; reflexivity|]. apply calls_nil. }
  eexists. split.
  - eapply (unvectorize_stops_at_failing_lane (H := example_collaborators)
              (example_state (Some four_lanes)) four_lanes fails_on_lane_two
              2 _ _ _ empty_emission _ _ _ eq_refl);
      [cbn; lia | exact Hbefore | exact Hst | exact Hcalls
       | vm_compute; reflexivity].
  - reflexivity.
Defined.

(** ** Divergence in general *)

Lemma dict_set_fresh {V} (d : dict string V) (k : string) (v : V) :
  k ∉ dict_keys d -> dict_set d k v = d ++ [(k, v)].
Proof.
  induction d as [|[k' v'] d IH]; intros Hk; [reflexivity|].
  cbn in *. apply not_elem_of_cons in Hk as [Hne Hk].
  rewrite decide_False by done. by rewrite IH.
Qed.

Lemma rename_one_entry (r : dict CallableId string) (acc : CallablesTable)
    (item : CallableId * InKernelCallable) :
  rename_one r acc item
  = dict_set acc (renamed_entry r item).1 (renamed_entry r item).2.
Proof. by destruct item as [k [sub|s]]. Qed.

Lemma foldl_rename_distinct (r : dict CallableId string)
    (table acc : CallablesTable) :
  NoDup (dict_keys acc ++ (renamed r <$> dict_keys table)) ->
  foldl (rename_one r) acc table = acc ++ (renamed_entry r <$> table).
Proof.
  revert acc. induction table as [|item table IH]; intros acc Hnd.
  - cbn. by rewrite app_nil_r.
  - cbn [foldl fmap list_fmap]. rewrite rename_one_entry.
    cbn in Hnd. apply NoDup_app in Hnd as (Hacc & Hdisj & Htab).
    apply NoDup_cons in Htab as [Hfresh Htab].
    rewrite dict_set_fresh.
    + rewrite IH.
      * by rewrite <- app_assoc.
      * unfold dict_keys. rewrite fmap_app. cbn.
        rewrite <- app_assoc. cbn. apply NoDup_app. split; [done|].
        split; [|by apply NoDup_cons].
        intros x Hx. apply Hdisj. exact Hx.
    + cbn. intros Hin. apply (Hdisj _ Hin). left.
Qed.

(** When the new names are all different, the second loop of
    [diverge_callee_entrypoints] is a map: every callable stays at its
    place in the table, under its new name, with its call sites
    rewritten. *)
Theorem rename_callables_distinct (table : CallablesTable)
    (r : dict CallableId string) :
  NoDup (renamed r <$> dict_keys table) ->
  rename_callables table r = renamed_entry r <$> table /\
  dict_keys (rename_callables table r) = renamed r <$> dict_keys table /\
  List.length (rename_callables table r) = List.length table.
Proof.
  intros Hnd.
  assert (rename_callables table r = renamed_entry r <$> table) as ->.
  { unfold rename_callables. by rewrite foldl_rename_distinct. }
  split; [done|]. split.
  - unfold dict_keys. rewrite <- !list_fmap_compose. reflexivity.
  - by rewrite length_fmap.
Qed.

Lemma rename_callables_distinct_witness :
  rename_callables (tu_callables_table entrypoint_called_unit)
    [("f", "f_0")]
  = [("f_0", CallableKernel (example_kernel "f_0" []));
     ("g", CallableKernel (example_kernel "g" ["f_0"]))].
Proof.
  rewrite (proj1 (rename_callables_distinct
                    (tu_callables_table entrypoint_called_unit)
                    [("f", "f_0")] ltac:(vm_compute; repeat constructor;
                                         set_solver))).
  reflexivity.
Defined.

(** With two keys that get the same new name, one callable is lost. *)
Example rename_callables_collision :
  rename_callables (tu_callables_table entrypoint_called_unit) [("f", "g")]
  = [("g", CallableKernel (example_kernel "g" ["g"]))].
Proof. reflexivity. Qed.

Lemma renamed_nil (id : CallableId) : renamed [] id = id.
Proof. reflexivity. Qed.

Lemma renamed_entry_nil (item : CallableId * InKernelCallable) :
  renamed_entry [] item = name_by_key item.
Proof.
  destruct item as [k [sub|s]]; [|reflexivity].
  unfold renamed_entry, name_by_key, rename_resolved_functions_in_a_single_kernel,
    copy_name. cbn. do 3 f_equal.
  rewrite <- (list_fmap_id (call_sites sub)) at 2.
  apply list_fmap_ext. by intros.
Qed.

(** When no entrypoint is reachable as a callee, divergence renames
    nothing: every callable keeps its key and its call sites, and every
    kernel is given the name of its key; a unit whose kernels are named by
    their keys comes back as it was. *)
Theorem diverge_without_shared_entrypoint (t_unit : TranslationUnit) :
  NoDup (dict_keys (tu_callables_table t_unit)) ->
  filter (fun id => id ∈ entrypoints t_unit)
         (get_reachable_resolved_callable_ids (tu_callables_table t_unit)
            (entrypoints t_unit)) = [] ->
  diverge_callee_entrypoints t_unit
  = copy_callables_table t_unit (name_by_key <$> tu_callables_table t_unit) /\
  (Forall named_by_key (tu_callables_table t_unit) ->
   diverge_callee_entrypoints t_unit = t_unit).
Proof.
  intros Hnd Hnone.
  assert (diverge_callee_entrypoints t_unit
          = copy_callables_table t_unit
              (name_by_key <$> tu_callables_table t_unit)) as Hdiv.
  { unfold diverge_callee_entrypoints. rewrite Hnone. cbn.
    f_equal. unfold rename_callables.
    rewrite (foldl_rename_distinct [] _ []).
    - cbn. apply list_fmap_ext. intros _ item _. apply renamed_entry_nil.
    - cbn. replace (renamed [] <$> dict_keys (tu_callables_table t_unit))
        with (dict_keys (tu_callables_table t_unit)); [done|].
      rewrite <- (list_fmap_id (dict_keys (tu_callables_table t_unit))) at 1.
      apply list_fmap_ext. by intros. }
  split; [exact Hdiv|]. intros Hnamed. rewrite Hdiv.
  destruct t_unit as [tgt entry table]. unfold copy_callables_table. cbn in *.
  f_equal. rewrite <- (list_fmap_id table) at 2.
  apply Forall_fmap_ext_1. eapply Forall_impl; [exact Hnamed|].
  intros [k [sub|s]] Hk; [|reflexivity]. unfold name_by_key, named_by_key in *.
  cbn in *. subst k. by destruct sub.
Qed.

Lemma diverge_without_shared_entrypoint_witness :
  diverge_callee_entrypoints two_kernel_unit = two_kernel_unit.
Proof.
  apply (proj2 (diverge_without_shared_entrypoint two_kernel_unit
                  ltac:(vm_compute; repeat constructor; set_solver)
                  ltac:(vm_compute; reflexivity))).
  repeat constructor.
Defined.

Lemma dict_set_keys {V} (d : dict string V) (k : string) (v : V) :
  dict_keys (dict_set d k v) ⊆ dict_keys d ++ [k].
Proof.
  induction d as [|[k' v'] d IH]; cbn; [set_solver|].
  case_decide; cbn in *; set_solver.
Qed.

Lemma dict_set_Forall {V} (P : string * V -> Prop) (d : dict string V) k v :
  Forall P d -> P (k, v) -> Forall P (dict_set d k v).
Proof.
  intros Hd Hkv. induction Hd as [|[k' v'] d Hx Hd IH]; cbn.
  - by constructor.
  - case_decide; constructor; auto.
Qed.

Lemma foldl_rename_named (r : dict CallableId string)
    (table acc : CallablesTable) :
  Forall named_by_key acc ->
  Forall named_by_key (foldl (rename_one r) acc table).
Proof.
  revert acc. induction table as [|item table IH]; intros acc Hacc; [done|].
  cbn [foldl]. apply IH. rewrite rename_one_entry.
  apply dict_set_Forall; [done|]. by destruct item as [k [sub|s]].
Qed.

Lemma foldl_rename_keys (r : dict CallableId string)
    (table acc : CallablesTable) :
  dict_keys (foldl (rename_one r) acc table)
  ⊆ dict_keys acc ++ (renamed r <$> dict_keys table).
Proof.
  revert acc. induction table as [|item table IH]; intros acc; cbn.
  - by rewrite app_nil_r.
  - etrans; [apply IH|]. rewrite rename_one_entry.
    intros x Hx. apply elem_of_app in Hx as [Hx|Hx].
    + apply dict_set_keys in Hx. set_solver.
    + set_solver.
Qed.

(** Divergence touches the callables table only: the entrypoints and the
    target stay, the table does not grow, every key of the new table is
    the new name of a key of the old one, and every kernel of the new
    table carries the name it is stored under. *)
Theorem diverge_keeps_the_unit_in_shape (t_unit : TranslationUnit) :
  entrypoints (diverge_callee_entrypoints t_unit) = entrypoints t_unit /\
  tu_target (diverge_callee_entrypoints t_unit) = tu_target t_unit /\
  (List.length (tu_callables_table (diverge_callee_entrypoints t_unit))
   <= List.length (tu_callables_table t_unit))%nat /\
  dict_keys (tu_callables_table (diverge_callee_entrypoints t_unit))
    ⊆ renamed (todo_renames_of t_unit)
        <$> dict_keys (tu_callables_table t_unit) /\
  Forall named_by_key (tu_callables_table (diverge_callee_entrypoints t_unit)).
Proof.
  split; [reflexivity|]. split; [reflexivity|]. split.
  { unfold diverge_callee_entrypoints, rename_callables; cbn.
    etrans; [apply foldl_rename_length|]. cbn. lia. }
  split.
  - unfold diverge_callee_entrypoints, rename_callables; cbn.
    etrans; [apply foldl_rename_keys|]. done.
  - unfold diverge_callee_entrypoints, rename_callables; cbn.
    by apply foldl_rename_named.
Qed.

(** ** What the collection loop gathers *)

Lemma sorted_kernel_ids_NoDup (table : CallablesTable) :
  NoDup (dict_keys table) -> NoDup (sorted_kernel_ids table).
Proof.
  intros Hnd. unfold sorted_kernel_ids. rewrite merge_sort_Permutation.
  eapply sublist_NoDup; [exact Hnd|].
  unfold dict_keys. apply fmap_sublist, sublist_filter.
Qed.

(** A loop that appends what each call returns. *)
Lemma appending_loop {W A B} (f : A -> M W (list B)) (xs : list A)
    (init ps : list B) (w w' : W) :
  for_each xs (fun acc x => more ← f x; mret (acc ++ more)) init w
  = (Returned ps, w')
  <-> exists mores,
        called_in_turn f xs w mores w' /\ ps = init ++ mjoin mores.
Proof.
  revert init w. induction xs as [|x xs IH]; intros init w; cbn [for_each].
  - rewrite ret_run. split.
    + intros [= <- <-]. exists []. split; [constructor|].
      cbn. by rewrite app_nil_r.
    + intros (mores & Hc & ->). inversion Hc; subst. cbn.
      by rewrite app_nil_r.
  - rewrite bind_run, bind_run. split.
    + destruct (f x w) as [[more|] w1] eqn:Hf; [|discriminate].
      rewrite ret_run. intros (mores & Hc & ->)%IH.
      exists (more :: mores). split; [by econstructor|].
      cbn. by rewrite app_assoc.
    + intros (mores & Hc & ->).
      inversion Hc as [|? ? ? more w1 mores' ? Hf Hrest]; subst.
      rewrite Hf, ret_run. apply IH. exists mores'. split; [done|].
      cbn. by rewrite app_assoc.
Qed.

Section collection_facts.
Context {X : Type} `{Collaborators X}.

Lemma collect_one_result (t_unit : TranslationUnit) (acc acc1 : Collected)
    (func_id : CallableId) (w w1 : Emission X) :
  collect_one t_unit acc func_id w = (Returned acc1, w1) ->
  exists cgr,
    result_of t_unit func_id cgr /\
    col_device_programs acc1
      = col_device_programs acc ++ cgr_device_programs cgr /\
    col_device_preambles acc1
      = col_device_preambles acc ++ cgr_device_preambles cgr /\
    col_host_programs acc1
      = if bool_decide (func_id ∈ entrypoints t_unit)
        then dict_set (col_host_programs acc) func_id (host_program cgr)
        else col_host_programs acc.
Proof.
  unfold collect_one. rewrite bind_run, lift_outcome_run.
  destruct (t_unit_getitem t_unit func_id) as [knl|] eqn:Hget;
    [|discriminate].
  rewrite bind_run.
  destruct (generate_code_for_a_single_kernel _ _ _ _ w) as [[cgr|] w2]
    eqn:Hrun; [|discriminate].
  rewrite bind_run.
  destruct (bool_decide (func_id ∈ entrypoints t_unit)) eqn:Hentry.
  - rewrite ret_run, ret_run. intros [= <- <-].
    exists cgr. split; [exists knl, w, w2; by rewrite Hentry|]. done.
  - rewrite bind_run, lift_outcome_run.
    destruct (py_assert _); [|discriminate].
    rewrite bind_run, lift_outcome_run.
    destruct (match cgr_device_programs cgr with
              | [] => Raised IndexError
              | dp :: _ => fdecl (ast dp)
              end); [|discriminate].
    rewrite ret_run, ret_run. intros [= <- <-].
    exists cgr. split; [exists knl, w, w2; by rewrite Hentry|]. done.
Qed.

Lemma collected_run (t_unit : TranslationUnit) (ids : list CallableId)
    (acc c : Collected) (w w' : Emission X) :
  NoDup (dict_keys (col_host_programs acc) ++ ids) ->
  for_each_run (collect_one t_unit) ids acc w c w' ->
  exists results,
    Forall2 (result_of t_unit) ids results /\
    col_device_programs c
      = col_device_programs acc ++ mjoin (cgr_device_programs <$> results) /\
    col_device_preambles c
      = col_device_preambles acc ++ mjoin (cgr_device_preambles <$> results) /\
    col_host_programs c
      = col_host_programs acc ++ host_programs_of t_unit ids results.
Proof.
  intros Hnd Hrun. revert Hnd.
  induction Hrun as [acc w|id ids acc w acc1 w1 c w' Hone _ IH]; intros Hnd.
  - exists []. split; [constructor|]. cbn. by rewrite !app_nil_r.
  - apply collect_one_result in Hone as (cgr & Hres & Hdp & Hpre & Hhost).
    apply NoDup_app in Hnd as (Hacc & Hdisj & Hids).
    apply NoDup_cons in Hids as [Hid Hids].
    assert (id ∉ dict_keys (col_host_programs acc)) as Hfresh
      by (intros Hin; apply (Hdisj _ Hin); left).
    destruct IH as (results & Hall & Hdp' & Hpre' & Hhost').
    { rewrite Hhost. case_bool_decide.
      - rewrite dict_set_fresh by done. unfold dict_keys.
        rewrite fmap_app. cbn. rewrite <- app_assoc. cbn.
        apply NoDup_app. split; [done|]. split; [|by apply NoDup_cons].
        intros x Hx. apply Hdisj. exact Hx.
      - apply NoDup_app. split; [done|]. split; [|done].
        intros x Hx Hin. apply (Hdisj _ Hx). by right. }
    exists (cgr :: results). split; [by constructor|].
    rewrite Hdp', Hpre', Hhost', Hdp, Hpre, Hhost. cbn.
    rewrite <- !app_assoc. split; [done|]. split; [done|].
    unfold host_programs_of. cbn. case_bool_decide; [|done].
    rewrite dict_set_fresh by done. by rewrite <- app_assoc.
Qed.

(** The collection loop gathers, over the sorted kernel ids, the driver's
    results one per id: the device programs and the device preambles of
    all of them, concatenated in that order, and the host programs of the
    entrypoints among them, each under its id and in that order.  The keys
    of a table are distinct. *)
Theorem collect_programs_gathers (t_unit : TranslationUnit)
    (w w' : Emission X) (c : Collected) :
  NoDup (dict_keys (tu_callables_table t_unit)) ->
  collect_programs t_unit w = (Returned c, w') ->
  exists results,
    Forall2 (result_of t_unit)
            (sorted_kernel_ids (tu_callables_table t_unit)) results /\
    col_device_programs c = mjoin (cgr_device_programs <$> results) /\
    col_device_preambles c = mjoin (cgr_device_preambles <$> results) /\
    col_host_programs c
      = host_programs_of t_unit
          (sorted_kernel_ids (tu_callables_table t_unit)) results /\
    dict_keys (col_host_programs c)
      = filter (fun id => id ∈ entrypoints t_unit)
               (sorted_kernel_ids (tu_callables_table t_unit)).
Proof.
  intros Hnd Hrun. apply for_each_returns in Hrun.
  apply collected_run in Hrun as (results & Hall & Hdp & Hpre & Hhost);
    [|by apply sorted_kernel_ids_NoDup].
  exists results. cbn in *. split; [done|]. split; [done|]. split; [done|].
  split; [done|]. rewrite Hhost. clear -Hall.
  induction Hall as [|id cgr ids results _ _ IH]; [reflexivity|].
  rewrite filter_cons. unfold host_programs_of, dict_keys in *.
  cbn [zip zip_with omap list_omap]. case_bool_decide.
  - rewrite decide_True by done. cbn [fmap list_fmap fst]. by rewrite IH.
  - rewrite decide_False by done. exact IH.
Qed.

(** What [assemble] returns: the host programs as collected; the device
    programs as collected, the first of them with the callee forward
    declarations put before its AST in one collection and the others
    untouched; no host preamble; and as device preambles those collected,
    followed by what [generate_preambles] returned for the callables of
    the table, which were asked one after the other in the order of the
    table, after the collection.  The target has a device AST builder. *)
Theorem assemble_splices_first_device_program (t_unit : TranslationUnit)
    (w w' : Emission X) (r : TranslationUnitCodeGenerationResult) :
  assemble t_unit w = (Returned r, w') ->
  exists c w1 first rest mores,
    collect_programs t_unit w = (Returned c, w1) /\
    col_device_programs c = first :: rest /\
    is_Some (device_ast_builder (tu_target t_unit)) /\
    device_programs r
      = mkGeneratedProgram (program_name first) (is_device_program first)
          (Collection (callee_fdecls c ++ [ast first])) :: rest /\
    host_programs r = col_host_programs c /\
    host_preambles r = [] /\
    called_in_turn (fun clbl => generate_preambles clbl (tu_target t_unit))
      (dict_values (tu_callables_table t_unit)) w1 mores w' /\
    device_preambles r = col_device_preambles c ++ mjoin mores.
Proof.
  unfold assemble. rewrite bind_run.
  destruct (collect_programs t_unit w) as [[c|] w1] eqn:Hc; [|discriminate].
  rewrite bind_run.
  destruct (collect_callable_preambles _ _ w1) as [[ps|] w2] eqn:Hps;
    [|discriminate].
  rewrite bind_run.
  destruct (col_device_programs c) as [|first rest] eqn:Hdp; [discriminate|].
  rewrite bind_run, lift_outcome_run. unfold get_device_ast_builder.
  destruct (device_ast_builder (tu_target t_unit)) as [b|] eqn:Hb;
    [|discriminate].
  rewrite ret_run, ret_run. intros [= <- <-].
  apply appending_loop in Hps as (mores & Hcalls & ->).
  exists c, w1, first, rest, mores.
  split; [reflexivity|]. split; [exact Hdp|]. split; [eauto|].
  split; [reflexivity|]. split; [reflexivity|]. split; [reflexivity|].
  split; [exact Hcalls | reflexivity].
Qed.

(** What a call of [generate_code_v2] does to the cache and the switches:
    it never changes the switches; a call that raises leaves the cache as
    it was, and so does any call with caching off; with caching on, a call
    that returns [r] leaves the cache with [r] under the unit's key and
    every other entry as before; and where a miss is to abort, a miss
    raises [KeyError] and changes nothing. *)
Theorem generate_code_v2_cache_effect (t_unit : TranslationUnit)
    (w w' : World X) (o : Outcome TranslationUnitCodeGenerationResult) :
  generate_code_v2 t_unit w = (o, w') ->
  CACHING_ENABLED w' = CACHING_ENABLED w /\
  ABORT_ON_CACHE_MISS w' = ABORT_ON_CACHE_MISS w /\
  (forall e, o = Raised e -> code_gen_cache w' = code_gen_cache w) /\
  (CACHING_ENABLED w = false -> code_gen_cache w' = code_gen_cache w) /\
  (forall r, o = Returned r -> CACHING_ENABLED w = true ->
             code_gen_cache w'
             = <[key_builder t_unit := r]> (code_gen_cache w)) /\
  (CACHING_ENABLED w = true -> ABORT_ON_CACHE_MISS w = true ->
   code_gen_cache w !! key_builder t_unit = None ->
   o = Raised KeyError /\ w' = w).
Proof.
  destruct (CACHING_ENABLED w) eqn:Hc.
  - destruct (code_gen_cache w !! key_builder t_unit) as [r0|] eqn:Hr.
    { rewrite (generate_code_v2_hit _ _ _ Hc Hr). intros [= <- <-].
      repeat split; try done.
      intros r [= <-] _. symmetry. by apply insert_id. }
    destruct (ABORT_ON_CACHE_MISS w) eqn:Ha.
    { rewrite (generate_code_v2_abort _ _ Hc Hr Ha). intros [= <- <-].
      by repeat split. }
    rewrite (generate_code_v2_miss _ _ Hc Hr Ha).
    destruct ((t_unit ← prepare t_unit; assemble t_unit) (emission w))
      as [[cgr|ex] e]; intros [= <- <-]; cbn; repeat split; try done.
    by intros r [= <-].
  - rewrite (generate_code_v2_uncached _ _ Hc).
    destruct ((t_unit ← prepare t_unit; assemble t_unit) (emission w))
      as [o' e]. intros [= <- <-]. cbn. by repeat split.
Qed.

End collection_facts.

Lemma collect_programs_gathers_witness :
  exists c w',
    collect_programs (H := example_collaborators) two_kernel_unit
      empty_emission = (Returned c, w') /\
    dict_keys (col_host_programs c) = ["main"] /\
    sorted_kernel_ids (tu_callables_table two_kernel_unit)
    = ["helper"; "main"].
Proof.
  eassert (collect_programs (H := example_collaborators) two_kernel_unit
             empty_emission = (Returned _, _)) as Hrun
    by (vm_compute; reflexivity).
  destruct (collect_programs_gathers (H := example_collaborators)
              two_kernel_unit _ _ _
              ltac:(vm_compute; repeat constructor; set_solver) Hrun)
    as (results & _ & _ & _ & _ & Hkeys).
  eexists _, _. split; [exact Hrun|]. split; [|vm_compute; reflexivity].
  rewrite Hkeys. vm_compute. reflexivity.
Defined.

Lemma assemble_splices_first_device_program_witness :
  exists r w' mores,
    assemble (H := example_collaborators) two_kernel_unit empty_emission
    = (Returned r, w') /\
    device_programs r
    = [mkGeneratedProgram "helper" true
         (Collection [Node "void helper()";
                      FunctionBody "void helper()" "{ }"]);
       example_program true "main"] /\
    List.length mores = 2%nat /\
    device_preambles r = mjoin mores.
Proof.
  eassert (assemble (H := example_collaborators) two_kernel_unit
             empty_emission = (Returned _, _)) as Hrun
    by (vm_compute; reflexivity).
  destruct (assemble_splices_first_device_program
              (H := example_collaborators) two_kernel_unit _ _ _ Hrun)
    as (c & w1 & first & rest & mores & Hc & _ & _ & Hdp & _ & _ & Hcalls
        & Hpre).
  eexists _, _, mores. split; [exact Hrun|]. split; [reflexivity|].
  vm_compute in Hc. injection Hc as <- <-.
  split; [|exact Hpre].
  inversion Hcalls as [|? ? ? ? ? ? ? H1 H2]; subst.
  inversion H2 as [|? ? ? ? ? ? ? H3 H4]; subst.
  by inversion H4.
Defined.

Lemma generate_code_v2_cache_effect_witness :
  exists r w',
    generate_code_v2 (H := example_collaborators) single_kernel_unit
      fresh_world = (Returned r, w') /\
    code_gen_cache w'
    = <[@key_builder nat example_collaborators single_kernel_unit := r]> ∅.
Proof.
  eassert (generate_code_v2 (H := example_collaborators) single_kernel_unit
             fresh_world = (Returned _, _)) as Hrun
    by (vm_compute; reflexivity).
  eexists _, _. split; [exact Hrun|].
  exact (proj1 (proj2 (proj2 (proj2 (proj2
           (generate_code_v2_cache_effect (H := example_collaborators)
              single_kernel_unit _ _ _ Hrun))))) _ eq_refl eq_refl).
Defined.

(** ** The driver, step by step *)

Lemma mapM_not_none_missing {A B} (f : A -> option B) (l : list A) :
  Exists (fun x => f x = None) l ->
  mapM (fun x => not_none (f x)) l = Raised AssertionError.
Proof.
  induction l as [|x l IH]; intros Hex; [by apply Exists_nil in Hex|].
  change (mapM ?g (?y :: ?k)) with (z ← g y; r ← mapM g k; mret (z :: r)).
  destruct (f x) as [b|] eqn:Hx; cbn; rewrite Hx; cbn; [|done].
  apply Exists_cons in Hex as [Hex|Hex]; [congruence|].
  by rewrite IH.
Qed.

Lemma mapM_not_none_present {A B} (f : A -> option B) (l : list A)
    (bs : list B) :
  mapM (fun x => not_none (f x)) l = Returned bs -> omap f l = bs.
Proof.
  revert bs. induction l as [|x l IH]; intros bs.
  - by intros [= <-].
  - change (mapM ?g (?y :: ?k)) with (z ← g y; r ← mapM g k; mret (z :: r)).
    cbn. destruct (f x) as [b|]; cbn; [|done].
    destruct (mapM _ l) as [bs'|] eqn:E; cbn; [|done].
    intros [= <-]. by rewrite (IH bs' eq_refl).
Qed.

Section driver_steps.
Context {X : Type} `{Collaborators X}.

(** A variable without a type stops the driver at once: for a linearized
    kernel one of whose arguments or temporaries has no [dtype], the
    driver raises [AssertionError] before it calls anything or makes a
    collector set. *)
Theorem driver_rejects_untyped_variable (kernel : LoopKernel)
    (table : CallablesTable) (target : TargetBase) (is_entry : bool)
    (w : Emission X) :
  knl_state kernel = LINEARIZED ->
  Exists (fun var => dtype var = None) (kernel_variables kernel) ->
  generate_code_for_a_single_kernel kernel table target is_entry w
  = (Raised AssertionError, w).
Proof.
  intros Hs Hex. unfold generate_code_for_a_single_kernel, check_linearized.
  rewrite bool_decide_eq_false_2 by (intros Hne; by apply Hne).
  rewrite bind_run, lift_outcome_run.
  unfold generate_code_for_a_linearized_kernel.
  rewrite bind_run, lift_outcome_run.
  fold (kernel_variables kernel).
  by rewrite (mapM_not_none_missing dtype _ Hex).
Qed.

Lemma set_add_all (a : address) (ds : list LoopyType) (w : Emission X) :
  for_each ds (fun _ d => set_add a d) tt w
  = (Returned tt,
     mkEmission (warnings w) (add_members a ds (heap w))
                (collaborator_state w)).
Proof.
  revert w. induction ds as [|d ds IH]; intros w; cbn [for_each].
  - rewrite ret_run. by destruct w.
  - rewrite bind_run. unfold set_add at 1, modify. by rewrite IH.
Qed.

(** What a returning run of the driver did, step by step.  It made the
    three collector sets, empty, at the end of the heap.  It ran code
    emission at schedule index 0 in the initial state: for this kernel
    and target, with the three sets, not vectorizing, generating host
    code, with an empty substitution map, a domain without set
    dimensions, complex arithmetic allowed exactly if some declared type
    involves it, and the host program name made of the target's prefix,
    the kernel's name and the suffix of the kernel's target.  It rendered
    the device code of the emission's result and had the implemented
    domains checked, which succeeded.  It added the declared types to
    [seen_dtypes].  Then it called the preamble generators, those of the
    kernel before those of the target's device AST builder, one after the
    other, each with the same [PreambleInfo].  What it returns is the
    emission's result with the device preambles replaced: the kernel's
    own preambles first, then those of the emission, then what the
    generators returned, in the order of the calls. *)
Theorem driver_returns_the_emission (knl : LoopKernel)
    (table : CallablesTable) (tgt : TargetBase) (is_entry : bool)
    (w w' : Emission X) (r : CodeGenerationResult) :
  generate_code_for_a_single_kernel knl table tgt is_entry w
  = (Returned r, w') ->
  exists st cgr w2 code w3 w4 builder mores,
    generate_host_or_device_program st 0
      (mkEmission (warnings w)
         (heap w ++ [DtypeSet []; FunctionSet []; DtypeSet []])
         (collaborator_state w))
    = (Returned cgr, w2) /\
    device_code_of cgr w2 = (Returned code, w3) /\
    check_implemented_domains knl (implemented_domains cgr) code w3
    = (Returned true, w4) /\
    get_device_ast_builder tgt = Returned builder /\
    called_in_turn
      (fun prea_gen =>
         run_preamble_generator prea_gen
           (mkPreambleInfo knl (seen_dtypes st) (seen_functions st)
              (seen_atomic_dtypes st) st))
      (knl_preamble_generators knl ++ preamble_generators builder)
      (mkEmission (warnings w4)
         (add_members (seen_dtypes st) (declared_dtypes knl) (heap w4))
         (collaborator_state w4))
      mores w' /\
    r = copy_device_preambles cgr
          (preambles knl ++ cgr_device_preambles cgr ++ mjoin mores) /\
    host_program r = host_program cgr /\
    cgr_device_programs r = cgr_device_programs cgr /\
    kernel st = knl /\
    target st = tgt /\
    seen_dtypes st = List.length (heap w) /\
    seen_functions st = S (List.length (heap w)) /\
    seen_atomic_dtypes st = S (S (List.length (heap w))) /\
    vectorization_info st = None /\
    is_generating_device_code st = false /\
    is_entrypoint st = is_entry /\
    callables_table st = table /\
    var_subst_map st = ∅ /\
    isl.space_set (isl.get_space (implemented_domain st)) = [] /\
    allow_complex st
      = existsb involves_complex (omap dtype (kernel_variables knl)) /\
    gen_program_name st
      = host_program_name_prefix tgt +:+ knl_name knl
        +:+ host_program_name_suffix (knl_target knl) /\
    Some (schedule_index_end st) = List.length <$> linearization knl.
Proof.
  unfold generate_code_for_a_single_kernel. rewrite bind_run, lift_outcome_run.
  destruct (check_linearized knl); [|discriminate].
  unfold generate_code_for_a_linearized_kernel.
  rewrite bind_run, lift_outcome_run. fold (kernel_variables knl).
  destruct (mapM _ (kernel_variables knl)) as [dtypes|] eqn:Hd;
    [|discriminate].
  apply mapM_not_none_present in Hd as <-.
  rewrite bind_run. cbn [new_set]. rewrite bind_run. cbn [new_set].
  rewrite bind_run. cbn [new_set].
  rewrite bind_run, lift_outcome_run.
  destruct (linearization knl) as [schedule|]; [|discriminate].
  cbn [not_none]. rewrite bind_run.
  cbn [heap warnings collaborator_state].
  rewrite !length_app. cbn [List.length].
  replace (List.length (heap w) + 1)%nat with (S (List.length (heap w)))
    by lia.
  replace (S (List.length (heap w)) + 1)%nat
    with (S (S (List.length (heap w)))) by lia.
  rewrite <- !app_assoc. cbn [app].
  match goal with
  | |- context [generate_host_or_device_program ?s 0 ?v] =>
      set (st := s); set (w1 := v);
      destruct (generate_host_or_device_program st 0 w1) as [[cgr|] w2]
        eqn:Hgen; [|discriminate]
  end.
  rewrite bind_run.
  destruct (device_code_of cgr w2) as [[code|] w3] eqn:Hcode; [|discriminate].
  rewrite bind_run.
  destruct (check_implemented_domains _ _ _ w3) as [[ok|] w4] eqn:Hchk;
    [|discriminate].
  rewrite bind_run, lift_outcome_run.
  destruct ok; [|discriminate]. cbn [py_assert].
  rewrite bind_run, set_add_all, bind_run, set_add_all, bind_run.
  cbn [heap warnings collaborator_state].
  match goal with
  | |- context [(if ?b then _ else _) ?v] =>
      assert ((if b then set_add (List.length (heap w)) (index_dtype knl)
               else mret tt) v
              = (Returned tt,
                 mkEmission (warnings w4)
                   (add_members (List.length (heap w)) (declared_dtypes knl)
                      (heap w4))
                   (collaborator_state w4))) as ->
  end.
  { unfold declared_dtypes, add_members. rewrite !foldl_app.
    case_bool_decide; reflexivity. }
  rewrite bind_run, lift_outcome_run.
  destruct (get_device_ast_builder tgt) as [builder|]; [|discriminate].
  rewrite bind_run.
  destruct (for_each _ _ _ _) as [[ps|] w8] eqn:Hps; [|discriminate].
  rewrite ret_run. intros [= <- <-].
  apply appending_loop in Hps as (mores & Hcalls & ->).
  exists st, cgr, w2, code, w3, w4, builder, mores.
  split; [exact Hgen|]. split; [exact Hcode|]. split; [exact Hchk|].
  split; [reflexivity|]. split; [exact Hcalls|].
  split; [by rewrite <- app_assoc|]. by repeat split.
Qed.

Lemma heap_grows_refl (h : list PyObject) : heap_grows h h.
Proof. intros a s Ha. by exists s. Qed.

Lemma heap_grows_trans (h1 h2 h3 : list PyObject) :
  heap_grows h1 h2 -> heap_grows h2 h3 -> heap_grows h1 h3.
Proof.
  intros H12 H23 a s Ha.
  destruct (H12 a s Ha) as (s2 & Ha2 & Hs2).
  destruct (H23 a s2 Ha2) as (s3 & Ha3 & Hs3).
  exists s3. split; [done|]. by etrans.
Qed.

Lemma only_collects_bind {A B} (m : M (Emission X) A)
    (f : A -> M (Emission X) B) :
  only_collects m -> (forall a, only_collects (f a)) ->
  only_collects (m ≫= f).
Proof.
  intros Hm Hf w o w'. rewrite bind_run.
  destruct (m w) as [[a|e] w1] eqn:E.
  - intros Hfa. eapply heap_grows_trans; [by eapply Hm | by eapply Hf].
  - intros [= <- <-]. by eapply Hm.
Qed.

Lemma only_collects_ret {A} (a : A) :
  only_collects (mret a : M (Emission X) A).
Proof. intros w o w' [= <- <-]. apply heap_grows_refl. Qed.

Lemma only_collects_for_each {A S} (body : S -> A -> M (Emission X) S)
    (xs : list A) (acc : S) :
  (forall acc x, only_collects (body acc x)) ->
  only_collects (for_each xs body acc).
Proof.
  intros Hb. revert acc. induction xs as [|x xs IH]; intros acc; cbn.
  - apply only_collects_ret.
  - apply only_collects_bind; [apply Hb | apply IH].
Qed.

(** Adding a list of types to a collector set. *)
Lemma set_add_loop (a : nat) (ds : list LoopyType) (w : Emission X)
    (s : list LoopyType) :
  heap w !! a = Some (DtypeSet s) ->
  exists w' s',
    for_each ds (fun _ d => set_add a d) tt w = (Returned tt, w') /\
    heap w' !! a = Some (DtypeSet s') /\
    s ⊆ s' /\ ds ⊆ s'.
Proof.
  revert w s. induction ds as [|d ds IH]; intros w s Ha.
  - exists w, s. cbn. rewrite ret_run. repeat split; try done.
    intros x Hx. by apply elem_of_nil in Hx.
  - cbn [for_each]. rewrite bind_run. unfold set_add at 1, modify.
    match goal with
    | |- context [for_each ds _ tt ?v] => set (w1 := v)
    end.
    assert (exists s1, heap w1 !! a = Some (DtypeSet s1)
                       /\ s ⊆ s1 /\ d ∈ s1) as (s1 & Ha1 & Hs1 & Hd).
    { unfold w1. cbn. rewrite list_lookup_alter, Ha. cbn.
      rewrite decide_True by done. cbn.
      destruct (decide (d ∈ s)).
      - exists s. split; [done|]. split; [set_solver | done].
      - exists (s ++ [d]). split; [done|]. split; set_solver. }
    destruct (IH w1 s1 Ha1) as (w' & s' & Hrun & Ha' & Hs' & Hds).
    exists w', s'. split; [exact Hrun|]. split; [exact Ha'|].
    split; [by etrans|].
    intros x Hx. apply elem_of_cons in Hx as [->|Hx]; [by apply Hs'|].
    by apply Hds.
Qed.

(** The driver leaves the types that the kernel declares in the
    collector set [seen_dtypes], which it made first: those of the
    arguments, those of the temporaries, and the index type if the kernel
    has inames.  The collaborators only ever add to the collector sets. *)
Theorem driver_collects_declared_dtypes (knl : LoopKernel)
    (table : CallablesTable) (tgt : TargetBase) (is_entry : bool)
    (w w' : Emission X) (r : CodeGenerationResult) :
  collaborators_only_collect ->
  generate_code_for_a_single_kernel knl table tgt is_entry w
  = (Returned r, w') ->
  exists s,
    heap w' !! List.length (heap w) = Some (DtypeSet s) /\
    declared_dtypes knl ⊆ s.
Proof.
  intros (Hgen & Hdev & Hchk & Hpre).
  unfold generate_code_for_a_single_kernel. rewrite bind_run, lift_outcome_run.
  destruct (check_linearized knl); [|discriminate].
  unfold generate_code_for_a_linearized_kernel.
  rewrite bind_run, lift_outcome_run.
  destruct (mapM _ _) as [dtypes|]; [|discriminate].
  rewrite bind_run. cbn [new_set]. rewrite bind_run. cbn [new_set].
  rewrite bind_run. cbn [new_set].
  rewrite bind_run, lift_outcome_run.
  destruct (linearization knl) as [schedule|]; [|discriminate].
  cbn [not_none]. rewrite bind_run.
  set (addr := List.length (heap w)).
  match goal with
  | |- context [generate_host_or_device_program ?st 0 ?v] =>
      set (w1 := v);
      destruct (generate_host_or_device_program st 0 w1) as [[cgr|] w2]
        eqn:E2; [|discriminate]
  end.
  assert (heap w1 !! addr = Some (DtypeSet [])) as Ha1.
  { unfold w1, addr. cbn. rewrite <- !app_assoc. cbn.
    by rewrite list_lookup_middle. }
  apply Hgen in E2. destruct (E2 _ _ Ha1) as (s2 & Ha2 & _).
  rewrite bind_run.
  destruct (device_code_of cgr w2) as [[code|] w3] eqn:E3; [|discriminate].
  apply Hdev in E3. destruct (E3 _ _ Ha2) as (s3 & Ha3 & _).
  rewrite bind_run.
  destruct (check_implemented_domains _ _ _ w3) as [[ok|] w4] eqn:E4;
    [|discriminate].
  apply Hchk in E4. destruct (E4 _ _ Ha3) as (s4 & Ha4 & _).
  rewrite bind_run, lift_outcome_run.
  destruct (py_assert ok); [|discriminate].
  rewrite bind_run.
  destruct (set_add_loop addr (omap dtype (args knl)) w4 s4 Ha4)
    as (w5 & s5 & -> & Ha5 & _ & Hargs).
  rewrite bind_run.
  destruct (set_add_loop addr
              (omap dtype (dict_values (temporary_variables knl))) w5 s5 Ha5)
    as (w6 & s6 & -> & Ha6 & Hs56 & Htemps).
  rewrite bind_run.
  assert (exists w7 s7,
            (if bool_decide (all_inames knl ≠ [])
             then set_add addr (index_dtype knl) else mret tt) w6
            = (Returned tt, w7) /\
            heap w7 !! addr = Some (DtypeSet s7) /\ s6 ⊆ s7 /\
            (if bool_decide (all_inames knl ≠ []) then [index_dtype knl]
             else []) ⊆ s7) as (w7 & s7 & -> & Ha7 & Hs67 & Hindex).
  { case_bool_decide.
    - destruct (set_add_loop addr [index_dtype knl] w6 s6 Ha6)
        as (w7 & s7 & Hrun & Ha7 & Hs & Hd).
      cbn in Hrun. rewrite bind_run in Hrun.
      destruct (set_add addr (index_dtype knl) w6) as [[[]|] w7'];
        [|discriminate].
      rewrite ret_run in Hrun. injection Hrun as ->. by exists w7, s7.
    - exists w6, s6. rewrite ret_run. repeat split; try done.
      intros x Hx. by apply elem_of_nil in Hx. }
  rewrite bind_run, lift_outcome_run.
  destruct (get_device_ast_builder tgt) as [builder|]; [|discriminate].
  rewrite bind_run.
  destruct (for_each _ _ _ w7) as [[ps|] w8] eqn:E8; [|discriminate].
  apply only_collects_for_each in E8.
  2:{ intros acc g. apply only_collects_bind; [apply Hpre|].
      intros. apply only_collects_ret. }
  destruct (E8 _ _ Ha7) as (s8 & Ha8 & Hs78).
  rewrite ret_run. intros [= <- <-].
  exists s8. split; [exact Ha8|].
  unfold declared_dtypes. intros x Hx.
  apply Hs78. apply elem_of_app in Hx as [Hx|Hx].
  - apply Hs67, Hs56. by apply Hargs.
  - apply elem_of_app in Hx as [Hx|Hx].
    + apply Hs67. by apply Htemps.
    + by apply Hindex.
Qed.

End driver_steps.

Lemma example_collaborators_only_collect :
  collaborators_only_collect (H := example_collaborators).
Proof.
  repeat split; intros; intros w o w' [= <- <-]; apply heap_grows_refl.
Qed.

Lemma driver_rejects_untyped_variable_witness :
  generate_code_for_a_single_kernel (H := example_collaborators)
    untyped_kernel [] example_target true empty_emission
  = (Raised AssertionError, empty_emission).
Proof.
  apply (driver_rejects_untyped_variable (H := example_collaborators));
    [reflexivity|].
  by constructor.
Defined.

Lemma driver_returns_the_emission_witness :
  exists r w' st cgr,
    generate_code_for_a_single_kernel (H := example_collaborators)
      complex_kernel [] example_target true empty_emission = (Returned r, w')
    /\ allow_complex st = true
    /\ gen_program_name st = "knl_outer"
    /\ cgr_device_preambles r
       = [(0, "// knl")] ++ cgr_device_preambles cgr ++ [(0, "gen")].
Proof.
  eassert (generate_code_for_a_single_kernel (H := example_collaborators)
             complex_kernel [] example_target true empty_emission
           = (Returned _, _)) as Hrun by (vm_compute; reflexivity).
  destruct (driver_returns_the_emission (H := example_collaborators)
              _ _ _ _ _ _ _ Hrun)
    as (st & cgr & w2 & code & w3 & w4 & builder & mores & Hgen & _ & _
        & Hb & Hcalls & Hr & _ & _ & _ & _ & _ & _ & _ & _ & _ & _ & _ & _
        & _ & Hcomplex & Hname & _).
  eexists _, _, st, cgr. split; [exact Hrun|].
  split; [exact Hcomplex|]. split; [exact Hname|].
  injection Hb as <-.
  inversion Hcalls as [|? ? ? ? ? ? ? H1 H2]; subst.
  inversion H2; subst.
  vm_compute in H1. injection H1 as <- _.
  vm_compute in Hgen. injection Hgen as <- _. reflexivity.
Defined.

Lemma driver_collects_declared_dtypes_witness :
  exists r w' s,
    generate_code_for_a_single_kernel (H := example_collaborators)
      complex_kernel [] example_target true empty_emission = (Returned r, w')
    /\ heap w' !! 0%nat = Some (DtypeSet s)
    /\ [mkLoopyType "complex128" true; mkLoopyType "float64" false;
        mkLoopyType "int32" false] ⊆ s.
Proof.
  eassert (generate_code_for_a_single_kernel (H := example_collaborators)
             complex_kernel [] example_target true empty_emission
           = (Returned _, _)) as Hrun by (vm_compute; reflexivity).
  destruct (driver_collects_declared_dtypes (H := example_collaborators)
              _ _ _ _ _ _ _ example_collaborators_only_collect Hrun)
    as (s & Hs & Hsub).
  eexists _, _, s. split; [exact Hrun|]. split; [exact Hs | exact Hsub].
Defined.

(** ** Rendering, and the entry points built on [generate_code_v2] *)

Lemma string_append_assoc (a b c : string) :
  (a +:+ b) +:+ c = a +:+ (b +:+ c).
Proof.
  induction a as [|x a IH]; [done|].
  change (String x ((a +:+ b) +:+ c) = String x (a +:+ (b +:+ c))).
  by rewrite IH.
Qed.

Section rendering_more.
Context `{Rendering}.

Lemma host_program_texts_missing (r : TranslationUnitCodeGenerationResult) :
  None ∈ dict_values (host_programs r) ->
  host_program_texts r = Raised AttributeError.
Proof.
  unfold host_program_texts.
  induction (dict_values (host_programs r)) as [|hp hps IH]; intros Hin.
  - by apply elem_of_nil in Hin.
  - change (mapM ?g (?y :: ?k)) with (z ← g y; l ← mapM g k; mret (z :: l)).
    destruct hp as [p|]; cbn; [|done].
    apply elem_of_cons in Hin as [|Hin]; [done|]. by rewrite IH.
Qed.

Lemma all_present_or_missing (hps : list (option GeneratedProgram)) :
  None ∈ hps \/ exists hosts, hps = Some <$> hosts.
Proof.
  induction hps as [|[p|] hps [Hin|[hosts ->]]].
  - right. by exists [].
  - left. by right.
  - right. by exists (p :: hosts).
  - left. left.
  - left. left.
Qed.

Lemma host_program_texts_cases (r : TranslationUnitCodeGenerationResult) :
  (None ∈ dict_values (host_programs r)
   /\ host_program_texts r = Raised AttributeError) \/
  (exists hosts, dict_values (host_programs r) = Some <$> hosts
                 /\ host_program_texts r = Returned (program_texts hosts)).
Proof.
  destruct (all_present_or_missing (dict_values (host_programs r)))
    as [Hin|[hosts Hh]].
  - left. split; [done | by apply host_program_texts_missing].
  - right. exists hosts. split; [done|]. by apply host_program_texts_present.
Qed.

(** Rendering fails on a missing host program only: [device_code()]
    always returns; [host_code()] and [all_code()] return or fail
    together, and they fail, with [AttributeError], exactly when some
    entry of [host_programs] is [None]. *)
Theorem rendering_needs_the_host_programs
    (r : TranslationUnitCodeGenerationResult) :
  (exists text, device_code r = Returned text) /\
  (None ∈ dict_values (host_programs r)
   <-> all_code r = Raised AttributeError) /\
  (None ∈ dict_values (host_programs r)
   <-> host_code r = Raised AttributeError) /\
  (None ∉ dict_values (host_programs r)
   <-> exists text, all_code r = Returned text) /\
  (None ∉ dict_values (host_programs r)
   <-> exists text, host_code r = Returned text).
Proof.
  split; [by eexists|]. unfold all_code, host_code.
  destruct (host_program_texts_cases r) as [[Hin ->]|(hosts & Hh & ->)]; cbn.
  - split_and!; naive_solver.
  - assert (None ∉ dict_values (host_programs r)) as Hout.
    { rewrite Hh. by intros (p & Hp & _)%list_elem_of_fmap. }
    split_and!; naive_solver.
Qed.

(** When there is no host preamble, as in every result that
    [generate_code_v2] assembles, [all_code()] is [device_code()], a blank
    line, and the host programs. *)
Theorem all_code_extends_device_code
    (r : TranslationUnitCodeGenerationResult)
    (hosts : list GeneratedProgram) :
  host_preambles r = [] ->
  dict_values (host_programs r) = Some <$> hosts ->
  exists device_text,
    device_code r = Returned device_text /\
    all_code r
    = Returned (device_text +:+ blank_line
                +:+ join blank_line ((fun p => str_ast (ast p)) <$> hosts)).
Proof.
  intros Hpre Hh. eexists. split; [reflexivity|].
  unfold all_code. rewrite (host_program_texts_present r hosts Hh), Hpre.
  cbn -[String.append newline blank_line].
  f_equal. unfold program_texts. by rewrite !string_append_assoc.
Qed.

End rendering_more.

Section entry_points.
Context {X : Type} `{Collaborators X} `{Rendering} `{BodyRendering}.

Lemma generate_code_warns (kernel : TranslationUnit) (device : option string)
    (w : World X) (ws : list PyWarning) :
  generate_code kernel device (w, ws)
  = (codegen_result ← in_world (generate_code_v2 kernel);
     if bool_decide (1 < List.length (device_programs codegen_result))%nat
     then raise multiple_device_programs
     else if bool_decide (1 < List.length (host_programs codegen_result))%nat
     then raise multiple_host_programs
     else code ← lift_outcome (device_code codegen_result);
          mret (code, None))
      (w, ws ++ deprecation_warnings device).
Proof.
  unfold generate_code. destruct device as [d|].
  - rewrite bool_decide_eq_true_2 by done.
    rewrite bind_run. cbn. rewrite bind_run. cbn.
    by rewrite <- app_assoc.
  - rewrite bool_decide_eq_false_2 by (intros Hne; by apply Hne).
    rewrite bind_run, ret_run, bind_run, ret_run. cbn.
    by rewrite app_nil_r.
Qed.

(** [generate_code]: the two deprecation warnings are given exactly when
    a [device] is passed, whatever happens next.  An error of
    [generate_code_v2] is passed on.  A result with more than one device
    program is refused, and so is, after that check, one with more than
    one host program; both only after [generate_code_v2] has run, so that
    the world, cache included, is the one that it left.  Any other result
    gives its [device_code()] and [None]. *)
Theorem generate_code_refuses_many_programs (kernel : TranslationUnit)
    (device : option string) (w w' : World X) (ws : list PyWarning)
    (o : Outcome TranslationUnitCodeGenerationResult) :
  generate_code_v2 kernel w = (o, w') ->
  (generate_code kernel device (w, ws)).2
    = (w', ws ++ deprecation_warnings device) /\
  (forall e, o = Raised e ->
     (generate_code kernel device (w, ws)).1 = Raised e) /\
  (forall r, o = Returned r ->
     (1 < List.length (device_programs r))%nat ->
     (generate_code kernel device (w, ws)).1
     = Raised multiple_device_programs) /\
  (forall r, o = Returned r ->
     (List.length (device_programs r) <= 1)%nat ->
     (1 < List.length (host_programs r))%nat ->
     (generate_code kernel device (w, ws)).1
     = Raised multiple_host_programs) /\
  (forall r, o = Returned r ->
     (List.length (device_programs r) <= 1)%nat ->
     (List.length (host_programs r) <= 1)%nat ->
     (generate_code kernel device (w, ws)).1
     = (code ← device_code r; Returned (code, None))).
Proof.
  intros Hrun. rewrite generate_code_warns, bind_run.
  unfold in_world. cbn [fst snd]. rewrite Hrun.
  destruct o as [r|e].
  - destruct (decide (1 < List.length (device_programs r))%nat) as [Hd|Hd].
    { rewrite bool_decide_eq_true_2 by done. cbn.
      repeat split; try done; intros r' [= <-]; intros; try done; lia. }
    rewrite bool_decide_eq_false_2 by done.
    destruct (decide (1 < List.length (host_programs r))%nat) as [Hh|Hh].
    { rewrite bool_decide_eq_true_2 by done. cbn.
      repeat split; try done; intros r' [= <-]; intros; try done; lia. }
    rewrite bool_decide_eq_false_2 by done.
    rewrite bind_run, lift_outcome_run. cbn.
    repeat split; try done; intros r' [= <-]; intros; try done; lia.
  - cbn. repeat split; try done. by intros e' [= <-].
Qed.

(** [generate_body] returns exactly when [generate_code_v2] returns a
    result with exactly one device program, and then it returns the
    rendered body of that program; any other result is refused with a
    [LoopyError], no matter whether it has no device program or several. *)
Theorem generate_body_needs_one_device_program (kernel : TranslationUnit)
    (w w' : World X) :
  (forall text,
     generate_body kernel w = (Returned text, w')
     <-> exists r dev_prg,
           generate_code_v2 kernel w = (Returned r, w') /\
           device_programs r = [dev_prg] /\
           text = str_body_ast dev_prg) /\
  (forall r,
     generate_code_v2 kernel w = (Returned r, w') ->
     List.length (device_programs r) <> 1%nat ->
     generate_body kernel w = (Raised not_one_device_program, w')).
Proof.
  unfold generate_body. split.
  - intros text. rewrite bind_run.
    destruct (generate_code_v2 kernel w) as [[r|e] w1] eqn:Hrun.
    + destruct (device_programs r) as [|dp [|dp' rest]] eqn:Hdp.
      * split; [discriminate|].
        intros (r' & dp0 & [= <- <-] & Hdp' & _). congruence.
      * rewrite ret_run. split.
        -- intros [= <- <-]. by exists r, dp.
        -- intros (r' & dp' & [= <- <-] & Hdp' & ->). congruence.
      * split; [discriminate|].
        intros (r' & dp0 & [= <- <-] & Hdp2 & _). congruence.
    + split; [discriminate|]. by intros (r' & dp & [=] & _).
  - intros r Hrun Hlen. rewrite bind_run, Hrun.
    by destruct (device_programs r) as [|dp [|dp' rest]].
Qed.

End entry_points.

Lemma rendering_needs_the_host_programs_witness :
  all_code (H := example_rendering)
    (mkTranslationUnitResult [("knl", None)] [example_program true "knl"]
       [] [])
  = Raised AttributeError.
Proof.
  apply (proj1 (proj1 (proj2 (rendering_needs_the_host_programs
                                 (H := example_rendering) _)))).
  cbn. left.
Defined.

Lemma all_code_extends_device_code_witness :
  exists device_text,
    device_code (H := example_rendering) two_device_result
      = Returned device_text /\
    all_code (H := example_rendering) two_device_result
    = Returned (device_text +:+ blank_line +:+ "void knl_outer() { }").
Proof.
  exact (all_code_extends_device_code (H := example_rendering)
           two_device_result [example_program false "knl_outer"]
           eq_refl eq_refl).
Defined.

Lemma generate_code_refuses_many_programs_witness :
  generate_code (H := example_collaborators) (H0 := example_rendering)
    single_kernel_unit (Some "gpu") (primed_world, [])
  = (Raised multiple_device_programs,
     (primed_world, deprecation_warnings (Some "gpu"))).
Proof.
  eassert (generate_code_v2 (H := example_collaborators) single_kernel_unit
             primed_world = (Returned _, _)) as Hrun
    by (vm_compute; reflexivity).
  destruct (generate_code_refuses_many_programs
              (H := example_collaborators) (H0 := example_rendering)
              single_kernel_unit (Some "gpu") _ _ [] _ Hrun)
    as (Hworld & _ & Hdev & _).
  specialize (Hdev _ eq_refl ltac:(cbn; lia)).
  destruct (generate_code _ _ _) as [o s]. cbn in *. by subst.
Defined.

Lemma generate_body_needs_one_device_program_witness :
  generate_body (H := example_collaborators) (H1 := example_body_rendering)
    single_kernel_unit primed_world
  = (Raised not_one_device_program, primed_world).
Proof.
  eassert (generate_code_v2 (H := example_collaborators) single_kernel_unit
             primed_world = (Returned _, _)) as Hrun
    by (vm_compute; reflexivity).
  exact (proj2 (generate_body_needs_one_device_program
                  (H := example_collaborators)
                  (H1 := example_body_rendering) single_kernel_unit _ _)
               _ Hrun ltac:(cbn; lia)).
Defined.

(** ** The driver calls of [generate_code_v2] *)

Section driver_calls_facts.
Context {X : Type} `{Collaborators X}.

Lemma generate_code_v2_runs (t_unit : TranslationUnit) (w : World X) :
  runs_the_stages t_unit w ->
  generate_code_v2 t_unit w
  = match (t_unit ← prepare t_unit; assemble t_unit) (emission w) with
    | (Returned cgr, e) =>
        (Returned cgr,
         mkWorld (CACHING_ENABLED w) (ABORT_ON_CACHE_MISS w)
           (if CACHING_ENABLED w
            then <[key_builder t_unit := cgr]> (code_gen_cache w)
            else code_gen_cache w) e)
    | (Raised ex, e) =>
        (Raised ex,
         mkWorld (CACHING_ENABLED w) (ABORT_ON_CACHE_MISS w)
           (code_gen_cache w) e)
    end.
Proof.
  intros Hruns. destruct (CACHING_ENABLED w) eqn:Hc.
  - destruct Hruns as [|[Hmiss Ha]]; [congruence|].
    rewrite generate_code_v2_miss by done. by rewrite Ha.
  - rewrite generate_code_v2_uncached by done.
    by destruct ((t_unit ← prepare t_unit; assemble t_unit) (emission w))
      as [[cgr|ex] e].
Qed.

(** The rounds of the collection loop are calls of the driver. *)
Lemma collection_calls (t_unit : TranslationUnit) (ids : list CallableId)
    (acc c : Collected) (w w' : Emission X) :
  for_each_run (collect_one t_unit) ids acc w c w' ->
  exists cgrs decls,
    driver_calls t_unit ids w cgrs w' /\
    Forall2 one_fdecl (callee_results t_unit ids cgrs) decls /\
    callee_fdecls c = callee_fdecls acc ++ decls /\
    col_device_programs c
    = col_device_programs acc ++ mjoin (cgr_device_programs <$> cgrs).
Proof.
  induction 1 as [acc w|id ids acc w acc1 w1 c w' Hone _ IH].
  - exists [], []. split; [constructor|]. split; [constructor|].
    cbn. by rewrite !app_nil_r.
  - destruct IH as (cgrs & decls & Hcalls & Hdecls & Hf & Hdp).
    apply collect_one_returns in Hone
      as (knl & cgr & Hget & Hrun & Hdp1 & Hin & Hout).
    unfold callee_results. cbn [zip zip_with].
    destruct (decide (id ∈ entrypoints t_unit)) as [Hentry|Hentry].
    + exists (cgr :: cgrs), decls. split; [by econstructor|].
      rewrite filter_cons_False by (intros Hne; by apply Hne).
      split; [exact Hdecls|]. rewrite Hf, Hdp, Hdp1, (Hin Hentry).
      split; [done|]. cbn. by rewrite app_assoc.
    + destruct (Hout Hentry) as (dp & decl & Hone & Hdecl & Hacc).
      exists (cgr :: cgrs), (decl :: decls). split; [by econstructor|].
      rewrite filter_cons_True by done. cbn [fmap list_fmap snd].
      split; [constructor; [by exists dp | exact Hdecls]|].
      rewrite Hf, Hdp, Hdp1, Hacc, <- app_assoc.
      split; [done|]. cbn. by rewrite app_assoc.
Qed.

(** Calls of the driver whose results the loop accepts are rounds of the
    loop. *)
Lemma calls_collected (t_unit : TranslationUnit) (ids : list CallableId)
    (cgrs : list CodeGenerationResult) (w w' : Emission X) :
  driver_calls t_unit ids w cgrs w' ->
  Forall (fun cgr => exists decl, one_fdecl cgr decl)
         (callee_results t_unit ids cgrs) ->
  forall acc, exists c,
    for_each ids (collect_one t_unit) acc w = (Returned c, w').
Proof.
  induction 1 as [w|id ids w knl cgr w1 cgrs w' Hget Hrun _ IH];
    intros Hall acc.
  - exists acc. reflexivity.
  - revert Hall. unfold callee_results. cbn [zip zip_with for_each].
    rewrite bind_run. unfold collect_one at 1.
    rewrite bind_run, lift_outcome_run, Hget, bind_run, Hrun, bind_run.
    destruct (decide (id ∈ entrypoints t_unit)) as [Hentry|Hentry].
    + rewrite filter_cons_False by (intros Hne; by apply Hne).
      rewrite bool_decide_eq_true_2 by done. rewrite ret_run, ret_run.
      intros Hall. apply (IH Hall).
    + rewrite filter_cons_True by done. cbn [fmap list_fmap snd].
      intros [(decl & dp & Hone & Hdecl) Hall]%Forall_cons.
      rewrite bool_decide_eq_false_2 by done.
      rewrite bind_run, lift_outcome_run, Hone. cbn [List.length].
      rewrite bool_decide_eq_true_2 by done. cbn [py_assert].
      rewrite bind_run, lift_outcome_run, Hdecl, ret_run, ret_run.
      apply (IH Hall).
Qed.

(** C7: a call of [generate_code_v2] that goes through the stages, and
    whose preparation returns the unit [u], invokes the single-kernel
    driver for the kernel callables of [u] in the sorted order of their
    ids, whatever the order of the callables table.  If the call returns,
    the driver was called once for every id, in that order, each call in
    the world that the call before left, and the result carries, before
    the AST of its first device program, the forward declarations of the
    results for the ids that are not entrypoints, in that order, each
    taken from the one device program of its result.  If the calls for
    the ids before some id were accepted and the driver gives, for that
    id, which is not an entrypoint, other than exactly one device
    program, the call fails with [AssertionError], right after that
    driver call and with the cache as it was. *)
Theorem collection_in_sorted_id_order (t_unit u : TranslationUnit)
    (w : World X) (w0 : Emission X) :
  runs_the_stages t_unit w ->
  prepare t_unit (emission w) = (Returned u, w0) ->
  let ids := sorted_kernel_ids (tu_callables_table u) in
  StronglySorted string_le ids /\
  ids ≡ₚ dict_keys (filter (fun kv => is_CallableKernel kv.2 = true)
                           (tu_callables_table u)) /\
  (forall table',
     table' ≡ₚ tu_callables_table u -> sorted_kernel_ids table' = ids) /\
  (forall r w',
     generate_code_v2 t_unit w = (Returned r, w') ->
     exists cgrs w1 decls first rest,
       driver_calls u ids w0 cgrs w1 /\
       Forall2 one_fdecl (callee_results u ids cgrs) decls /\
       mjoin (cgr_device_programs <$> cgrs) = first :: rest /\
       device_programs r
       = copy_ast first (Collection (decls ++ [ast first])) :: rest) /\
  (forall before func_id after cgrs w1 knl cgr w2,
     ids = before ++ func_id :: after ->
     driver_calls u before w0 cgrs w1 ->
     Forall (fun cgr => exists decl, one_fdecl cgr decl)
            (callee_results u before cgrs) ->
     func_id ∉ entrypoints u ->
     t_unit_getitem u func_id = Returned knl ->
     generate_code_for_a_single_kernel knl (tu_callables_table u)
       (tu_target u) false w1 = (Returned cgr, w2) ->
     List.length (cgr_device_programs cgr) <> 1%nat ->
     generate_code_v2 t_unit w
     = (Raised AssertionError,
        mkWorld (CACHING_ENABLED w) (ABORT_ON_CACHE_MISS w)
                (code_gen_cache w) w2)).
Proof.
  intros Hruns Hprep ids.
  split; [apply sorted_kernel_ids_sorted|].
  split; [apply merge_sort_Permutation|].
  split; [intros table' Hp; by apply sorted_kernel_ids_order_free|].
  rewrite (generate_code_v2_runs _ _ Hruns), bind_run, Hprep.
  split.
  - intros r w'.
    destruct (assemble u w0) as [[r'|] e] eqn:Hasm; [|discriminate].
    intros [= <- <-]. revert Hasm. unfold assemble. rewrite bind_run.
    destruct (collect_programs u w0) as [[c|] w1] eqn:Hc; [|discriminate].
    apply for_each_returns, collection_calls in Hc
      as (cgrs & decls & Hcalls & Hdecls & Hf & Hdp).
    cbn in Hf, Hdp. rewrite bind_run.
    destruct (collect_callable_preambles _ _ w1) as [[ps|] w2];
      [|discriminate].
    rewrite bind_run.
    destruct (col_device_programs c) as [|first rest] eqn:Hfirst;
      [discriminate|].
    rewrite bind_run, lift_outcome_run.
    destruct (get_device_ast_builder (tu_target u)); [|discriminate].
    rewrite ret_run, ret_run. intros [= <-].
    exists cgrs, w1, decls, first, rest.
    split; [exact Hcalls|]. split; [exact Hdecls|]. split; [done|].
    cbn. by rewrite Hf.
  - intros before func_id after cgrs w1 knl cgr w2 Hids Hcalls Hall Hout
      Hget Hrun Hlen.
    unfold assemble, collect_programs. fold ids.
    rewrite bind_run, Hids, for_each_app.
    destruct (calls_collected _ _ _ _ _ Hcalls Hall (mkCollected [] [] [] []))
      as [acc ->].
    cbn [for_each]. rewrite bind_run. unfold collect_one at 1.
    rewrite bind_run, lift_outcome_run, Hget, bind_run.
    rewrite bool_decide_eq_false_2 by done. rewrite Hrun, bind_run.
    rewrite bind_run, lift_outcome_run.
    by rewrite bool_decide_eq_false_2.
Qed.

End driver_calls_facts.

(** The three callees [b], [a], [c], whichever way the table lists them:
    [generate_code_v2] puts their forward declarations in the order [a],
    [b], [c] before the first device program. *)
Example fdecls_of_b_a_c :
  Forall (fun table =>
            exists r w',
              generate_code_v2 (H := example_collaborators)
                (three_callee_unit table) fresh_world = (Returned r, w') /\
              ast <$> head (device_programs r)
              = Some (Collection [Node "void a()"; Node "void b()";
                                  Node "void c()";
                                  FunctionBody "void a()" "{ }"]))
         (permutations callee_entries).
Proof.
  vm_compute permutations.
  repeat constructor; eexists _, _; (split; [vm_compute; reflexivity|]);
    reflexivity.
Qed.

Lemma collection_in_sorted_id_order_witness :
  exists r w' cgrs w1,
    generate_code_v2 (H := example_collaborators)
      (three_callee_unit callee_entries) fresh_world = (Returned r, w') /\
    driver_calls (H := example_collaborators)
      (three_callee_unit callee_entries) ["a"; "b"; "c"]
      (mkEmission [] [] 4%nat) cgrs w1 /\
    Forall2 one_fdecl cgrs
      [Node "void a()"; Node "void b()"; Node "void c()"].
Proof.
  eassert (generate_code_v2 (H := example_collaborators)
             (three_callee_unit callee_entries) fresh_world
           = (Returned _, _)) as Hrun by (vm_compute; reflexivity).
  assert (prepare (H := example_collaborators)
            (three_callee_unit callee_entries) (emission fresh_world)
          = (Returned (three_callee_unit callee_entries),
             mkEmission [] [] 4%nat)) as Hprep
    by (vm_compute; reflexivity).
  assert (runs_the_stages (H := example_collaborators)
            (three_callee_unit callee_entries) fresh_world) as Hruns
    by (right; split; vm_compute; reflexivity).
  destruct (collection_in_sorted_id_order (H := example_collaborators)
              _ _ _ _ Hruns Hprep)
    as (_ & _ & _ & Hret & _).
  destruct (Hret _ _ Hrun)
    as (cgrs & w1 & decls & first & rest & Hcalls & Hdecls & _ & Hdp).
  change (sorted_kernel_ids _) with ["a"; "b"; "c"] in Hcalls, Hdecls.
  eexists _, _, cgrs, w1. split; [exact Hrun|]. split; [exact Hcalls|].
  cbn in Hdp. injection Hdp as _ _ Hcol _.
  apply (app_inj_tail [Node "void a()"; Node "void b()"; Node "void c()"])
    in Hcol as [<- _].
  inversion Hcalls as [|? ? ? ? c1 ? ? ? _ _ H1]; subst.
  inversion H1 as [|? ? ? ? c2 ? ? ? _ _ H2]; subst.
  inversion H2 as [|? ? ? ? c3 ? ? ? _ _ H3]; subst.
  inversion H3; subst. exact Hdecls.
Defined.
